(** * The chat store of cimatch-tmdb-proxy (src/index.js)

    A shallow embedding of [src/index.js]: the in-memory dataset [db], the
    debounced save timer, the [db.json] file, the helpers [getUser] and
    [ensureThread], the five chat routes and the TMDB proxy.

    Conventions of the embedding.
    - A JavaScript object used as a dictionary ([db], [store.threads],
      [store.messages]) is a [gmap string _] of its own properties.  A
      lookup [o[k]] that finds no own property goes on to the prototype:
      the members of [Object.prototype] are found under their names, and
      [store.threads] may have had its prototype replaced by an assignment
      to [__proto__].
    - [Object.values] enumerates in the order of [map_to_list]; no
      statement depends on the order of keys.
    - The wall clock, [crypto.randomUUID] and the outcome of writing the
      file are inputs of each event.
    - The functions of the JavaScript engine the code calls ([Date] parsing
      and printing, the numeric reading of a string) are the fields of the
      class [JSRuntime]; statements quantify over every such runtime. *)

From stdpp Require Import gmap strings list fin_maps pretty sorting.

(** ** JavaScript values found in request bodies and in the dataset *)

(** A JavaScript number. [Num z] is an integer of less than 22 digits,
    which [String] prints in plain digits; [Decimal text] is any other
    finite number but minus zero, kept as the text [String] gives of it
    ([7.5], [1e+21]). *)
Inductive number :=
  | Num (z : Z)
  | NaN
  | Infinity (negative : bool)
  | NegZero
  | Decimal (text : string).

(** The primitive values a decoded JSON body can carry in one of its fields;
    nested arrays and objects are left out. *)
Inductive jsval :=
  | JUndefined
  | JNull
  | JBool (b : bool)
  | JNumber (n : number)
  | JString (s : string).

#[global] Instance number_eq_dec : EqDecision number.
Proof. solve_decision. Defined.

#[global] Instance jsval_eq_dec : EqDecision jsval.
Proof. solve_decision. Defined.

(** What the code asks of the engine. [Date_parse s] is the time value of
    [new Date(s)] in milliseconds, [None] for an invalid date;
    [toISOString t] is [new Date(t).toISOString()]; [StringToNumber] is the
    numeric reading of a string by [Number(...)]. *)
Class JSRuntime := {
  Date_parse : string → option Z;
  toISOString : Z → string;
  StringToNumber : string → number;
}.

(** [Boolean(v)], also the test made by [if], [!], [||] and [?:]. *)
Definition ToBoolean (v : jsval) : bool :=
  match v with
  | JUndefined | JNull => false
  | JBool b => b
  | JNumber (Num z) => negb (Z.eqb z 0)
  | JNumber NaN => false
  | JNumber (Infinity _) => true
  | JNumber NegZero => false
  | JNumber (Decimal _) => true
  | JString s => negb (bool_decide (s = ""))
  end.

(** [String(v)]. *)
Definition ToString (v : jsval) : string :=
  match v with
  | JUndefined => "undefined"
  | JNull => "null"
  | JBool true => "true"
  | JBool false => "false"
  | JNumber (Num z) => pretty z
  | JNumber NaN => "NaN"
  | JNumber (Infinity false) => "Infinity"
  | JNumber (Infinity true) => "-Infinity"
  | JNumber NegZero => "0"
  | JNumber (Decimal text) => text
  | JString s => s
  end.

(** [Number(v)]. *)
Definition ToNumber `{JSRuntime} (v : jsval) : number :=
  match v with
  | JUndefined => NaN
  | JNull => Num 0
  | JBool true => Num 1
  | JBool false => Num 0
  | JNumber n => n
  | JString s => StringToNumber s
  end.

(** [v ?? d]. *)
Definition coalesce (v d : jsval) : jsval :=
  match v with
  | JUndefined | JNull => d
  | _ => v
  end.

(** ** The dataset *)

Module Thread.
Record t := mk {
  id : string;
  name : string;
  avatarUrl : string;
  online : bool;
  lastMessage : string;
  unread : jsval;
  updatedAt : string;
  muted : bool;
  archived : bool;
}.
End Thread.

(** The field [at] of a message is spelled [at_]: [at] is reserved. *)
Module Message.
Record t := mk {
  id : string;
  fromMe : bool;
  text : string;
  at_ : string;
}.
End Message.

#[global] Instance thread_eq_dec : EqDecision Thread.t.
Proof. solve_decision. Defined.

#[global] Instance message_eq_dec : EqDecision Message.t.
Proof. solve_decision. Defined.

(** [db[userId]]: [{ threads: {}, messages: {} }]. The maps hold the own
    properties. [threads_proto] is the thread record that an assignment to
    [store.threads["__proto__"]] made the prototype of [store.threads], if
    there was one; [store.messages] and [db] are never assigned under a
    name they inherit, so their prototype stays [Object.prototype]. *)
Record Store := {
  threads : gmap string Thread.t;
  threads_proto : option Thread.t;
  messages : gmap string (list Message.t);
}.

#[global] Instance store_eq_dec : EqDecision Store.
Proof. solve_decision. Defined.

(** ** JSON documents and the file db.json *)

(** A number is [JSnum] when it is an integer, [JSdec] with its text
    otherwise. *)
#[local] Unset Elimination Schemes.
Inductive json :=
  | JSnull
  | JSbool (b : bool)
  | JSnum (z : Z)
  | JSdec (text : string)
  | JSstr (s : string)
  | JSarr (l : list json)
  | JSobj (l : list (string * json)).
#[local] Set Elimination Schemes.

(** What [fs.readFileSync(DB_FILE, "utf8")] can hand to [loadDb]: the empty
    text, a text [JSON.parse] throws on, or the text of a document. *)
Inductive blob :=
  | EmptyText
  | Unparsable
  | Doc (j : json).

(** ** The server: the globals [db] and [_saveTimer], and the file *)

(** What the routes can add to [Object.prototype], which every object of
    the process then inherits: [th.unread = 0] and
    [th.lastMessage = ...; th.updatedAt = ...] write there when [th] is
    [Object.prototype] itself. [unread_added] says that [unread] is there,
    with the value 0; [preview_added] holds the values of [lastMessage]
    and [updatedAt] when they are there. *)
Record additions := {
  unread_added : bool;
  preview_added : option (string * string);
}.

#[global] Instance additions_eq_dec : EqDecision additions.
Proof. solve_decision. Defined.

(** [Object.prototype] of a new process. *)
Definition pristine : additions :=
  {| unread_added := false; preview_added := None |}.

(** The global [Object_prototype] is [Object.prototype]. *)
Record server := {
  db : gmap string Store;
  saveTimer : bool;
  file : option blob;
  Object_prototype : additions;
}.

Definition with_db (d : gmap string Store) (s : server) : server :=
  {| db := d; saveTimer := saveTimer s; file := file s;
     Object_prototype := Object_prototype s |}.

Definition with_Object_prototype (pp : additions) (s : server) : server :=
  {| db := db s; saveTimer := saveTimer s; file := file s; Object_prototype := pp |}.

(** [scheduleSave]: arm the 200 ms timer unless one is pending. *)
Definition scheduleSave (s : server) : server :=
  if saveTimer s then s
  else {| db := db s; saveTimer := true; file := file s;
          Object_prototype := Object_prototype s |}.

(** ** Property lookup *)

(** The names every object inherits from [Object.prototype]. What is found
    under them is a function, and under [__proto__] the prototype itself:
    truthy in each case. The routes add no property of these names. *)
Definition Object_prototype_names : list string :=
  ["constructor"; "__proto__"; "hasOwnProperty"; "isPrototypeOf";
   "propertyIsEnumerable"; "toLocaleString"; "toString"; "valueOf";
   "__defineGetter__"; "__defineSetter__"; "__lookupGetter__"; "__lookupSetter__"].

Definition inherited (k : string) : bool :=
  bool_decide (k ∈ Object_prototype_names).

(** The property [k] that was added to [Object.prototype], if one was. *)
Definition added (pp : additions) (k : string) : option jsval :=
  if bool_decide (k = "unread") then
    if unread_added pp then Some (JNumber (Num 0)) else None
  else if bool_decide (k = "lastMessage") then (λ p, JString p.1) <$> preview_added pp
  else if bool_decide (k = "updatedAt") then (λ p, JString p.2) <$> preview_added pp
  else None.

(** [o.k] for the object [o] of a decoded JSON body, whose own value under
    [k] is [v], [JUndefined] when it has none: what is not its own is looked
    up in [Object.prototype]. This matters for [unread], [lastMessage] and
    [updatedAt] only; the other fields of a body are read as its own. *)
Definition get_field (pp : additions) (k : string) (v : jsval) : jsval :=
  match v with
  | JUndefined => default JUndefined (added pp k)
  | _ => v
  end.

(** What [o[k]] finds in [db] or in [store.messages]: an own property;
    else a truthy value on the prototype (a function, [Object.prototype], a
    string or a number added to it), which is no store and no list; else
    [undefined] or a falsy added value. *)
Inductive found (A : Type) :=
  | Own (x : A)
  | Inherited
  | Undefined.
Arguments Own {A} x.
Arguments Inherited {A}.
Arguments Undefined {A}.

Definition lookup_js {A} (pp : additions) (o : gmap string A) (k : string) : found A :=
  match o !! k with
  | Some x => Own x
  | None =>
      if inherited k then Inherited
      else
        match added pp k with
        | Some v => if ToBoolean v then Inherited else Undefined
        | None => Undefined
        end
  end.

(** [!o[k]] for such a lookup. *)
Definition falsy {A} (f : found A) : bool :=
  match f with
  | Undefined => true
  | _ => false
  end.

(** The field [k] of a thread record. *)
Definition thread_field (k : string) (th : Thread.t) : option jsval :=
  if bool_decide (k = "id") then Some (JString (Thread.id th))
  else if bool_decide (k = "name") then Some (JString (Thread.name th))
  else if bool_decide (k = "avatarUrl") then Some (JString (Thread.avatarUrl th))
  else if bool_decide (k = "online") then Some (JBool (Thread.online th))
  else if bool_decide (k = "lastMessage") then Some (JString (Thread.lastMessage th))
  else if bool_decide (k = "unread") then Some (Thread.unread th)
  else if bool_decide (k = "updatedAt") then Some (JString (Thread.updatedAt th))
  else if bool_decide (k = "muted") then Some (JBool (Thread.muted th))
  else if bool_decide (k = "archived") then Some (JBool (Thread.archived th))
  else None.

(** What [store.threads[k]] finds: an own record; under [__proto__] the
    prototype; a field of the record that has become the prototype; a
    function of [Object.prototype]; a value added to [Object.prototype];
    or nothing. *)
Inductive thread_found :=
  | Record_ (th : Thread.t)
  | Prototype
  | Field (v : jsval)
  | Function_
  | Nothing.

Definition threads_get (pp : additions) (store : Store) (k : string) : thread_found :=
  match threads store !! k with
  | Some th => Record_ th
  | None =>
      if bool_decide (k = "__proto__") then Prototype
      else
        match threads_proto store ≫= thread_field k with
        | Some v => Field v
        | None =>
            if inherited k then Function_
            else
              match added pp k with
              | Some v => Field v
              | None => Nothing
              end
        end
  end.

(** [!store.threads[k]]. *)
Definition no_thread (f : thread_found) : bool :=
  match f with
  | Record_ _ | Prototype | Function_ => false
  | Field v => negb (ToBoolean v)
  | Nothing => true
  end.

(** [store.threads[k] = th]: under [__proto__], unless that is an own
    property, the setter of [Object.prototype] makes the record the
    prototype of [store.threads] and no property is created. *)
Definition threads_set (k : string) (th : Thread.t) (store : Store) : Store :=
  if bool_decide (k = "__proto__") && bool_decide (threads store !! k = None) then
    {| threads := threads store; threads_proto := Some th; messages := messages store |}
  else
    {| threads := <[k := th]> (threads store);
       threads_proto := threads_proto store;
       messages := messages store |}.

(** [store.messages[k] = l]. *)
Definition messages_set (k : string) (l : list Message.t) (store : Store) : Store :=
  {| threads := threads store;
     threads_proto := threads_proto store;
     messages := <[k := l]> (messages store) |}.

(** The assignments [th.field = value] of a route, for
    [th = store.threads[k]]: [f] is their effect on a thread record, [g]
    their effect on [Object.prototype]. The result is [None] when [th] is
    [undefined] or [null] and the assignment throws. An own record, and the
    record that is the prototype, are updated in place. On
    [Object.prototype] itself the properties are added to it. On a string,
    a boolean or a number the assignment does nothing (the file is not in
    strict mode). On a function of [Object.prototype] it sets properties of
    that function, which no lookup of the code reads. *)
Definition assign (f : Thread.t → Thread.t) (g : additions → additions) (k : string)
    (pp : additions) (store : Store) : option (additions * Store) :=
  match threads_get pp store k with
  | Record_ _ =>
      Some (pp, {| threads := alter f k (threads store);
                   threads_proto := threads_proto store;
                   messages := messages store |})
  | Prototype =>
      match threads_proto store with
      | Some p =>
          Some (pp, {| threads := threads store;
                       threads_proto := Some (f p);
                       messages := messages store |})
      | None => Some (g pp, store)
      end
  | Field JUndefined | Field JNull | Nothing => None
  | Field _ | Function_ => Some (pp, store)
  end.

(** ** Helpers *)

Definition empty_store : Store :=
  {| threads := ∅; threads_proto := None; messages := ∅ |}.

(** [req.header("x-user-id") || "demo"]. *)
Definition userId_of (hdr : option string) : string :=
  match hdr with
  | Some h => if bool_decide (h = "") then "demo" else h
  | None => "demo"
  end.

(** [getUser(req)]. It returns the user id; the [store] it returns is
    [db[userId]] of the state it leaves: the tenant's store when [db] has
    the key, and otherwise a value inherited from [Object.prototype], which
    has no [threads] and no [messages]. *)
Definition getUser (hdr : option string) (s : server) : string * server :=
  let userId := userId_of hdr in
  if falsy (lookup_js (Object_prototype s) (db s) userId) then
    (userId, scheduleSave (with_db (<[userId := empty_store]> (db s)) s))
  else (userId, s).

(** The store of a user, empty when [db] has none under that key: what
    [store.threads || {}] reads of the [store] that [getUser] returns. *)
Definition store_of (userId : string) (s : server) : Store :=
  default empty_store (db s !! userId).

(** Writes made through the reference [store] land in [db[userId]]. *)
Definition set_store (userId : string) (st : Store) (s : server) : server :=
  with_db (<[userId := st]> (db s)) s.

Definition default_thread (threadId now : string) : Thread.t :=
  {| Thread.id := threadId;
     Thread.name := threadId;
     Thread.avatarUrl := "";
     Thread.online := false;
     Thread.lastMessage := "";
     Thread.unread := JNumber (Num 0);
     Thread.updatedAt := now;
     Thread.muted := false;
     Thread.archived := false |}.

(** [ensureThread(store, threadId)] on the store of a tenant; [clock] is the
    reading of [new Date()], [pp] the additions to [Object.prototype]. *)
Definition ensureThread `{JSRuntime} (clock : Z) (pp : additions) (store : Store)
    (threadId : string) : Store :=
  let store1 :=
    if no_thread (threads_get pp store threadId) then
      threads_set threadId (default_thread threadId (toISOString clock)) store
    else store in
  if falsy (lookup_js pp (messages store1) threadId) then messages_set threadId [] store1
  else store1.

(** ** Responses *)

(** [Uncaught] is the error page Express sends when a route throws;
    [Other] is a body that is none of the shapes before it. *)
Inductive payload :=
  | Threads (l : list Thread.t)
  | Messages (l : list Message.t)
  | Ok
  | Error (error : string)
  | Ack (id at_ : string)
  | Other
  | Uncaught.

(** [res.status(n).json(p)]; [res.json(p)] is status 200. *)
Record response := {
  status : nat;
  body : payload;
}.

(** The answer to a request whose route throws. *)
Definition crash : response := {| status := 500; body := Uncaught |}.

(** ** GET /v1/chat/threads *)

(** [Object.values(o)]. *)
Definition Object_values {A} (o : gmap string A) : list A :=
  (map_to_list o).*2.

(** The difference of two dates, NaN as soon as one is invalid. *)
Definition date_sub (a b : option Z) : option Z :=
  match a, b with
  | Some x, Some y => Some (x - y)%Z
  | _, _ => None
  end.

(** [(a, b) => new Date(b.updatedAt) - new Date(a.updatedAt)]. *)
Definition byUpdatedAt `{JSRuntime} (a b : Thread.t) : option Z :=
  date_sub (Date_parse (Thread.updatedAt b)) (Date_parse (Thread.updatedAt a)).

(** A comparator result above zero: [b] goes before [a]. NaN counts as 0. *)
Definition is_positive (c : option Z) : bool :=
  match c with
  | Some d => (0 <? d)%Z
  | None => false
  end.

Fixpoint sort_insert {A} (comparefn : A → A → option Z) (x : A) (l : list A) : list A :=
  match l with
  | [] => [x]
  | y :: l' =>
      if is_positive (comparefn x y) then y :: sort_insert comparefn x l'
      else x :: y :: l'
  end.

(** [Array.prototype.sort(comparefn)]: a stable sort, here by insertion.
    For a consistent comparator the outcome of a stable sort is determined
    by the input. When the comparator is not consistent (a date that is
    invalid compares as NaN) the engine may return another arrangement of
    the same elements; the statements use only what holds of each. *)
Definition Array_sort {A} (comparefn : A → A → option Z) (l : list A) : list A :=
  foldr (sort_insert comparefn) [] l.

Definition getThreads `{JSRuntime} (hdr : option string) (s : server) : response * server :=
  let '(userId, s1) := getUser hdr s in
  let store := store_of userId s1 in
  let threads := Array_sort byUpdatedAt (Object_values (threads store)) in
  ({| status := 200; body := Threads threads |}, s1).

(** ** POST /v1/chat/threads *)

Module ThreadBody.
Record t := mk {
  id : jsval;
  name : jsval;
  avatarUrl : jsval;
  online : jsval;
  lastMessage : jsval;
  unread : jsval;
  updatedAt : jsval;
  muted : jsval;
  archived : jsval;
}.
End ThreadBody.

(** The record the route builds from the body [t]. *)
Definition build_thread `{JSRuntime} (now : string) (pp : additions)
    (t : ThreadBody.t) : Thread.t :=
  {| Thread.id := ToString (ThreadBody.id t);
     Thread.name := ToString (coalesce (ThreadBody.name t) (ThreadBody.id t));
     Thread.avatarUrl := ToString (coalesce (ThreadBody.avatarUrl t) (JString ""));
     Thread.online := ToBoolean (coalesce (ThreadBody.online t) (JBool false));
     Thread.lastMessage :=
       ToString (coalesce (get_field pp "lastMessage" (ThreadBody.lastMessage t)) (JString ""));
     Thread.unread :=
       JNumber (ToNumber (coalesce (get_field pp "unread" (ThreadBody.unread t)) (JNumber (Num 0))));
     Thread.updatedAt :=
       ToString (coalesce (get_field pp "updatedAt" (ThreadBody.updatedAt t)) (JString now));
     Thread.muted := ToBoolean (coalesce (ThreadBody.muted t) (JBool false));
     Thread.archived := ToBoolean (coalesce (ThreadBody.archived t) (JBool false)) |}.

(** When [store] is no tenant's store, [store.threads] is [undefined] and
    the assignment throws. *)
Definition postThread `{JSRuntime} (clock : Z) (hdr : option string) (t : ThreadBody.t)
    (s : server) : response * server :=
  let '(userId, s1) := getUser hdr s in
  let pp := Object_prototype s1 in
  if negb (ToBoolean (ThreadBody.id t)) then
    ({| status := 400; body := Error "thread.id required" |}, s1)
  else
    let now := toISOString clock in
    let thread := build_thread now pp t in
    match db s1 !! userId with
    | None => (crash, s1)
    | Some store =>
        let store1 := threads_set (Thread.id thread) thread store in
        let store2 :=
          if falsy (lookup_js pp (messages store1) (Thread.id thread)) then
            messages_set (Thread.id thread) [] store1
          else store1 in
        ({| status := 201; body := Ok |}, scheduleSave (set_store userId store2 s1))
    end.

(** ** GET /v1/chat/threads/:id/messages *)

(** [a > b] on two dates: false as soon as one is invalid. *)
Definition date_gt (a b : option Z) : bool :=
  match a, b with
  | Some x, Some y => (y <? x)%Z
  | _, _ => false
  end.

(** [req.query.after ? new Date(req.query.after) : null]: [None] is [null],
    [Some d] a Date object, invalid when [d] is [None]. *)
Definition after_of `{JSRuntime} (q : option string) : option (option Z) :=
  match q with
  | Some a => if bool_decide (a = "") then None else Some (Date_parse a)
  | None => None
  end.

(** When [store] is no tenant's store, [ensureThread] throws on
    [store.threads[threadId]]. When [msgs] is an inherited value, it has no
    [filter], and without cursor [res.json] is handed what is no list. *)
Definition getMessages `{JSRuntime} (clock : Z) (hdr : option string) (threadId : string)
    (q : option string) (s : server) : response * server :=
  let '(userId, s1) := getUser hdr s in
  let pp := Object_prototype s1 in
  match db s1 !! userId with
  | None => (crash, s1)
  | Some store0 =>
      let store := ensureThread clock pp store0 threadId in
      let s2 := set_store userId store s1 in
      let after := after_of q in
      match lookup_js pp (messages store) threadId, after with
      | Own msgs, Some d =>
          ({| status := 200;
              body := Messages (List.filter (λ m, date_gt (Date_parse (Message.at_ m)) d) msgs) |},
           s2)
      | Own msgs, None => ({| status := 200; body := Messages msgs |}, s2)
      | Undefined, _ => ({| status := 200; body := Messages [] |}, s2)
      | Inherited, Some _ => (crash, s2)
      | Inherited, None => ({| status := 200; body := Other |}, s2)
      end
  end.

(** ** POST /v1/chat/threads/:id/read *)

(** [th.unread = 0] on a thread record, and on [Object.prototype]. *)
Definition mark_read (th : Thread.t) : Thread.t :=
  {| Thread.id := Thread.id th;
     Thread.name := Thread.name th;
     Thread.avatarUrl := Thread.avatarUrl th;
     Thread.online := Thread.online th;
     Thread.lastMessage := Thread.lastMessage th;
     Thread.unread := JNumber (Num 0);
     Thread.updatedAt := Thread.updatedAt th;
     Thread.muted := Thread.muted th;
     Thread.archived := Thread.archived th |}.

Definition add_unread (pp : additions) : additions :=
  {| unread_added := true; preview_added := preview_added pp |}.

Definition postRead `{JSRuntime} (clock : Z) (hdr : option string) (threadId : string)
    (s : server) : response * server :=
  let '(userId, s1) := getUser hdr s in
  let pp := Object_prototype s1 in
  match db s1 !! userId with
  | None => (crash, s1)
  | Some store0 =>
      let store := ensureThread clock pp store0 threadId in
      match assign mark_read add_unread threadId pp store with
      | None => (crash, set_store userId store s1)
      | Some (pp', store') =>
          ({| status := 200; body := Ok |},
           scheduleSave (with_Object_prototype pp' (set_store userId store' s1)))
      end
  end.

(** ** POST /v1/chat/threads/:id/messages *)

Module MessageBody.
Record t := mk {
  id : jsval;
  fromMe : jsval;
  text : jsval;
}.
End MessageBody.

(** [th.lastMessage = msg.text; th.updatedAt = msg.at] on a thread record,
    and on [Object.prototype]. *)
Definition preview (msg : Message.t) (th : Thread.t) : Thread.t :=
  {| Thread.id := Thread.id th;
     Thread.name := Thread.name th;
     Thread.avatarUrl := Thread.avatarUrl th;
     Thread.online := Thread.online th;
     Thread.lastMessage := Message.text msg;
     Thread.unread := Thread.unread th;
     Thread.updatedAt := Message.at_ msg;
     Thread.muted := Thread.muted th;
     Thread.archived := Thread.archived th |}.

Definition add_preview (msg : Message.t) (pp : additions) : additions :=
  {| unread_added := unread_added pp;
     preview_added := Some (Message.text msg, Message.at_ msg) |}.

(** The message the route builds from the body [b]; [uuid] is what
    [crypto.randomUUID()] returns when it is called. *)
Definition build_message `{JSRuntime} (clock : Z) (uuid : string) (b : MessageBody.t) : Message.t :=
  {| Message.id := if ToBoolean (MessageBody.id b) then ToString (MessageBody.id b) else uuid;
     Message.fromMe := ToBoolean (MessageBody.fromMe b);
     Message.text := ToString (coalesce (MessageBody.text b) (JString ""));
     Message.at_ := toISOString clock |}.

(** [list.find((m) => m.id === id)]. *)
Definition find_id (id : string) (list : list Message.t) : option Message.t :=
  List.find (λ m, bool_decide (Message.id m = id)) list.

(** [clock0] is read by [ensureThread], [clock] by the route for [serverAt].
    When [list] is an inherited value, it has no [find]. *)
Definition postMessage `{JSRuntime} (clock0 clock : Z) (uuid : string) (hdr : option string)
    (threadId : string) (b : MessageBody.t) (s : server) : response * server :=
  let '(userId, s1) := getUser hdr s in
  let pp := Object_prototype s1 in
  match db s1 !! userId with
  | None => (crash, s1)
  | Some store0 =>
      let store := ensureThread clock0 pp store0 threadId in
      let msg := build_message clock uuid b in
      match lookup_js pp (messages store) threadId with
      | Own list =>
          match find_id (Message.id msg) list with
          | Some existing =>
              ({| status := 200; body := Ack (Message.id existing) (Message.at_ existing) |},
               set_store userId store s1)
          | None =>
              let store1 := messages_set threadId (list ++ [msg]) store in
              match assign (preview msg) (add_preview msg) threadId pp store1 with
              | None => (crash, set_store userId store1 s1)
              | Some (pp', store') =>
                  ({| status := 201; body := Ack (Message.id msg) (Message.at_ msg) |},
                   scheduleSave (with_Object_prototype pp' (set_store userId store' s1)))
              end
          end
      | Inherited | Undefined => (crash, set_store userId store s1)
      end
  end.

(** ** PERSIST (db.json) *)

(** The JSON value of a primitive: [undefined] has none (the property is
    skipped); NaN and the infinities are written as [null], minus zero
    as [0]. *)
Definition prim_json (v : jsval) : option json :=
  match v with
  | JUndefined => None
  | JNull => Some JSnull
  | JBool b => Some (JSbool b)
  | JNumber (Num z) => Some (JSnum z)
  | JNumber NaN => Some JSnull
  | JNumber (Infinity _) => Some JSnull
  | JNumber NegZero => Some (JSnum 0)
  | JNumber (Decimal text) => Some (JSdec text)
  | JString s => Some (JSstr s)
  end.

Definition member (k : string) (v : jsval) : list (string * json) :=
  match prim_json v with
  | Some j => [(k, j)]
  | None => []
  end.

Definition thread_json (th : Thread.t) : json :=
  JSobj ([("id", JSstr (Thread.id th));
          ("name", JSstr (Thread.name th));
          ("avatarUrl", JSstr (Thread.avatarUrl th));
          ("online", JSbool (Thread.online th));
          ("lastMessage", JSstr (Thread.lastMessage th))]
         ++ member "unread" (Thread.unread th)
         ++ [("updatedAt", JSstr (Thread.updatedAt th));
             ("muted", JSbool (Thread.muted th));
             ("archived", JSbool (Thread.archived th))]).

Definition message_json (m : Message.t) : json :=
  JSobj [("id", JSstr (Message.id m));
         ("fromMe", JSbool (Message.fromMe m));
         ("text", JSstr (Message.text m));
         ("at", JSstr (Message.at_ m))].

(** The own properties of an object; what it inherits is not written. *)
Definition object_json {A} (f : A → json) (o : gmap string A) : json :=
  JSobj (prod_map id f <$> map_to_list o).

Definition store_json (st : Store) : json :=
  JSobj [("threads", object_json thread_json (threads st));
         ("messages", object_json (λ l, JSarr (message_json <$> l)) (messages st))].

(** The document whose text [JSON.stringify(db, null, 2)] produces. *)
Definition JSON_stringify (d : gmap string Store) : json :=
  object_json store_json d.

(** What [fs.writeFileSync(DB_FILE, text, "utf8")] can do: write the text;
    or throw, leaving the file as it was, or empty (it was opened, which
    truncates it), or with a beginning of the text only, which does not
    parse. *)
Inductive write_outcome :=
  | Written
  | Untouched
  | Truncated
  | Partial.

Definition writeFileSync (w : write_outcome) (text : json) (f : option blob) : option blob :=
  match w with
  | Written => Some (Doc text)
  | Untouched => f
  | Truncated => Some EmptyText
  | Partial => Some Unparsable
  end.

(** [saveDbNow]: the exception of a failed write is caught and logged. *)
Definition saveDbNow (w : write_outcome) (s : server) : server :=
  {| db := db s;
     saveTimer := saveTimer s;
     file := writeFileSync w (JSON_stringify (db s)) (file s);
     Object_prototype := Object_prototype s |}.

(** Reading a parsed document back as a dataset. The result is [None] for
    a document that does not have the shape [saveDbNow] writes. *)
Definition json_prim (j : json) : option jsval :=
  match j with
  | JSnull => Some JNull
  | JSbool b => Some (JBool b)
  | JSnum z => Some (JNumber (Num z))
  | JSdec text => Some (JNumber (Decimal text))
  | JSstr s => Some (JString s)
  | JSarr _ | JSobj _ => None
  end.

Definition as_string (j : json) : option string :=
  match j with JSstr s => Some s | _ => None end.

Definition as_bool (j : json) : option bool :=
  match j with JSbool b => Some b | _ => None end.

Definition take_member (k : string) (l : list (string * json)) : option (json * list (string * json)) :=
  match l with
  | (k', j) :: l' => if bool_decide (k' = k) then Some (j, l') else None
  | [] => None
  end.

Definition thread_of_json (j : json) : option Thread.t :=
  match j with
  | JSobj l =>
      '(j_id, l) ← take_member "id" l; v_id ← as_string j_id;
      '(j_name, l) ← take_member "name" l; v_name ← as_string j_name;
      '(j_avatar, l) ← take_member "avatarUrl" l; v_avatar ← as_string j_avatar;
      '(j_online, l) ← take_member "online" l; v_online ← as_bool j_online;
      '(j_last, l) ← take_member "lastMessage" l; v_last ← as_string j_last;
      '(v_unread, l) ←
        match take_member "unread" l with
        | Some (j_unread, l') => v ← json_prim j_unread; Some (v, l')
        | None => Some (JUndefined, l)
        end;
      '(j_updated, l) ← take_member "updatedAt" l; v_updated ← as_string j_updated;
      '(j_muted, l) ← take_member "muted" l; v_muted ← as_bool j_muted;
      '(j_archived, l) ← take_member "archived" l; v_archived ← as_bool j_archived;
      match l with
      | [] => Some (Thread.mk v_id v_name v_avatar v_online v_last v_unread v_updated v_muted v_archived)
      | _ :: _ => None
      end
  | _ => None
  end.

Definition message_of_json (j : json) : option Message.t :=
  match j with
  | JSobj l =>
      '(j_id, l) ← take_member "id" l; v_id ← as_string j_id;
      '(j_from, l) ← take_member "fromMe" l; v_from ← as_bool j_from;
      '(j_text, l) ← take_member "text" l; v_text ← as_string j_text;
      '(j_at, l) ← take_member "at" l; v_at ← as_string j_at;
      match l with
      | [] => Some (Message.mk v_id v_from v_text v_at)
      | _ :: _ => None
      end
  | _ => None
  end.

Definition messages_of_json (j : json) : option (list Message.t) :=
  match j with
  | JSarr l => mapM message_of_json l
  | _ => None
  end.

(** An object read as a dictionary; of two members with one key the later
    one wins, as in [JSON.parse]. *)
Definition object_of_json {A} (f : json → option A) (j : json) : option (gmap string A) :=
  match j with
  | JSobj l => list_to_map <$> mapM (λ kv, v ← f kv.2; Some (kv.1, v)) (reverse l)
  | _ => None
  end.

(** The objects [JSON.parse] makes have the prototype [Object.prototype]. *)
Definition store_of_json (j : json) : option Store :=
  match j with
  | JSobj l =>
      '(j_threads, l) ← take_member "threads" l;
      v_threads ← object_of_json thread_of_json j_threads;
      '(j_messages, l) ← take_member "messages" l;
      v_messages ← object_of_json messages_of_json j_messages;
      match l with
      | [] => Some {| threads := v_threads; threads_proto := None; messages := v_messages |}
      | _ :: _ => None
      end
  | _ => None
  end.

Definition db_of_json (j : json) : option (gmap string Store) :=
  object_of_json store_of_json j.

(** [loadDb]: an absent file, an empty text and a text that does not parse
    all give [db = {}]. *)
Definition loadDb (s : server) : option server :=
  match file s with
  | None => Some (with_db ∅ s)
  | Some EmptyText => Some (with_db ∅ s)
  | Some Unparsable => Some (with_db ∅ s)
  | Some (Doc j) => d ← db_of_json j; Some (with_db d s)
  end.

(** ** Requests, timer and runs *)

Inductive request :=
  | GET_threads (hdr : option string)
  | POST_threads (clock : Z) (hdr : option string) (t : ThreadBody.t)
  | GET_messages (clock : Z) (hdr : option string) (threadId : string) (after : option string)
  | POST_read (clock : Z) (hdr : option string) (threadId : string)
  | POST_messages (clock0 clock : Z) (uuid : string) (hdr : option string) (threadId : string)
      (b : MessageBody.t).

Definition handle `{JSRuntime} (r : request) (s : server) : response * server :=
  match r with
  | GET_threads hdr => getThreads hdr s
  | POST_threads clock hdr t => postThread clock hdr t s
  | GET_messages clock hdr threadId q => getMessages clock hdr threadId q s
  | POST_read clock hdr threadId => postRead clock hdr threadId s
  | POST_messages clock0 clock uuid hdr threadId b => postMessage clock0 clock uuid hdr threadId b s
  end.

(** The callback of [scheduleSave]: [_saveTimer = null; saveDbNow()]; [w]
    is what the write comes to. *)
Definition timerFires (w : write_outcome) (s : server) : server :=
  if saveTimer s then
    saveDbNow w {| db := db s; saveTimer := false; file := file s;
                   Object_prototype := Object_prototype s |}
  else s.

Inductive event :=
  | Request (r : request)
  | TimerFires (w : write_outcome).

Definition step `{JSRuntime} (s : server) (e : event) : server :=
  match e with
  | Request r => (handle r s).2
  | TimerFires w => timerFires w s
  end.

Definition run `{JSRuntime} (s : server) (evs : list event) : server :=
  foldl step s evs.

(** The process after start-up with no db.json: [loadDb] leaves [db = {}]. *)
Definition init : server :=
  {| db := ∅; saveTimer := false; file := None; Object_prototype := pristine |}.

(** ** A reference runtime

    Used for the concrete runs below.  It reads and prints dates in the one
    shape [toISOString] emits, [YYYY-MM-DDTHH:mm:ss.sssZ], for the years 0000
    to 9999, and reads as a number a string of decimal digits that names an
    integer up to 2^53, and the strings [Infinity] and [-Infinity].  On these
    inputs it agrees with the engines; every other string is an invalid date,
    respectively NaN, which is coarser than the engines are. *)

Definition days_from_civil (y m d : Z) : Z :=
  let y' := if (m <=? 2)%Z then (y - 1)%Z else y in
  let era := (y' `div` 400)%Z in
  let yoe := (y' - era * 400)%Z in
  let mp := if (2 <? m)%Z then (m - 3)%Z else (m + 9)%Z in
  let doy := ((153 * mp + 2) `div` 5 + d - 1)%Z in
  let doe := (yoe * 365 + yoe `div` 4 - yoe `div` 100 + doy)%Z in
  (era * 146097 + doe - 719468)%Z.

Definition civil_from_days (z : Z) : Z * Z * Z :=
  let z := (z + 719468)%Z in
  let era := (z `div` 146097)%Z in
  let doe := (z - era * 146097)%Z in
  let yoe := ((doe - doe `div` 1460 + doe `div` 36524 - doe `div` 146096) `div` 365)%Z in
  let doy := (doe - (365 * yoe + yoe `div` 4 - yoe `div` 100))%Z in
  let mp := ((5 * doy + 2) `div` 153)%Z in
  let d := (doy - (153 * mp + 2) `div` 5 + 1)%Z in
  let m := if (mp <? 10)%Z then (mp + 3)%Z else (mp - 9)%Z in
  let y := (yoe + era * 400 + (if (m <=? 2)%Z then 1 else 0))%Z in
  (y, m, d).

Fixpoint zeros (n : nat) : string :=
  match n with
  | O => ""
  | S n' => "0" +:+ zeros n'
  end.

Definition pad (width : nat) (z : Z) : string :=
  let s := pretty z in
  zeros (width - String.length s) +:+ s.

Definition ref_toISOString (t : Z) : string :=
  let '(y, m, d) := civil_from_days (t `div` 86400000)%Z in
  let ms := (t `mod` 86400000)%Z in
  pad 4 y +:+ "-" +:+ pad 2 m +:+ "-" +:+ pad 2 d +:+ "T"
  +:+ pad 2 (ms `div` 3600000)%Z +:+ ":" +:+ pad 2 ((ms `div` 60000) `mod` 60)%Z
  +:+ ":" +:+ pad 2 ((ms `div` 1000) `mod` 60)%Z
  +:+ "." +:+ pad 3 (ms `mod` 1000)%Z +:+ "Z".

Fixpoint digits_value (acc : Z) (s : string) : option Z :=
  match s with
  | "" => Some acc
  | String c s' =>
      let n := Z.of_N (Ascii.N_of_ascii c) in
      if ((48 <=? n) && (n <=? 57))%Z then digits_value (10 * acc + (n - 48))%Z s'
      else None
  end.

Definition ref_Date_parse (s : string) : option Z :=
  y ← digits_value 0 (String.substring 0 4 s);
  m ← digits_value 0 (String.substring 5 2 s);
  d ← digits_value 0 (String.substring 8 2 s);
  h ← digits_value 0 (String.substring 11 2 s);
  mi ← digits_value 0 (String.substring 14 2 s);
  sec ← digits_value 0 (String.substring 17 2 s);
  f ← digits_value 0 (String.substring 20 3 s);
  let t := (days_from_civil y m d * 86400000 + h * 3600000 + mi * 60000 + sec * 1000 + f)%Z in
  if bool_decide (ref_toISOString t = s) then Some t else None.

Definition ref_StringToNumber (s : string) : number :=
  if bool_decide (s = "Infinity") then Infinity false
  else if bool_decide (s = "-Infinity") then Infinity true
  else
    match digits_value 0 s with
    | Some z => if (z <=? 2 ^ 53)%Z then Num z else NaN
    | None => NaN
    end.

Definition ref_runtime : JSRuntime :=
  {| Date_parse := ref_Date_parse;
     toISOString := ref_toISOString;
     StringToNumber := ref_StringToNumber |}.

(** ** Data of the concrete runs *)

(** 2024-01-01T00:00:00.000Z, in milliseconds since the epoch. *)
Definition jan1 : Z := 1704067200000.

Definition u1 : option string := Some "u1".

(** [{ "id": "m1", "fromMe": true, "text": "hi" }]. *)
Definition body_hi : MessageBody.t :=
  {| MessageBody.id := JString "m1";
     MessageBody.fromMe := JBool true;
     MessageBody.text := JString "hi" |}.


(** [{ "id": "m2", "text": "bye" }]. *)
Definition body_bye : MessageBody.t :=
  {| MessageBody.id := JString "m2";
     MessageBody.fromMe := JUndefined;
     MessageBody.text := JString "bye" |}.


(** A thread descriptor with the given id, unread count and date, and
    nothing else. *)
Definition descriptor (id unread updatedAt : jsval) : ThreadBody.t :=
  {| ThreadBody.id := id;
     ThreadBody.name := JUndefined;
     ThreadBody.avatarUrl := JUndefined;
     ThreadBody.online := JUndefined;
     ThreadBody.lastMessage := JUndefined;
     ThreadBody.unread := unread;
     ThreadBody.updatedAt := updatedAt;
     ThreadBody.muted := JUndefined;
     ThreadBody.archived := JUndefined |}.

(** ** Vocabulary of the statements *)

(** The message list a tenant holds under a thread id, as an own property;
    empty when there is none. *)
Definition stored_messages (s : server) (userId threadId : string) : list Message.t :=
  default [] (messages (store_of userId s) !! threadId).

(** The thread record a tenant holds under a thread id, as an own property. *)
Definition stored_thread (s : server) (userId threadId : string) : option Thread.t :=
  threads (store_of userId s) !! threadId.


(** Whether [db[userId]] is truthy, so that [getUser] creates nothing. *)
Definition tenant_known (s : server) (userId : string) : bool :=
  negb (falsy (lookup_js (Object_prototype s) (db s) userId)).

(** Nothing truthy has been added to [Object.prototype]. *)
Definition unpolluted (pp : additions) : Prop :=
  preview_added pp = None.

(** The user key and the thread id name no member of [Object.prototype],
    and no inherited value stands in for the thread: the prototype of the
    user's [threads] has not been replaced and [Object.prototype] carries
    no [lastMessage] or [updatedAt]. *)
Definition ordinary (s : server) (userId threadId : string) : Prop :=
  inherited userId = false ∧
  inherited threadId = false ∧
  threads_proto (store_of userId s) = None ∧
  unpolluted (Object_prototype s).

(** The store [ensureThread] leaves for an ordinary thread id: the default
    thread and the empty list are created where there was no own one. *)
Definition vivified `{JSRuntime} (clock : Z) (st : Store) (threadId : string) : Store :=
  {| threads :=
       match threads st !! threadId with
       | Some _ => threads st
       | None => <[threadId := default_thread threadId (toISOString clock)]> (threads st)
       end;
     threads_proto := None;
     messages :=
       match messages st !! threadId with
       | Some _ => messages st
       | None => <[threadId := []]> (messages st)
       end |}.

(** A thread record exists exactly when a message list does. *)
Definition paired_store (st : Store) : Prop :=
  ∀ threadId, is_Some (threads st !! threadId) ↔ is_Some (messages st !! threadId).

Definition paired (s : server) : Prop :=
  ∀ userId st, db s !! userId = Some st → paired_store st.

(** No message list holds two messages with one id. *)
Definition unique_store (st : Store) : Prop :=
  ∀ threadId l, messages st !! threadId = Some l → NoDup (Message.id <$> l).

Definition unique_ids (s : server) : Prop :=
  ∀ userId st, db s !! userId = Some st → unique_store st.

(** [st'] keeps every thread of [st], and each message list of [st] is a
    prefix of the one in [st']. *)
Definition grows_store (st st' : Store) : Prop :=
  (∀ threadId, is_Some (threads st !! threadId) → is_Some (threads st' !! threadId)) ∧
  (∀ threadId l, messages st !! threadId = Some l →
     ∃ l', messages st' !! threadId = Some (l ++ l')).

Definition grows (s s' : server) : Prop :=
  ∀ userId st,
    db s !! userId = Some st →
    ∃ st', db s' !! userId = Some st' ∧ grows_store st st'.

(** Every thread record is stored under its own id. *)
Definition keyed_store (st : Store) : Prop :=
  ∀ threadId th, threads st !! threadId = Some th → Thread.id th = threadId.

(** The user a request is addressed to. *)
Definition user_of (r : request) : string :=
  match r with
  | GET_threads hdr
  | POST_threads _ hdr _
  | GET_messages _ hdr _ _
  | POST_read _ hdr _
  | POST_messages _ _ _ hdr _ _ => userId_of hdr
  end.

(** The thread a request is addressed to, if it is addressed to one. *)
Definition thread_of (r : request) : option string :=
  match r with
  | GET_threads _ => None
  | POST_threads _ _ t =>
      if ToBoolean (ThreadBody.id t) then Some (ToString (ThreadBody.id t)) else None
  | GET_messages _ _ threadId _
  | POST_read _ _ threadId
  | POST_messages _ _ _ _ threadId _ => Some threadId
  end.

(** A request whose thread id names no member of [Object.prototype]. *)
Definition plain (r : request) : Prop :=
  ∀ threadId, thread_of r = Some threadId → inherited threadId = false.

(** An event that is no request for a thread id naming a member of
    [Object.prototype]. *)
Definition plain_event (e : event) : Prop :=
  match e with
  | Request r => plain r
  | TimerFires _ => True
  end.

(** The readings of the clock the append route took for [serverAt], in the
    order of the requests. *)
Definition stamp (e : event) : list Z :=
  match e with
  | Request (POST_messages _ clock _ _ _ _) => [clock]
  | _ => []
  end.

Definition stamps (evs : list event) : list Z :=
  evs ≫= stamp.

(** The message [msg] is one the request [r] builds: an append, stamped
    with the reading the route took. *)
Definition appends `{JSRuntime} (r : request) (msg : Message.t) : Prop :=
  match r with
  | POST_messages _ clock _ _ _ _ => Message.at_ msg = toISOString clock
  | _ => False
  end.

(** What one request can do to the store of its user; the label is the
    message appended, if any.  A thread record is left as it is, created
    under its id, or has fields other than [id] assigned; a message list is
    left as it is, created empty, or given the message at its end, when it
    holds none with that id; a list is created only under an id that names
    no member of [Object.prototype]. *)
Record store_step (o : option Message.t) (st st' : Store) : Prop := {
  step_threads :
    ∀ k, threads st' !! k = threads st !! k ∨
         (∃ th, threads st' !! k = Some th ∧ Thread.id th = k) ∨
         (∃ th th', threads st !! k = Some th ∧ threads st' !! k = Some th' ∧
                    Thread.id th' = Thread.id th);
  step_messages :
    ∀ k, messages st' !! k = messages st !! k ∨
         (messages st !! k = None ∧ messages st' !! k = Some []) ∨
         (∃ msg, o = Some msg ∧
                 find_id (Message.id msg) (default [] (messages st !! k)) = None ∧
                 messages st' !! k = Some (default [] (messages st !! k) ++ [msg]));
  step_lists :
    ∀ k, is_Some (messages st' !! k) → is_Some (messages st !! k) ∨ inherited k = false;
}.

(** Lists are stored only under ids that name no member of
    [Object.prototype]. *)
Definition clean_store (st : Store) : Prop :=
  ∀ k, is_Some (messages st !! k) → inherited k = false.

(** What a request does to the state: it rewrites the store of its user by
    one [store_step], in which only the thread it is addressed to is
    touched, and leaves the stores of the other users alone; prototypes
    are touched only by a request addressed to the thread id [__proto__]. *)
Definition effect_of `{JSRuntime} (r : request) (s s' : server) : Prop :=
  (∃ o, store_step o (store_of (user_of r) s) (store_of (user_of r) s') ∧
        ∀ msg, o = Some msg → appends r msg) ∧
  (∀ k, thread_of r ≠ Some k →
        threads (store_of (user_of r) s') !! k = threads (store_of (user_of r) s) !! k ∧
        messages (store_of (user_of r) s') !! k = messages (store_of (user_of r) s) !! k) ∧
  (∀ u, u ≠ user_of r → db s' !! u = db s !! u) ∧
  (is_Some (db s !! user_of r) → is_Some (db s' !! user_of r)) ∧
  (thread_of r ≠ Some "__proto__" →
   threads_proto (store_of (user_of r) s') = threads_proto (store_of (user_of r) s) ∧
   Object_prototype s' = Object_prototype s) ∧
  (Object_prototype s' = Object_prototype s ∨
   Object_prototype s' = add_unread (Object_prototype s) ∨
   is_Some (messages (store_of (user_of r) s) !! "__proto__")).

(** The time value [new Date(m.at)] of a stored message. *)
Definition at_time `{JSRuntime} (m : Message.t) : option Z :=
  Date_parse (Message.at_ m).

(** The time value [new Date(t.updatedAt)] of a thread. *)
Definition updated_time `{JSRuntime} (th : Thread.t) : option Z :=
  Date_parse (Thread.updatedAt th).

(** A message stamped strictly after [T]. *)
Definition later_than `{JSRuntime} (T : Z) (m : Message.t) : Prop :=
  match at_time m with
  | Some t => (T < t)%Z
  | None => False
  end.

#[global] Instance later_than_dec `{JSRuntime} T m : Decision (later_than T m).
Proof. unfold later_than. destruct (at_time m); apply _. Defined.

(** The [at] stamps of the messages of [l] are the server's print of
    readings taken, in this order, among [S]. *)
Definition stamped_by `{JSRuntime} (S : list Z) (l : list Message.t) : Prop :=
  ∃ cs, Message.at_ <$> l = toISOString <$> cs ∧ cs `sublist_of` S.

Definition stamped_store `{JSRuntime} (S : list Z) (st : Store) : Prop :=
  ∀ threadId l, messages st !! threadId = Some l → stamped_by S l.

(** Thread [a] was updated no earlier than thread [b], both at valid dates. *)
Definition by_recency `{JSRuntime} (a b : Thread.t) : Prop :=
  ∃ ta tb, updated_time a = Some ta ∧ updated_time b = Some tb ∧ (tb ≤ ta)%Z.

(** An unread count that [JSON.stringify] and [JSON.parse] give back as
    it is: not NaN, not infinite, not minus zero. *)
Definition keeps (v : jsval) : Prop :=
  match v with
  | JNumber NaN | JNumber (Infinity _) | JNumber NegZero => False
  | _ => True
  end.

(** A dataset that is written and read back as it is: every unread count
    is kept and no [threads] has a replaced prototype. *)
Definition writable (d : gmap string Store) : Prop :=
  ∀ userId st,
    d !! userId = Some st →
    threads_proto st = None ∧
    ∀ threadId th, threads st !! threadId = Some th → keeps (Thread.unread th).

(** The dataset [d0] the file of [s] holds: the one last written, or the
    empty one when there is no file. *)
Definition on_disk (s : server) (d0 : gmap string Store) : Prop :=
  file s = Some (Doc (JSON_stringify d0)) ∨ (file s = None ∧ d0 = ∅).

(** [st] has the thread records and the message lists of [st0] and,
    possibly, thread records that are still as [ensureThread] made them
    and lists that are still empty. *)
Definition lags_store (st0 st : Store) : Prop :=
  ∀ threadId,
    (threads st0 !! threadId = threads st !! threadId ∨
     (threads st0 !! threadId = None ∧
      ∃ now, threads st !! threadId = Some (default_thread threadId now))) ∧
    (messages st0 !! threadId = messages st !! threadId ∨
     (messages st0 !! threadId = None ∧ messages st !! threadId = Some [])).

(** [d] has the tenants of [d0], each with a store that lags as above. *)
Definition lags (d0 d : gmap string Store) : Prop :=
  ∀ userId,
    match d0 !! userId, d !! userId with
    | Some st0, Some st => lags_store st0 st
    | None, None => True
    | _, _ => False
    end.

(** Every write the timer makes in [evs] succeeds. *)
Definition writes_succeed (evs : list event) : Prop :=
  Forall (λ e, match e with TimerFires w => w = Written | Request _ => True end) evs.

(** ** Process start *)

(** A new process on the file a former one left: [let db = {}],
    [let _saveTimer = null], then [loadDb()]. *)
Definition restart (s : server) : option server :=
  loadDb {| db := ∅; saveTimer := false; file := file s; Object_prototype := pristine |}.

(** A new process: nothing pending, [Object.prototype] as it comes. *)
Definition started (d : gmap string Store) (f : option blob) : server :=
  {| db := d; saveTimer := false; file := f; Object_prototype := pristine |}.

(** ** TMDB PROXY (server-side) *)

Definition TMDB_BASE : string := "https://api.themoviedb.org/3".

(** What the routes read of a thrown [Error]: [message], [name], [code],
    and [String(cause)] when there is a truthy [cause]. *)
Record JsError := {
  e_message : string;
  e_name : string;
  e_code : jsval;
  e_cause : option string;
}.

(** [new Error(message)]. *)
Definition new_Error (message : string) : JsError :=
  {| e_message := message; e_name := "Error"; e_code := JUndefined; e_cause := None |}.

Record Headers := {
  Authorization : string;
  accept : string;
}.

(** [tmdbHeaders()]; the argument is [process.env.TMDB_BEARER]. *)
Definition tmdbHeaders (TMDB_BEARER : option string) : JsError + Headers :=
  match TMDB_BEARER with
  | Some token =>
      if bool_decide (token = "") then inl (new_Error "TMDB_BEARER missing in .env")
      else inr {| Authorization := "Bearer " +:+ token; accept := "application/json" |}
  | None => inl (new_Error "TMDB_BEARER missing in .env")
  end.

(** A [URL] object: the address without its query, and [searchParams]. *)
Record URL := {
  href : string;
  searchParams : list (string * string);
}.

(** [url.searchParams.set(k, v)]: the first pair named [k] takes the value
    and the other pairs named [k] go; without one the pair is appended. *)
Fixpoint searchParams_set (k v : string) (l : list (string * string)) : list (string * string) :=
  match l with
  | [] => [(k, v)]
  | (k', v') :: l' =>
      if bool_decide (k' = k) then (k, v) :: List.filter (λ p, negb (bool_decide (p.1 = k))) l'
      else (k', v') :: searchParams_set k v l'
  end.

(** [v != null]. *)
Definition not_nullish (v : jsval) : bool :=
  match v with
  | JUndefined | JNull => false
  | _ => true
  end.

(** What awaiting [fetch(...)] and then [r.text()] comes to: a status and a
    text, or a thrown error. *)
Inductive outcome :=
  | Returned (status : nat) (text : string)
  | Thrown (e : JsError).

(** [tmdbGet(pathPart, req)]; [fetch] stands for the network, [query] is
    [req.query]. The headers are built, and may throw, before the request
    leaves. *)
Definition tmdbGet (fetch : URL → Headers → outcome) (TMDB_BEARER : option string)
    (pathPart : string) (query : gmap string jsval) : JsError + (nat * string) :=
  let url :=
    foldl (λ url kv,
             if not_nullish kv.2 then
               {| href := href url;
                  searchParams := searchParams_set kv.1 (ToString kv.2) (searchParams url) |}
             else url)
          {| href := TMDB_BASE +:+ pathPart; searchParams := [] |}
          (map_to_list query) in
  match tmdbHeaders TMDB_BEARER with
  | inl e => inl e
  | inr headers =>
      match fetch url headers with
      | Thrown e => inl e
      | Returned status text => inr (status, text)
      end
  end.

(** What a TMDB route sends: [res.status(r.status).send(r.body)], or status
    500 with the fields [error], [name], [code] and [cause]. *)
Inductive tmdb_response :=
  | Sent (status : nat) (body : string)
  | Json500 (error name : string) (code : jsval) (cause : option string).

(** The [try]/[catch] the three TMDB routes share; [String(e?.message || e)]
    of an [Error] without message is its name. *)
Definition tmdb_route (fetch : URL → Headers → outcome) (TMDB_BEARER : option string)
    (pathPart : string) (query : gmap string jsval) : tmdb_response :=
  match tmdbGet fetch TMDB_BEARER pathPart query with
  | inr (status, body) => Sent status body
  | inl e =>
      Json500 (if bool_decide (e_message e = "") then e_name e else e_message e)
              (e_name e) (e_code e) (e_cause e)
  end.

Definition tmdb_popular fetch TMDB_BEARER query := tmdb_route fetch TMDB_BEARER "/movie/popular" query.
Definition tmdb_search fetch TMDB_BEARER query := tmdb_route fetch TMDB_BEARER "/search/movie" query.
Definition tmdb_genres fetch TMDB_BEARER query := tmdb_route fetch TMDB_BEARER "/genre/movie/list" query.

(** The pair [tmdbGet] puts in the address for one entry of the query, if
    it puts one. *)
Definition query_param (kv : string * jsval) : option (string * string) :=
  if not_nullish kv.2 then Some (kv.1, ToString kv.2) else None.

(** What a dataset looks like once written and read back: an unread count
    NaN or infinite has become [null], minus zero has become 0, and the
    prototype of every [threads] is [Object.prototype]. *)
Definition reload_unread (v : jsval) : jsval :=
  match v with
  | JNumber NaN | JNumber (Infinity _) => JNull
  | JNumber NegZero => JNumber (Num 0)
  | _ => v
  end.

Definition reload_thread (th : Thread.t) : Thread.t :=
  {| Thread.id := Thread.id th;
     Thread.name := Thread.name th;
     Thread.avatarUrl := Thread.avatarUrl th;
     Thread.online := Thread.online th;
     Thread.lastMessage := Thread.lastMessage th;
     Thread.unread := reload_unread (Thread.unread th);
     Thread.updatedAt := Thread.updatedAt th;
     Thread.muted := Thread.muted th;
     Thread.archived := Thread.archived th |}.

Definition reload_store (st : Store) : Store :=
  {| threads := reload_thread <$> threads st;
     threads_proto := None;
     messages := messages st |}.

Definition reload_db (d : gmap string Store) : gmap string Store :=
  reload_store <$> d.

(** The record the thread route normalises a descriptor to when
    [Object.prototype] is unpolluted; [now] is the server's date. *)
Definition normalized (now : string) `{JSRuntime} (t : ThreadBody.t) : Thread.t :=
  {| Thread.id := ToString (ThreadBody.id t);
     Thread.name := ToString (coalesce (ThreadBody.name t) (ThreadBody.id t));
     Thread.avatarUrl := ToString (coalesce (ThreadBody.avatarUrl t) (JString ""));
     Thread.online := ToBoolean (coalesce (ThreadBody.online t) (JBool false));
     Thread.lastMessage := ToString (coalesce (ThreadBody.lastMessage t) (JString ""));
     Thread.unread := JNumber (ToNumber (coalesce (ThreadBody.unread t) (JNumber (Num 0))));
     Thread.updatedAt := ToString (coalesce (ThreadBody.updatedAt t) (JString now));
     Thread.muted := ToBoolean (coalesce (ThreadBody.muted t) (JBool false));
     Thread.archived := ToBoolean (coalesce (ThreadBody.archived t) (JBool false)) |}.

(** A descriptor that gives an id and nothing else. *)
Definition bare (t : ThreadBody.t) : Prop :=
  not_nullish (ThreadBody.name t) = false ∧
  not_nullish (ThreadBody.avatarUrl t) = false ∧
  not_nullish (ThreadBody.online t) = false ∧
  not_nullish (ThreadBody.lastMessage t) = false ∧
  not_nullish (ThreadBody.unread t) = false ∧
  not_nullish (ThreadBody.updatedAt t) = false ∧
  not_nullish (ThreadBody.muted t) = false ∧
  not_nullish (ThreadBody.archived t) = false.

(** * Lemmas *)

Section Helpers.
Context `{RT : JSRuntime}.

Lemma scheduleSave_db s : db (scheduleSave s) = db s.
Proof. unfold scheduleSave. by destruct (saveTimer s). Qed.

Lemma scheduleSave_file s : file (scheduleSave s) = file s.
Proof. unfold scheduleSave. by destruct (saveTimer s). Qed.

Lemma scheduleSave_Object_prototype s :
  Object_prototype (scheduleSave s) = Object_prototype s.
Proof. unfold scheduleSave. by destruct (saveTimer s). Qed.

Lemma scheduleSave_armed s : saveTimer (scheduleSave s) = true.
Proof. unfold scheduleSave. by destruct (saveTimer s) eqn:E. Qed.

Lemma scheduleSave_idem s : scheduleSave (scheduleSave s) = scheduleSave s.
Proof. unfold scheduleSave. by destruct (saveTimer s) eqn:E; simpl; rewrite ?E. Qed.

Lemma server_eq s s' :
  db s = db s' → saveTimer s = saveTimer s' → file s = file s' →
  Object_prototype s = Object_prototype s' → s = s'.
Proof. destruct s, s'; simpl; by intros -> -> -> ->. Qed.

Lemma set_store_same userId st s :
  db s !! userId = Some st → set_store userId st s = s.
Proof.
  intros Hst. apply server_eq; simpl; try done. by apply insert_id.
Qed.

Lemma store_of_lookup userId s st :
  db s !! userId = Some st → store_of userId s = st.
Proof. intros Hst. unfold store_of. by rewrite Hst. Qed.

(** *** Lookups *)

Lemma inherited_proto : inherited "__proto__" = true.
Proof. reflexivity. Qed.

Lemma added_unpolluted pp k v :
  unpolluted pp → added pp k = Some v → v = JNumber (Num 0).
Proof.
  unfold unpolluted, added. intros ->. simpl.
  repeat case_bool_decide; try done. by destruct (unread_added pp); intros [= <-].
Qed.

Lemma lookup_js_own {A} pp (o : gmap string A) k x :
  o !! k = Some x → lookup_js pp o k = Own x.
Proof. intros Hx. unfold lookup_js. by rewrite Hx. Qed.

Lemma lookup_js_Own {A} pp (o : gmap string A) k x :
  lookup_js pp o k = Own x ↔ o !! k = Some x.
Proof.
  unfold lookup_js. destruct (o !! k).
  - split; by intros [= ->].
  - split; [|done]. destruct (inherited k); [done|].
    destruct (added pp k) as [v|]; [by destruct (ToBoolean v)|done].
Qed.

Lemma lookup_js_inherited {A} pp (o : gmap string A) k :
  o !! k = None → inherited k = true → lookup_js pp o k = Inherited.
Proof. intros Hx Hk. unfold lookup_js. by rewrite Hx, Hk. Qed.

Lemma falsy_lookup_js {A} pp (o : gmap string A) k :
  falsy (lookup_js pp o k) = true → o !! k = None ∧ inherited k = false.
Proof.
  unfold lookup_js. destruct (o !! k); [done|]. by destruct (inherited k).
Qed.

Lemma truthy_lookup_js {A} pp (o : gmap string A) k :
  falsy (lookup_js pp o k) = false →
  is_Some (o !! k) ∨ lookup_js pp o k = Inherited.
Proof.
  unfold lookup_js. destruct (o !! k); [by left; eexists|].
  destruct (inherited k); [by right|].
  destruct (added pp k) as [v|]; [|done]. destruct (ToBoolean v); [by right|done].
Qed.

Lemma falsy_lookup_js_plain {A} pp (o : gmap string A) k :
  unpolluted pp → inherited k = false →
  falsy (lookup_js pp o k) = bool_decide (o !! k = None).
Proof.
  intros Hpp Hk. unfold lookup_js. destruct (o !! k); [done|]. rewrite Hk.
  destruct (added pp k) as [v|] eqn:E; [|done].
  by rewrite (added_unpolluted _ _ _ Hpp E).
Qed.

Lemma thread_field_inherited k p v :
  thread_field k p = Some v → inherited k = false.
Proof.
  unfold thread_field. repeat case_bool_decide; subst; try done.
Qed.

Lemma added_inherited pp k v : added pp k = Some v → inherited k = false.
Proof.
  unfold added. repeat case_bool_decide; subst; try done.
Qed.

Lemma threads_get_own pp st k th :
  threads st !! k = Some th → threads_get pp st k = Record_ th.
Proof. intros Hth. unfold threads_get. by rewrite Hth. Qed.

Lemma threads_get_Record pp st k th :
  threads_get pp st k = Record_ th ↔ threads st !! k = Some th.
Proof.
  unfold threads_get. destruct (threads st !! k).
  - split; by intros [= ->].
  - split; [|done]. case_bool_decide; [done|].
    destruct (threads_proto st ≫= thread_field k); [done|].
    destruct (inherited k); [done|]. by destruct (added pp k).
Qed.

(** Where [!store.threads[k]] holds there is no own record, and [k] names
    no member of [Object.prototype]. *)
Lemma no_thread_get pp st k :
  no_thread (threads_get pp st k) = true →
  threads st !! k = None ∧ k ≠ "__proto__" ∧ inherited k = false.
Proof.
  unfold threads_get. destruct (threads st !! k); [done|].
  case_bool_decide as Hk; [done|].
  destruct (threads_proto st ≫= thread_field k) as [v|] eqn:E.
  - intros _. split_and!; [done..|].
    destruct (threads_proto st) as [p|]; [|done]. by eapply thread_field_inherited.
  - by destruct (inherited k).
Qed.

Lemma no_thread_get_plain pp st k :
  unpolluted pp → inherited k = false → threads_proto st = None →
  no_thread (threads_get pp st k) = bool_decide (threads st !! k = None).
Proof.
  intros Hpp Hk Hp. unfold threads_get. destruct (threads st !! k); [done|].
  case_bool_decide as Hk'; [by subst|]. rewrite Hp, Hk. simpl.
  destruct (added pp k) as [v|] eqn:E; [|done].
  by rewrite (added_unpolluted _ _ _ Hpp E).
Qed.

(** *** ensureThread *)

(** [ensureThread] in one piece: it never replaces the prototype. *)
Lemma ensureThread_eq clock pp st k :
  ensureThread clock pp st k =
    {| threads :=
         if no_thread (threads_get pp st k)
         then <[k := default_thread k (toISOString clock)]> (threads st)
         else threads st;
       threads_proto := threads_proto st;
       messages :=
         if falsy (lookup_js pp (messages st) k) then <[k := []]> (messages st)
         else messages st |}.
Proof.
  unfold ensureThread. destruct (no_thread (threads_get pp st k)) eqn:E.
  - destruct (no_thread_get _ _ _ E) as (_ & Hk & _).
    unfold threads_set. rewrite bool_decide_eq_false_2 by done. simpl.
    by destruct (falsy _).
  - destruct st. simpl. by destruct (falsy _).
Qed.

Lemma ensureThread_threads_proto clock pp st k :
  threads_proto (ensureThread clock pp st k) = threads_proto st.
Proof. by rewrite ensureThread_eq. Qed.

Lemma ensureThread_threads_ne clock pp st threadId k :
  k ≠ threadId →
  threads (ensureThread clock pp st threadId) !! k = threads st !! k.
Proof.
  intros Hne. rewrite ensureThread_eq. simpl.
  destruct (no_thread _); [|done]. by rewrite lookup_insert_ne.
Qed.

Lemma ensureThread_messages_ne clock pp st threadId k :
  k ≠ threadId →
  messages (ensureThread clock pp st threadId) !! k = messages st !! k.
Proof.
  intros Hne. rewrite ensureThread_eq. simpl.
  destruct (falsy _); [|done]. by rewrite lookup_insert_ne.
Qed.

(** What [ensureThread] leaves under the id it is called for. *)
Lemma ensureThread_thread clock pp st k :
  threads (ensureThread clock pp st k) !! k =
    if no_thread (threads_get pp st k) then Some (default_thread k (toISOString clock))
    else threads st !! k.
Proof.
  rewrite ensureThread_eq. simpl. destruct (no_thread _); [|done].
  by rewrite lookup_insert_eq.
Qed.

Lemma ensureThread_list clock pp st k :
  messages (ensureThread clock pp st k) !! k =
    if falsy (lookup_js pp (messages st) k) then Some [] else messages st !! k.
Proof.
  rewrite ensureThread_eq. simpl. destruct (falsy _); [|done].
  by rewrite lookup_insert_eq.
Qed.

(** An own list is kept, and a list that is created is empty: the own
    list afterwards, if there is one, is the list before. *)
Lemma ensureThread_list_default clock pp st k :
  default [] (messages (ensureThread clock pp st k) !! k) = default [] (messages st !! k).
Proof.
  rewrite ensureThread_list. destruct (falsy _) eqn:E; [|done].
  apply falsy_lookup_js in E as [-> _]. done.
Qed.

Lemma ensureThread_same clock pp st k th l :
  threads st !! k = Some th →
  messages st !! k = Some l →
  ensureThread clock pp st k = st.
Proof.
  intros Hth Hl. rewrite ensureThread_eq.
  rewrite (threads_get_own _ _ _ _ Hth), (lookup_js_own _ _ _ _ Hl). by destruct st.
Qed.

(** After [ensureThread] both lookups are truthy. *)
Lemma ensureThread_thread_truthy clock pp st k :
  no_thread (threads_get pp (ensureThread clock pp st k) k) = false.
Proof.
  destruct (no_thread (threads_get pp st k)) eqn:E.
  - erewrite threads_get_own; [done|]. by rewrite ensureThread_thread, E.
  - rewrite <- E. unfold threads_get.
    by rewrite ensureThread_thread, E, ensureThread_threads_proto.
Qed.

Lemma ensureThread_list_truthy clock pp st k :
  falsy (lookup_js pp (messages (ensureThread clock pp st k)) k) = false.
Proof.
  destruct (falsy (lookup_js pp (messages st) k)) eqn:E.
  - erewrite lookup_js_own; [done|]. by rewrite ensureThread_list, E.
  - rewrite <- E. unfold lookup_js. by rewrite ensureThread_list, E.
Qed.

(** Calling [ensureThread] again for the same id changes nothing, whatever
    the clock reads. *)
Lemma ensureThread_idem clock clock' pp st k :
  ensureThread clock' pp (ensureThread clock pp st k) k = ensureThread clock pp st k.
Proof.
  rewrite (ensureThread_eq clock').
  rewrite ensureThread_thread_truthy, ensureThread_list_truthy.
  by destruct (ensureThread clock pp st k).
Qed.

(** Under ordinary names the lookups are lookups of own keys. *)
Lemma ensureThread_plain clock pp st k :
  unpolluted pp → inherited k = false → threads_proto st = None →
  ensureThread clock pp st k =
    {| threads :=
         match threads st !! k with
         | Some _ => threads st
         | None => <[k := default_thread k (toISOString clock)]> (threads st)
         end;
       threads_proto := None;
       messages :=
         match messages st !! k with
         | Some _ => messages st
         | None => <[k := []]> (messages st)
         end |}.
Proof.
  intros Hpp Hk Hp. rewrite ensureThread_eq.
  rewrite no_thread_get_plain, falsy_lookup_js_plain, Hp by done.
  by destruct (threads st !! k), (messages st !! k).
Qed.

(** At a name inherited from [Object.prototype], [ensureThread] creates
    nothing. *)
Lemma ensureThread_inherited clock pp st k :
  inherited k = true → ensureThread clock pp st k = st.
Proof.
  intros Hk. rewrite ensureThread_eq.
  destruct (no_thread _) eqn:E1.
  { apply no_thread_get in E1 as (_ & _ & ?). congruence. }
  destruct (falsy _) eqn:E2.
  { apply falsy_lookup_js in E2 as (_ & ?). congruence. }
  by destruct st.
Qed.

(** *** Assignments to the thread found *)

Lemma mark_read_idem th : mark_read (mark_read th) = mark_read th.
Proof. done. Qed.

(** Where [store.threads[k]] is truthy the assignments do not throw. The
    own records afterwards are the ones before with [f] applied under [k];
    the lists are untouched. *)
Lemma assign_truthy f g k pp st :
  no_thread (threads_get pp st k) = false →
  ∃ pp' st',
    assign f g k pp st = Some (pp', st') ∧
    threads st' = alter f k (threads st) ∧
    messages st' = messages st ∧
    (is_Some (threads st !! k) ∨ k ≠ "__proto__" →
     pp' = pp ∧ threads_proto st' = threads_proto st) ∧
    (pp' = pp ∨ (pp' = g pp ∧ k = "__proto__")) ∧
    (threads_proto st' = threads_proto st ∨
     ∃ p, threads_proto st = Some p ∧ threads_proto st' = Some (f p) ∧ k = "__proto__").
Proof.
  unfold assign, threads_get. destruct (threads st !! k) as [th|] eqn:Hth.
  { intros _. eexists _, _. split_and!; eauto. }
  assert (alter f k (threads st) = threads st) as Halter by by apply alter_id'.
  case_bool_decide as Hk.
  { intros _. destruct (threads_proto st) as [p|] eqn:Hp; eexists _, _; simpl;
      (split_and!; [done|done|done| |eauto 10..]);
      intros [[? [=]]|?]; done. }
  destruct (threads_proto st ≫= thread_field k) as [v|].
  { intros Hv. simpl in Hv. exists pp, st.
    split_and!; [by destruct v|eauto..]. }
  destruct (inherited k).
  { intros _. exists pp, st. split_and!; eauto. }
  destruct (added pp k) as [v|]; [|done].
  intros Hv. simpl in Hv. exists pp, st.
  split_and!; [by destruct v|eauto..].
Qed.

End Helpers.

(** ** Tenant resolution *)

Section Tenants.
Context `{RT : JSRuntime}.

Lemma tenant_known_own s userId st :
  db s !! userId = Some st → tenant_known s userId = true.
Proof. intros Hst. unfold tenant_known. by rewrite (lookup_js_own _ _ _ _ Hst). Qed.

Lemma tenant_unknown s userId :
  tenant_known s userId = false → db s !! userId = None ∧ inherited userId = false.
Proof.
  unfold tenant_known. intros Hk. apply falsy_lookup_js with (pp := Object_prototype s).
  by destruct (falsy _).
Qed.

Lemma tenant_known_inherited s userId :
  inherited userId = true → tenant_known s userId = true.
Proof.
  intros Hi. destruct (tenant_known s userId) eqn:E; [done|].
  apply tenant_unknown in E as [_ ?]. congruence.
Qed.

Lemma tenant_known_plain s userId :
  unpolluted (Object_prototype s) → inherited userId = false →
  tenant_known s userId = bool_decide (is_Some (db s !! userId)).
Proof.
  intros Hpp Hi. unfold tenant_known. rewrite falsy_lookup_js_plain by done.
  destruct (db s !! userId) as [st|].
  - rewrite bool_decide_eq_false_2 by done.
    by rewrite bool_decide_eq_true_2 by (by eexists).
  - rewrite bool_decide_eq_true_2 by done.
    by rewrite bool_decide_eq_false_2 by (by intros [? ?]).
Qed.

Lemma getUser_fst hdr s : (getUser hdr s).1 = userId_of hdr.
Proof. unfold getUser. by destruct (falsy _). Qed.

Lemma getUser_snd hdr s :
  (getUser hdr s).2 =
    if tenant_known s (userId_of hdr) then s
    else scheduleSave (with_db (<[userId_of hdr := empty_store]> (db s)) s).
Proof. unfold getUser, tenant_known. by destruct (falsy _). Qed.

Lemma getUser_db hdr s :
  db (getUser hdr s).2 =
    if tenant_known s (userId_of hdr) then db s
    else <[userId_of hdr := empty_store]> (db s).
Proof.
  rewrite getUser_snd. destruct (tenant_known _ _); [done|]. by rewrite scheduleSave_db.
Qed.

Lemma getUser_file hdr s : file (getUser hdr s).2 = file s.
Proof.
  rewrite getUser_snd. destruct (tenant_known _ _); [done|]. by rewrite scheduleSave_file.
Qed.

Lemma getUser_Object_prototype hdr s :
  Object_prototype (getUser hdr s).2 = Object_prototype s.
Proof.
  rewrite getUser_snd. destruct (tenant_known _ _); [done|].
  by rewrite scheduleSave_Object_prototype.
Qed.

(** Only a new tenant arms the timer. *)
Lemma getUser_saveTimer hdr s :
  saveTimer (getUser hdr s).2 = saveTimer s || negb (tenant_known s (userId_of hdr)).
Proof.
  rewrite getUser_snd. destruct (tenant_known _ _); simpl.
  - by rewrite orb_false_r.
  - by rewrite scheduleSave_armed, orb_true_r.
Qed.

Lemma getUser_known hdr s :
  tenant_known s (userId_of hdr) = true → (getUser hdr s).2 = s.
Proof. intros Hk. by rewrite getUser_snd, Hk. Qed.

(** After [getUser], [db] has the store the routes work on, unless the
    user key names an inherited value. *)
Lemma getUser_lookup hdr s :
  db (getUser hdr s).2 !! userId_of hdr =
    if tenant_known s (userId_of hdr) then db s !! userId_of hdr else Some empty_store.
Proof.
  rewrite getUser_db. destruct (tenant_known _ _); [done|]. by rewrite lookup_insert_eq.
Qed.

Lemma getUser_lookup_Some hdr s st :
  db (getUser hdr s).2 !! userId_of hdr = Some st →
  st = store_of (userId_of hdr) s ∧
  ∀ st', db (set_store (userId_of hdr) st' (getUser hdr s).2) = <[userId_of hdr := st']> (db s).
Proof.
  rewrite getUser_lookup. simpl. rewrite getUser_db. unfold store_of.
  destruct (tenant_known _ _) eqn:E.
  - intros ->. done.
  - intros [= <-]. apply tenant_unknown in E as [-> _]. split; [done|].
    intros st'. by rewrite insert_insert_eq.
Qed.

Lemma getUser_lookup_None hdr s :
  db (getUser hdr s).2 !! userId_of hdr = None →
  (getUser hdr s).2 = s ∧ db s !! userId_of hdr = None ∧
  tenant_known s (userId_of hdr) = true.
Proof.
  rewrite getUser_lookup, getUser_snd. by destruct (tenant_known _ _).
Qed.

Lemma getUser_lookup_ne hdr s userId :
  userId ≠ userId_of hdr → db (getUser hdr s).2 !! userId = db s !! userId.
Proof.
  intros Hne. rewrite getUser_db. destruct (tenant_known _ _); [done|].
  by rewrite lookup_insert_ne.
Qed.

Lemma store_of_getUser hdr s :
  store_of (userId_of hdr) (getUser hdr s).2 = store_of (userId_of hdr) s.
Proof.
  unfold store_of. rewrite getUser_lookup. destruct (tenant_known _ _) eqn:E; [done|].
  by apply tenant_unknown in E as [-> _].
Qed.

(** Under an ordinary user key the tenant exists after [getUser]. *)
Lemma getUser_lookup_plain hdr s :
  unpolluted (Object_prototype s) → inherited (userId_of hdr) = false →
  db (getUser hdr s).2 !! userId_of hdr = Some (store_of (userId_of hdr) s).
Proof.
  intros Hpp Hi. rewrite getUser_lookup, tenant_known_plain by done. unfold store_of.
  case_bool_decide as E.
  - destruct E as [st ->]. done.
  - destruct (db s !! userId_of hdr); [|done]. destruct E. by eexists.
Qed.

Lemma with_Object_prototype_same s : with_Object_prototype (Object_prototype s) s = s.
Proof. by destruct s. Qed.

End Tenants.

(** Case analysis on [getUser hdr s], naming its two results by what they
    are: [userId_of hdr] and the state [(getUser hdr s).2]. *)
Ltac name_getUser hdr s :=
  let u := fresh "u" in
  let s1 := fresh "s" in
  let E := fresh "E" in
  destruct (getUser hdr s) as [u s1] eqn:E;
  assert (u = userId_of hdr) as -> by (change u with (u, s1).1; by rewrite <- E, getUser_fst);
  assert (s1 = (getUser hdr s).2) as -> by (by rewrite E);
  clear E.

(** ** The routes under ordinary names *)

Section Ordinary.
Context `{RT : JSRuntime}.

Lemma ordinary_getUser hdr threadId s :
  ordinary s (userId_of hdr) threadId → ordinary (getUser hdr s).2 (userId_of hdr) threadId.
Proof.
  intros (? & ? & ? & ?). split_and!; [done..| |].
  - by rewrite store_of_getUser.
  - by rewrite getUser_Object_prototype.
Qed.

Lemma vivified_thread clock st k :
  threads (vivified clock st k) !! k =
    Some (default (default_thread k (toISOString clock)) (threads st !! k)).
Proof.
  simpl. destruct (threads st !! k) eqn:E; simpl; [done|]. by rewrite lookup_insert_eq.
Qed.

Lemma vivified_list clock st k :
  messages (vivified clock st k) !! k = Some (default [] (messages st !! k)).
Proof.
  simpl. destruct (messages st !! k) eqn:E; simpl; [done|]. by rewrite lookup_insert_eq.
Qed.

Lemma vivified_threads_ne clock st k k' :
  k' ≠ k → threads (vivified clock st k) !! k' = threads st !! k'.
Proof.
  intros Hne. simpl. destruct (threads st !! k); [done|]. by rewrite lookup_insert_ne.
Qed.

Lemma vivified_messages_ne clock st k k' :
  k' ≠ k → messages (vivified clock st k) !! k' = messages st !! k'.
Proof.
  intros Hne. simpl. destruct (messages st !! k); [done|]. by rewrite lookup_insert_ne.
Qed.

Lemma ensureThread_ordinary clock hdr threadId s :
  ordinary s (userId_of hdr) threadId →
  ensureThread clock (Object_prototype s) (store_of (userId_of hdr) s) threadId =
    vivified clock (store_of (userId_of hdr) s) threadId.
Proof. intros (? & ? & ? & ?). by apply ensureThread_plain. Qed.

(** The routes on a tenant that exists after [getUser], for a thread id
    that names no member of [Object.prototype], when no inherited value
    stands in for the thread. *)
Lemma getMessages_tenant clock hdr threadId q s st0 :
  db (getUser hdr s).2 !! userId_of hdr = Some st0 →
  inherited threadId = false →
  threads_proto (store_of (userId_of hdr) s) = None →
  unpolluted (Object_prototype s) →
  getMessages clock hdr threadId q s =
    ({| status := 200;
        body :=
          Messages
            match after_of q with
            | Some d =>
                List.filter (λ m, date_gt (Date_parse (Message.at_ m)) d)
                  (stored_messages s (userId_of hdr) threadId)
            | None => stored_messages s (userId_of hdr) threadId
            end |},
     set_store (userId_of hdr) (vivified clock (store_of (userId_of hdr) s) threadId)
       (getUser hdr s).2).
Proof.
  intros E Hk Hp Hpp. unfold getMessages. name_getUser hdr s.
  change (db (getUser hdr s).2 !! userId_of hdr = Some st0) in E. rewrite E.
  apply getUser_lookup_Some in E as [-> _].
  rewrite getUser_Object_prototype.
  rewrite ensureThread_plain by done.
  fold (vivified clock (store_of (userId_of hdr) s) threadId).
  rewrite (lookup_js_own _ _ _ _ (vivified_list _ _ _)).
  unfold stored_messages. by destruct (after_of q).
Qed.

Lemma postRead_tenant clock hdr threadId s st0 :
  db (getUser hdr s).2 !! userId_of hdr = Some st0 →
  inherited threadId = false →
  threads_proto (store_of (userId_of hdr) s) = None →
  unpolluted (Object_prototype s) →
  let ens := vivified clock (store_of (userId_of hdr) s) threadId in
  postRead clock hdr threadId s =
    ({| status := 200; body := Ok |},
     scheduleSave
       (set_store (userId_of hdr)
          {| threads := alter mark_read threadId (threads ens);
             threads_proto := None;
             messages := messages ens |}
          (getUser hdr s).2)).
Proof.
  intros E Hk Hp Hpp ens. unfold postRead. name_getUser hdr s.
  change (db (getUser hdr s).2 !! userId_of hdr = Some st0) in E. rewrite E.
  apply getUser_lookup_Some in E as [-> _].
  rewrite getUser_Object_prototype.
  rewrite ensureThread_plain by done.
  fold (vivified clock (store_of (userId_of hdr) s) threadId).
  subst ens. unfold assign.
  erewrite threads_get_own by apply vivified_thread.
  f_equal. f_equal.
  rewrite <- (getUser_Object_prototype hdr s).
  apply server_eq; done.
Qed.

Lemma postMessage_tenant clock0 clock uuid hdr threadId b s st0 :
  db (getUser hdr s).2 !! userId_of hdr = Some st0 →
  inherited threadId = false →
  threads_proto (store_of (userId_of hdr) s) = None →
  unpolluted (Object_prototype s) →
  let ens := vivified clock0 (store_of (userId_of hdr) s) threadId in
  let l := stored_messages s (userId_of hdr) threadId in
  let msg := build_message clock uuid b in
  postMessage clock0 clock uuid hdr threadId b s =
    match find_id (Message.id msg) l with
    | Some existing =>
        ({| status := 200; body := Ack (Message.id existing) (Message.at_ existing) |},
         set_store (userId_of hdr) ens (getUser hdr s).2)
    | None =>
        ({| status := 201; body := Ack (Message.id msg) (Message.at_ msg) |},
         scheduleSave
           (set_store (userId_of hdr)
              {| threads := alter (preview msg) threadId (threads ens);
                 threads_proto := None;
                 messages := <[threadId := l ++ [msg]]> (messages ens) |}
              (getUser hdr s).2))
    end.
Proof.
  intros E Hk Hp Hpp ens l msg. unfold postMessage. name_getUser hdr s.
  change (db (getUser hdr s).2 !! userId_of hdr = Some st0) in E. rewrite E.
  apply getUser_lookup_Some in E as [-> _].
  rewrite getUser_Object_prototype.
  rewrite ensureThread_plain by done.
  fold (vivified clock0 (store_of (userId_of hdr) s) threadId).
  subst ens l. fold msg.
  rewrite (lookup_js_own _ _ _ _ (vivified_list _ _ _)).
  fold (stored_messages s (userId_of hdr) threadId).
  destruct (find_id (Message.id msg) _); [done|].
  unfold assign.
  erewrite threads_get_own by (unfold messages_set; simpl; apply vivified_thread).
  f_equal. f_equal.
  rewrite <- (getUser_Object_prototype hdr s).
  apply server_eq; done.
Qed.

Lemma build_thread_unpolluted now pp t :
  unpolluted pp → build_thread now pp t = normalized now t.
Proof.
  intros Hpp. unfold build_thread, normalized, get_field, added.
  rewrite Hpp. simpl.
  f_equal.
  - by destruct (ThreadBody.lastMessage t).
  - destruct (ThreadBody.unread t); try done. by destruct (unread_added pp).
  - by destruct (ThreadBody.updatedAt t).
Qed.

Lemma postThread_tenant clock hdr t s st0 :
  db (getUser hdr s).2 !! userId_of hdr = Some st0 →
  ToBoolean (ThreadBody.id t) = true →
  inherited (ToString (ThreadBody.id t)) = false →
  unpolluted (Object_prototype s) →
  let st := store_of (userId_of hdr) s in
  let th := normalized (toISOString clock) t in
  postThread clock hdr t s =
    ({| status := 201; body := Ok |},
     scheduleSave
       (set_store (userId_of hdr)
          {| threads := <[Thread.id th := th]> (threads st);
             threads_proto := threads_proto st;
             messages :=
               match messages st !! Thread.id th with
               | Some _ => messages st
               | None => <[Thread.id th := []]> (messages st)
               end |}
          (getUser hdr s).2)).
Proof.
  intros E Hid Hk Hpp st th. unfold postThread. name_getUser hdr s.
  change (db (getUser hdr s).2 !! userId_of hdr = Some st0) in E.
  rewrite Hid. simpl negb. cbv iota. rewrite E.
  apply getUser_lookup_Some in E as [-> _].
  rewrite getUser_Object_prototype.
  rewrite build_thread_unpolluted by done. fold th. fold st.
  assert (Thread.id th = ToString (ThreadBody.id t)) as Hth by done.
  unfold threads_set. rewrite bool_decide_eq_false_2; [|intros E; by rewrite <- Hth, E in Hk].
  simpl.
  rewrite falsy_lookup_js_plain by (by rewrite ?Hth).
  f_equal. f_equal. f_equal.
  simpl. case_bool_decide as E; [by rewrite E|].
  by destruct (messages st !! ToString (ThreadBody.id t)).
Qed.

(** The same under an ordinary user key, for which the tenant exists
    after [getUser]. *)
Lemma getMessages_ordinary clock hdr threadId q s :
  ordinary s (userId_of hdr) threadId →
  getMessages clock hdr threadId q s =
    ({| status := 200;
        body :=
          Messages
            match after_of q with
            | Some d =>
                List.filter (λ m, date_gt (Date_parse (Message.at_ m)) d)
                  (stored_messages s (userId_of hdr) threadId)
            | None => stored_messages s (userId_of hdr) threadId
            end |},
     set_store (userId_of hdr) (vivified clock (store_of (userId_of hdr) s) threadId)
       (getUser hdr s).2).
Proof.
  intros (Hu & Hk & Hp & Hpp).
  by eapply getMessages_tenant; [apply getUser_lookup_plain|..].
Qed.

Lemma postRead_ordinary clock hdr threadId s :
  ordinary s (userId_of hdr) threadId →
  let ens := vivified clock (store_of (userId_of hdr) s) threadId in
  postRead clock hdr threadId s =
    ({| status := 200; body := Ok |},
     scheduleSave
       (set_store (userId_of hdr)
          {| threads := alter mark_read threadId (threads ens);
             threads_proto := None;
             messages := messages ens |}
          (getUser hdr s).2)).
Proof.
  intros (Hu & Hk & Hp & Hpp).
  by eapply postRead_tenant; [apply getUser_lookup_plain|..].
Qed.

Lemma postMessage_ordinary clock0 clock uuid hdr threadId b s :
  ordinary s (userId_of hdr) threadId →
  let ens := vivified clock0 (store_of (userId_of hdr) s) threadId in
  let l := stored_messages s (userId_of hdr) threadId in
  let msg := build_message clock uuid b in
  postMessage clock0 clock uuid hdr threadId b s =
    match find_id (Message.id msg) l with
    | Some existing =>
        ({| status := 200; body := Ack (Message.id existing) (Message.at_ existing) |},
         set_store (userId_of hdr) ens (getUser hdr s).2)
    | None =>
        ({| status := 201; body := Ack (Message.id msg) (Message.at_ msg) |},
         scheduleSave
           (set_store (userId_of hdr)
              {| threads := alter (preview msg) threadId (threads ens);
                 threads_proto := None;
                 messages := <[threadId := l ++ [msg]]> (messages ens) |}
              (getUser hdr s).2))
    end.
Proof.
  intros (Hu & Hk & Hp & Hpp).
  by eapply postMessage_tenant; [apply getUser_lookup_plain|..].
Qed.

Lemma postThread_ordinary clock hdr t s :
  ToBoolean (ThreadBody.id t) = true →
  inherited (userId_of hdr) = false →
  inherited (ToString (ThreadBody.id t)) = false →
  unpolluted (Object_prototype s) →
  let st := store_of (userId_of hdr) s in
  let th := normalized (toISOString clock) t in
  postThread clock hdr t s =
    ({| status := 201; body := Ok |},
     scheduleSave
       (set_store (userId_of hdr)
          {| threads := <[Thread.id th := th]> (threads st);
             threads_proto := threads_proto st;
             messages :=
               match messages st !! Thread.id th with
               | Some _ => messages st
               | None => <[Thread.id th := []]> (messages st)
               end |}
          (getUser hdr s).2)).
Proof.
  intros Hid Hu Hk Hpp.
  by eapply postThread_tenant; [apply getUser_lookup_plain|..].
Qed.

(** A user key under which [getUser] finds a value that is no store: the
    routes that go on to read [store.threads] of it throw. *)
Lemma postThread_no_tenant clock hdr t s :
  db (getUser hdr s).2 !! userId_of hdr = None →
  postThread clock hdr t s =
    (if ToBoolean (ThreadBody.id t) then crash
     else {| status := 400; body := Error "thread.id required" |}, s).
Proof.
  unfold postThread. name_getUser hdr s. intros E.
  change (db (getUser hdr s).2 !! userId_of hdr = None) in E. rewrite E.
  apply getUser_lookup_None in E as (-> & _). by destruct (ToBoolean _).
Qed.

Lemma getMessages_no_tenant clock hdr threadId q s :
  db (getUser hdr s).2 !! userId_of hdr = None →
  getMessages clock hdr threadId q s = (crash, s).
Proof.
  unfold getMessages. name_getUser hdr s. intros E.
  change (db (getUser hdr s).2 !! userId_of hdr = None) in E. rewrite E.
  by apply getUser_lookup_None in E as (-> & _).
Qed.

Lemma postRead_no_tenant clock hdr threadId s :
  db (getUser hdr s).2 !! userId_of hdr = None →
  postRead clock hdr threadId s = (crash, s).
Proof.
  unfold postRead. name_getUser hdr s. intros E.
  change (db (getUser hdr s).2 !! userId_of hdr = None) in E. rewrite E.
  by apply getUser_lookup_None in E as (-> & _).
Qed.

Lemma postMessage_no_tenant clock0 clock uuid hdr threadId b s :
  db (getUser hdr s).2 !! userId_of hdr = None →
  postMessage clock0 clock uuid hdr threadId b s = (crash, s).
Proof.
  unfold postMessage. name_getUser hdr s. intros E.
  change (db (getUser hdr s).2 !! userId_of hdr = None) in E. rewrite E.
  by apply getUser_lookup_None in E as (-> & _).
Qed.

Lemma getThreads_state hdr s : (getThreads hdr s).2 = (getUser hdr s).2.
Proof. unfold getThreads. by destruct (getUser hdr s). Qed.

End Ordinary.

(** ** What a request does to the state *)

Section Effects.
Context `{RT : JSRuntime}.

Lemma store_step_refl o st : store_step o st st.
Proof. split; intros k; by left. Qed.

(** The three routes that call [ensureThread] then assign fields of the
    thread found, and at most append one message. *)
Lemma store_step_ensure clock pp st k f o st' :
  (∀ th, Thread.id (f th) = Thread.id th) →
  threads st' = alter f k (threads (ensureThread clock pp st k)) →
  (messages st' = messages (ensureThread clock pp st k) ∨
   ∃ msg l, o = Some msg ∧
            messages (ensureThread clock pp st k) !! k = Some l ∧
            find_id (Message.id msg) l = None ∧
            messages st' = <[k := l ++ [msg]]> (messages (ensureThread clock pp st k))) →
  store_step o st st' ∧
  ∀ k', k' ≠ k →
    threads st' !! k' = threads st !! k' ∧ messages st' !! k' = messages st !! k'.
Proof.
  intros Hf Hth Hm.
  assert (∀ k', k' ≠ k → threads st' !! k' = threads st !! k') as Hth_ne.
  { intros k' Hne. by rewrite Hth, lookup_alter_ne, ensureThread_threads_ne. }
  assert (∀ k', k' ≠ k → messages st' !! k' = messages st !! k') as Hm_ne.
  { intros k' Hne. destruct Hm as [->|(msg & l & _ & _ & _ & ->)].
    - by rewrite ensureThread_messages_ne.
    - by rewrite lookup_insert_ne, ensureThread_messages_ne. }
  split; [|by auto]. split; intros k'.
  - destruct (decide (k' = k)) as [->|Hne]; [|left; by apply Hth_ne].
    rewrite Hth, lookup_alter_eq, ensureThread_thread.
    destruct (no_thread _) eqn:E; simpl.
    + right; left. eexists. split; [done|]. by rewrite Hf.
    + destruct (threads st !! k) as [th|] eqn:E'; simpl; [|by left].
      right; right. by exists th, (f th).
  - destruct (decide (k' = k)) as [->|Hne]; [|left; by apply Hm_ne].
    destruct Hm as [->|(msg & l & -> & Hl & Hfind & ->)].
    + rewrite ensureThread_list. destruct (falsy _) eqn:E; [|by left].
      apply falsy_lookup_js in E as [E _]. right; left. done.
    + right; right. exists msg. rewrite lookup_insert_eq.
      rewrite <- (ensureThread_list_default clock pp st k), Hl. done.
  - destruct (decide (k' = k)) as [->|Hne]; [|rewrite Hm_ne by done; intros ?; by left].
    intros Hsome. destruct (falsy (lookup_js pp (messages st) k)) eqn:E.
    + right. by apply falsy_lookup_js in E as [_ ?].
    + apply truthy_lookup_js in E as [?|E]; [by left|].
      assert (messages (ensureThread clock pp st k) !! k = None) as Hnone.
      { rewrite ensureThread_list. destruct (falsy _) eqn:E'; [by rewrite E in E'|].
        unfold lookup_js in E. by destruct (messages st !! k). }
      destruct Hsome as [l' Hl'].
      destruct Hm as [Hm|(msg & l & _ & Hl & _)]; congruence.
Qed.


(** The store the thread route leaves. *)
Lemma store_step_upsert pp th st :
  let st1 := threads_set (Thread.id th) th st in
  let st2 :=
    if falsy (lookup_js pp (messages st1) (Thread.id th))
    then messages_set (Thread.id th) [] st1 else st1 in
  store_step None st st2 ∧
  ∀ k', k' ≠ Thread.id th →
    threads st2 !! k' = threads st !! k' ∧ messages st2 !! k' = messages st !! k'.
Proof.
  intros st1 st2.
  assert (messages st1 = messages st) as Hm1.
  { unfold st1, threads_set. by destruct (_ && _). }
  assert (threads st2 = threads st1) as Ht2.
  { unfold st2. by destruct (falsy _). }
  assert (threads st1 = threads st ∨ threads st1 = <[Thread.id th := th]> (threads st)) as Ht1.
  { unfold st1, threads_set. destruct (_ && _); auto. }
  assert (messages st2 = messages st ∨
          (messages st !! Thread.id th = None ∧
           messages st2 = <[Thread.id th := []]> (messages st))) as Hm2.
  { unfold st2. destruct (falsy _) eqn:E; [|left; by rewrite <- Hm1].
    right. apply falsy_lookup_js in E as [E _]. rewrite Hm1 in E.
    split; [done|]. simpl. by rewrite Hm1. }
  split; [split|]; intros k'.
  - rewrite Ht2. destruct Ht1 as [->| ->]; [by left|].
    destruct (decide (k' = Thread.id th)) as [->|Hne].
    + right; left. exists th. by rewrite lookup_insert_eq.
    + left. by rewrite lookup_insert_ne.
  - destruct Hm2 as [->|[Hnone ->]]; [by left|].
    destruct (decide (k' = Thread.id th)) as [->|Hne].
    + right; left. by rewrite lookup_insert_eq.
    + left. by rewrite lookup_insert_ne.
  - destruct Hm2 as [->|[Hnone Hm2]]; [intros ?; by left|]. rewrite Hm2.
    destruct (decide (k' = Thread.id th)) as [->|Hne];
      [|rewrite lookup_insert_ne by done; intros ?; by left].
    intros _. right. unfold st2 in Hm2. destruct (falsy _) eqn:E.
    + by apply falsy_lookup_js in E as [_ ?].
    + rewrite Hm1 in Hm2. apply (f_equal (λ m, m !! Thread.id th)) in Hm2.
      rewrite lookup_insert_eq in Hm2. congruence.
  - intros Hne. rewrite Ht2. split.
    + destruct Ht1 as [->| ->]; [done|]. by rewrite lookup_insert_ne.
    + destruct Hm2 as [->|[_ ->]]; [done|]. by rewrite lookup_insert_ne.
Qed.

(** What a request leaves of the store of its user when it has stored
    [st'] there. *)
Lemma store_of_set_store userId st' s : store_of userId (set_store userId st' s) = st'.
Proof. unfold store_of. simpl. by rewrite lookup_insert_eq. Qed.

Lemma store_of_scheduleSave userId s : store_of userId (scheduleSave s) = store_of userId s.
Proof. unfold store_of. by rewrite scheduleSave_db. Qed.


Lemma effect_stored r s s' st' o :
  db s' = <[user_of r := st']> (db s) →
  store_step o (store_of (user_of r) s) st' →
  (∀ msg, o = Some msg → appends r msg) →
  (∀ k, thread_of r ≠ Some k →
        threads st' !! k = threads (store_of (user_of r) s) !! k ∧
        messages st' !! k = messages (store_of (user_of r) s) !! k) →
  (thread_of r ≠ Some "__proto__" →
   threads_proto st' = threads_proto (store_of (user_of r) s) ∧
   Object_prototype s' = Object_prototype s) →
  (Object_prototype s' = Object_prototype s ∨
   Object_prototype s' = add_unread (Object_prototype s) ∨
   is_Some (messages (store_of (user_of r) s) !! "__proto__")) →
  effect_of r s s'.
Proof.
  intros Hdb Hstep Ho Hframe Hproto Hpp.
  assert (store_of (user_of r) s' = st') as Hst'.
  { unfold store_of. by rewrite Hdb, lookup_insert_eq. }
  unfold effect_of. rewrite Hst'. split_and!; [by exists o|done| | |done|done].
  - intros u Hne. by rewrite Hdb, lookup_insert_ne.
  - intros _. rewrite Hdb, lookup_insert_eq. by eexists.
Qed.

Lemma effect_getUser r s hdr :
  user_of r = userId_of hdr → effect_of r s (getUser hdr s).2.
Proof.
  intros Hu. unfold effect_of. rewrite Hu, store_of_getUser, getUser_Object_prototype.
  split_and!.
  - exists None. split; [apply store_step_refl|done].
  - done.
  - intros u Hne. by apply getUser_lookup_ne.
  - rewrite getUser_lookup. intros [st Hst]. rewrite (tenant_known_own _ _ _ Hst). by eexists.
  - done.
  - by left.
Qed.

Lemma threads_set_threads_proto k th st :
  k ≠ "__proto__" → threads_proto (threads_set k th st) = threads_proto st.
Proof. intros Hk. unfold threads_set. by rewrite bool_decide_eq_false_2. Qed.

(** Every request rewrites the store of its user by one [store_step], in
    which only the thread it is addressed to is touched, and leaves the
    stores of the other users alone. *)
Lemma handle_db r s : effect_of r s (handle r s).2.
Proof.
  destruct r as [hdr|clock hdr t|clock hdr k q|clock hdr k|clock0 clock uuid hdr k b].
  - (* GET threads *)
    unfold handle, getThreads. name_getUser hdr s. by apply effect_getUser.
  - (* POST threads *)
    unfold handle, postThread. name_getUser hdr s.
    destruct (ToBoolean (ThreadBody.id t)) eqn:Hid; simpl negb; cbv iota.
    2:{ by apply effect_getUser. }
    destruct (db (getUser hdr s).2 !! userId_of hdr) as [st0|] eqn:E.
    2:{ by apply effect_getUser. }
    apply getUser_lookup_Some in E as [-> Hset].
    set (pp := Object_prototype (getUser hdr s).2).
    set (th := build_thread (toISOString clock) pp t).
    destruct (store_step_upsert pp th (store_of (userId_of hdr) s)) as [Hstep Hframe].
    eapply effect_stored with (o := None).
    + unfold snd. rewrite scheduleSave_db. apply Hset.
    + apply Hstep.
    + done.
    + intros k' Hk'. apply Hframe. intros ->. simpl in Hk'. rewrite Hid in Hk'. done.
    + simpl thread_of. rewrite Hid. intros Hk. unfold snd.
      rewrite scheduleSave_Object_prototype. simpl Object_prototype.
      split; [|apply getUser_Object_prototype].
      assert (Thread.id th ≠ "__proto__") as Hne by (intros E; apply Hk; by rewrite <- E).
      destruct (falsy _); simpl; by rewrite threads_set_threads_proto.
    + left. unfold snd. rewrite scheduleSave_Object_prototype. apply getUser_Object_prototype.
  - (* GET messages *)
    unfold handle, getMessages. name_getUser hdr s.
    destruct (db (getUser hdr s).2 !! userId_of hdr) as [st0|] eqn:E.
    2:{ by apply effect_getUser. }
    apply getUser_lookup_Some in E as [-> Hset].
    set (pp := Object_prototype (getUser hdr s).2).
    set (ens := ensureThread clock pp (store_of (userId_of hdr) s) k).
    destruct (store_step_ensure clock pp (store_of (userId_of hdr) s) k (λ th, th) None ens)
      as [Hstep Hframe]; [done|by rewrite alter_id|by left|].
    match goal with
    | |- effect_of _ _ (?x).2 =>
        assert (x.2 = set_store (userId_of hdr) ens (getUser hdr s).2)
          as -> by (by destruct (lookup_js _ _ _), (after_of q))
    end.
    eapply effect_stored with (o := None); [apply Hset|apply Hstep|done| | |].
    + intros k' Hk'. apply Hframe. intros ->. by destruct Hk'.
    + intros _. split; [apply ensureThread_threads_proto|apply getUser_Object_prototype].
    + left. apply getUser_Object_prototype.
  - (* POST read *)
    unfold handle, postRead. name_getUser hdr s.
    destruct (db (getUser hdr s).2 !! userId_of hdr) as [st0|] eqn:E.
    2:{ by apply effect_getUser. }
    apply getUser_lookup_Some in E as [-> Hset].
    set (pp := Object_prototype (getUser hdr s).2).
    set (ens := ensureThread clock pp (store_of (userId_of hdr) s) k).
    destruct (assign_truthy mark_read add_unread k pp ens)
      as (pp' & st' & -> & Hth & Hm & Hne & Hpp & _).
    { apply ensureThread_thread_truthy. }
    destruct (store_step_ensure clock pp (store_of (userId_of hdr) s) k mark_read None st')
      as [Hstep Hframe]; [done|done|by left|].
    assert (pp = Object_prototype s) as Hpp0 by apply getUser_Object_prototype.
    eapply effect_stored with (o := None).
    + unfold snd. rewrite scheduleSave_db. apply Hset.
    + apply Hstep.
    + done.
    + intros k' Hk'. apply Hframe. intros ->. by destruct Hk'.
    + intros Hk. unfold snd. rewrite scheduleSave_Object_prototype. simpl Object_prototype.
      destruct Hne as [-> ->]; [right; intros ->; by apply Hk|].
      split; [apply ensureThread_threads_proto|done].
    + unfold snd. rewrite scheduleSave_Object_prototype. simpl Object_prototype.
      rewrite <- Hpp0. destruct Hpp as [->|[-> _]]; auto.
  - (* POST messages *)
    unfold handle, postMessage. name_getUser hdr s.
    destruct (db (getUser hdr s).2 !! userId_of hdr) as [st0|] eqn:E.
    2:{ by apply effect_getUser. }
    apply getUser_lookup_Some in E as [-> Hset].
    set (pp := Object_prototype (getUser hdr s).2).
    set (ens := ensureThread clock0 pp (store_of (userId_of hdr) s) k).
    set (msg := build_message clock uuid b).
    assert (pp = Object_prototype s) as Hpp0 by apply getUser_Object_prototype.
    destruct (store_step_ensure clock0 pp (store_of (userId_of hdr) s) k (λ th, th) None ens)
      as [Hstep0 Hframe0]; [done|by rewrite alter_id|by left|].
    assert (effect_of (POST_messages clock0 clock uuid hdr k b) s
              (set_store (userId_of hdr) ens (getUser hdr s).2)) as Hquiet.
    { eapply effect_stored with (o := None); [apply Hset|apply Hstep0|done| | |].
      - intros k' Hk'. apply Hframe0. intros ->. by destruct Hk'.
      - intros _. split; [apply ensureThread_threads_proto|done].
      - by left. }
    destruct (lookup_js pp (messages ens) k) as [l| |] eqn:Hl; [|done..].
    apply lookup_js_Own in Hl.
    destruct (find_id (Message.id msg) l) as [existing|] eqn:Hfind; [done|].
    destruct (assign_truthy (preview msg) (add_preview msg) k pp
                (messages_set k (l ++ [msg]) ens))
      as (pp' & st' & -> & Hth & Hm & Hne & Hpp & _).
    { unfold threads_get, messages_set. simpl.
      apply (ensureThread_thread_truthy clock0 pp (store_of (userId_of hdr) s) k). }
    destruct (store_step_ensure clock0 pp (store_of (userId_of hdr) s) k (preview msg)
                (Some msg) st') as [Hstep Hframe]; [done|done| |].
    { right. exists msg, l. split_and!; [done|done|done|]. by rewrite Hm. }
    eapply effect_stored with (o := Some msg).
    + unfold snd. rewrite scheduleSave_db. apply Hset.
    + apply Hstep.
    + by intros ? [= <-].
    + intros k' Hk'. apply Hframe. intros ->. by destruct Hk'.
    + intros Hk. unfold snd. rewrite scheduleSave_Object_prototype. simpl Object_prototype.
      destruct Hne as [-> ->]; [right; intros ->; by apply Hk|].
      split; [apply ensureThread_threads_proto|done].
    + unfold snd. rewrite scheduleSave_Object_prototype. simpl Object_prototype.
      rewrite <- Hpp0. destruct Hpp as [->|[-> ->]]; [by left|].
      right; right. rewrite <- (ensureThread_inherited clock0 pp _ "__proto__") by done.
      by eexists.
Qed.

Lemma handle_file r s : file (handle r s).2 = file s.
Proof.
  destruct r as [hdr|clock hdr t|clock hdr k q|clock hdr k|clock0 clock uuid hdr k b];
    simpl.
  - unfold getThreads. name_getUser hdr s. simpl. apply getUser_file.
  - unfold postThread. name_getUser hdr s.
    destruct (negb _); simpl; [apply getUser_file|].
    destruct (db _ !! _); simpl; rewrite ?scheduleSave_file; apply getUser_file.
  - unfold getMessages. name_getUser hdr s.
    destruct (db _ !! _); simpl; [|apply getUser_file].
    destruct (lookup_js _ _ _), (after_of q); simpl; apply getUser_file.
  - unfold postRead. name_getUser hdr s.
    destruct (db _ !! _); simpl; [|apply getUser_file].
    destruct (assign _ _ _ _ _) as [[pp' st']|]; simpl;
      rewrite ?scheduleSave_file; apply getUser_file.
  - unfold postMessage. name_getUser hdr s.
    destruct (db _ !! _); simpl; [|apply getUser_file].
    destruct (lookup_js _ _ _); simpl; [|apply getUser_file..].
    destruct (find_id _ _); simpl; [apply getUser_file|].
    destruct (assign _ _ _ _ _) as [[pp' st']|]; simpl;
      rewrite ?scheduleSave_file; apply getUser_file.
Qed.

Lemma timerFires_db w s : db (timerFires w s) = db s.
Proof. unfold timerFires. by destruct (saveTimer s). Qed.

Lemma timerFires_Object_prototype w s :
  Object_prototype (timerFires w s) = Object_prototype s.
Proof. unfold timerFires. by destruct (saveTimer s). Qed.

End Effects.

(** ** Invariants of the store *)

Section Invariants.
Context `{RT : JSRuntime}.

Lemma find_id_None id l : find_id id l = None → id ∉ Message.id <$> l.
Proof.
  unfold find_id. intros Hnone [m [-> Hm]]%list_elem_of_fmap.
  apply list_elem_of_In in Hm.
  pose proof (List.find_none _ _ Hnone m Hm) as Hf. simpl in Hf.
  by rewrite bool_decide_eq_false in Hf.
Qed.

Lemma find_id_Some id l m : find_id id l = Some m → m ∈ l ∧ Message.id m = id.
Proof.
  unfold find_id. intros [Hin Hf]%List.find_some.
  rewrite bool_decide_eq_true in Hf. by rewrite list_elem_of_In.
Qed.


Lemma store_step_unique o st st' :
  store_step o st st' → unique_store st → unique_store st'.
Proof.
  intros [_ Hm _] Hu k l Hl.
  destruct (Hm k) as [E|[[_ E]|(msg & _ & Hfind & E)]]; rewrite E in Hl.
  - by eapply Hu.
  - injection Hl as <-. constructor.
  - injection Hl as <-. rewrite fmap_app. apply NoDup_app. split_and!.
    + destruct (messages st !! k) eqn:E'; simpl; [by eapply Hu|constructor].
    + intros i Hi Hi'. simpl in Hi'. apply list_elem_of_singleton in Hi' as ->.
      by apply find_id_None in Hfind.
    + simpl. apply NoDup_singleton.
Qed.

Lemma store_step_keyed o st st' :
  store_step o st st' → keyed_store st → keyed_store st'.
Proof.
  intros [Ht _ _] Hk k th Hth.
  destruct (Ht k) as [E|[(th' & E & Hid)|(th0 & th' & E0 & E & Hid)]]; rewrite E in Hth.
  - by apply Hk.
  - by injection Hth as <-.
  - injection Hth as <-. rewrite Hid. by apply Hk.
Qed.

Lemma store_step_grows o st st' : store_step o st st' → grows_store st st'.
Proof.
  intros [Ht Hm _]. split.
  - intros k Hk. destruct (Ht k) as [E|[(th' & E & _)|(th0 & th' & _ & E & _)]];
      rewrite E; [done|by eexists..].
  - intros k l Hl. destruct (Hm k) as [E|[[E' _]|(msg & _ & _ & E)]].
    + exists []. by rewrite app_nil_r, E.
    + congruence.
    + exists [msg]. by rewrite E, Hl.
Qed.

Lemma store_step_clean o st st' :
  store_step o st st' → clean_store st → clean_store st'.
Proof.
  intros [_ _ Hl] Hc k Hk. destruct (Hl k Hk) as [?|?]; [by apply Hc|done].
Qed.

Lemma grows_store_refl st : grows_store st st.
Proof. split; [done|]. intros k l Hl. exists []. by rewrite app_nil_r. Qed.

Lemma grows_store_trans st1 st2 st3 :
  grows_store st1 st2 → grows_store st2 st3 → grows_store st1 st3.
Proof.
  intros [Ht1 Hm1] [Ht2 Hm2]. split; [by eauto|].
  intros k l Hl. destruct (Hm1 k l Hl) as [l1 Hl1].
  destruct (Hm2 k _ Hl1) as [l2 Hl2]. exists (l1 ++ l2). by rewrite app_assoc.
Qed.

Lemma unique_empty_store : unique_store empty_store.
Proof. intros k l. simpl. by rewrite lookup_empty. Qed.

Lemma keyed_empty_store : keyed_store empty_store.
Proof. intros k l. simpl. by rewrite lookup_empty. Qed.

Lemma clean_empty_store : clean_store empty_store.
Proof. intros k. simpl. rewrite lookup_empty. by intros [? ?]. Qed.

(** Lifting a property of stores through one request. *)
Lemma handle_lift (P : Store → Prop) r s :
  P empty_store →
  (∀ o st st', store_step o st st' → P st → P st') →
  (∀ userId st, db s !! userId = Some st → P st) →
  ∀ userId st, db (handle r s).2 !! userId = Some st → P st.
Proof.
  intros Hempty Hstep Hs userId st Hst.
  destruct (handle_db r s) as ((o & Hst' & _) & _ & Hne & _).
  destruct (decide (userId = user_of r)) as [->|Hu].
  - rewrite <- (store_of_lookup _ _ _ Hst). apply (Hstep _ _ _ Hst').
    unfold store_of. destruct (db s !! user_of r) eqn:E; simpl; [by eapply Hs|done].
  - rewrite Hne in Hst by done. by eapply Hs.
Qed.

Lemma step_lift (P : Store → Prop) s e :
  P empty_store →
  (∀ o st st', store_step o st st' → P st → P st') →
  (∀ userId st, db s !! userId = Some st → P st) →
  ∀ userId st, db (step s e) !! userId = Some st → P st.
Proof.
  intros Hempty Hstep Hs. destruct e as [r|w]; simpl.
  - by apply handle_lift.
  - by rewrite timerFires_db.
Qed.

Lemma run_snoc s evs e : run s (evs ++ [e]) = step (run s evs) e.
Proof. unfold run. by rewrite foldl_app. Qed.

Lemma run_app s evs evs' : run s (evs ++ evs') = run (run s evs) evs'.
Proof. unfold run. by rewrite foldl_app. Qed.

Lemma run_lift (P : Store → Prop) s evs :
  P empty_store →
  (∀ o st st', store_step o st st' → P st → P st') →
  (∀ userId st, db s !! userId = Some st → P st) →
  ∀ userId st, db (run s evs) !! userId = Some st → P st.
Proof.
  intros Hempty Hstep Hs. induction evs as [|e evs IH] using rev_ind; [done|].
  rewrite run_snoc. by apply step_lift.
Qed.

Lemma step_unique s e : unique_ids s → unique_ids (step s e).
Proof.
  intros Hu userId st Hst.
  by eapply (step_lift unique_store s e); eauto using unique_empty_store, store_step_unique.
Qed.

Lemma run_unique s evs : unique_ids s → unique_ids (run s evs).
Proof.
  intros Hu userId st Hst.
  by eapply (run_lift unique_store s evs); eauto using unique_empty_store, store_step_unique.
Qed.

Lemma step_grows s e : grows s (step s e).
Proof.
  intros userId st Hst. destruct e as [r|w]; simpl.
  - destruct (handle_db r s) as ((o & Hst' & _) & _ & Hne & Hsome & _).
    destruct (decide (userId = user_of r)) as [->|Hu].
    + destruct Hsome as [st' Hst'']; [by eexists|]. exists st'. split; [done|].
      rewrite (store_of_lookup _ _ _ Hst), (store_of_lookup _ _ _ Hst'') in Hst'.
      by eapply store_step_grows.
    + exists st. rewrite Hne by done. split; [done|]. apply grows_store_refl.
  - rewrite timerFires_db. exists st. split; [done|]. apply grows_store_refl.
Qed.

Lemma grows_refl s : grows s s.
Proof. intros userId st Hst. exists st. split; [done|]. apply grows_store_refl. Qed.

Lemma grows_trans s1 s2 s3 : grows s1 s2 → grows s2 s3 → grows s1 s3.
Proof.
  intros H12 H23 userId st Hst.
  destruct (H12 _ _ Hst) as (st2 & Hst2 & Hg2).
  destruct (H23 _ _ Hst2) as (st3 & Hst3 & Hg3).
  exists st3. split; [done|]. by eapply grows_store_trans.
Qed.

Lemma run_grows s evs : grows s (run s evs).
Proof.
  induction evs as [|e evs IH] using rev_ind; [apply grows_refl|].
  rewrite run_snoc. eapply grows_trans; [done|apply step_grows].
Qed.

Lemma init_unique : unique_ids init.
Proof. intros userId st. simpl. by rewrite lookup_empty. Qed.

(** In a state reached from the empty dataset no list is stored under a
    name inherited from [Object.prototype], and [Object.prototype] has
    gained nothing truthy. *)
Lemma step_unpolluted s e :
  (∀ userId st, db s !! userId = Some st → clean_store st) →
  unpolluted (Object_prototype s) →
  unpolluted (Object_prototype (step s e)).
Proof.
  intros Hc Hpp. destruct e as [r|w]; simpl; [|by rewrite timerFires_Object_prototype].
  destruct (handle_db r s) as (_ & _ & _ & _ & _ & [->|[->|Hl]]); [done|done|].
  assert (clean_store (store_of (user_of r) s)) as Hcs.
  { unfold store_of. destruct (db s !! user_of r) eqn:E; simpl;
      [by eapply Hc|apply clean_empty_store]. }
  by apply Hcs in Hl.
Qed.

Lemma run_clean evs :
  (∀ userId st, db (run init evs) !! userId = Some st → clean_store st) ∧
  unpolluted (Object_prototype (run init evs)).
Proof.
  induction evs as [|e evs [IH1 IH2]] using rev_ind.
  - split; [|done]. intros userId st. simpl. by rewrite lookup_empty.
  - rewrite run_snoc. split.
    + intros userId st Hst.
      by eapply (step_lift clean_store (run init evs) e);
        eauto using clean_empty_store, store_step_clean.
    + by apply step_unpolluted.
Qed.

(** *** The stamps of stored messages *)

Lemma stamped_by_mono S S' l : stamped_by S l → stamped_by (S ++ S') l.
Proof. intros (cs & Hcs & Hsub). exists cs. split; [done|]. by apply sublist_inserts_r. Qed.

Lemma step_stamped S s e :
  (∀ userId st, db s !! userId = Some st → stamped_store S st) →
  ∀ userId st, db (step s e) !! userId = Some st → stamped_store (S ++ stamp e) st.
Proof.
  intros Hs userId st Hst. destruct e as [r|w]; simpl in *.
  2:{ rewrite timerFires_db in Hst. intros k l Hl. apply stamped_by_mono. by eapply Hs. }
  destruct (handle_db r s) as ((o & [_ Hm _] & Ho) & _ & Hne & _).
  destruct (decide (userId = user_of r)) as [->|Hu].
  2:{ rewrite Hne in Hst by done. intros k l Hl. apply stamped_by_mono. by eapply Hs. }
  rewrite (store_of_lookup _ _ _ Hst) in Hm.
  assert (stamped_store S (store_of (user_of r) s)) as Hold.
  { unfold store_of. destruct (db s !! user_of r) eqn:E; simpl; [by eapply Hs|].
    intros k l. simpl. by rewrite lookup_empty. }
  intros k l Hl. destruct (Hm k) as [E|[[_ E]|(msg & -> & _ & E)]]; rewrite E in Hl.
  - apply stamped_by_mono. by eapply Hold.
  - injection Hl as <-. exists []. split; [done|]. apply sublist_nil_l.
  - injection Hl as <-.
    assert (stamped_by S (default [] (messages (store_of (user_of r) s) !! k)))
      as (cs & Hcs & Hsub).
    { destruct (messages (store_of (user_of r) s) !! k) eqn:E'; simpl; [by eapply Hold|].
      exists []. split; [done|]. apply sublist_nil_l. }
    specialize (Ho msg eq_refl).
    destruct r as [| | | |clock0 clock uuid hdr k' b]; try done. simpl in Ho.
    exists (cs ++ [clock]). split.
    + rewrite !fmap_app, Hcs. simpl. by rewrite Ho.
    + by apply sublist_app.
Qed.

Lemma run_stamped evs userId st :
  db (run init evs) !! userId = Some st → stamped_store (stamps evs) st.
Proof.
  revert userId st. induction evs as [|e evs IH] using rev_ind.
  - intros userId st. simpl. by rewrite lookup_empty.
  - intros userId st. rewrite run_snoc. unfold stamps. rewrite bind_app. simpl.
    rewrite app_nil_r. by apply step_stamped.
Qed.

End Invariants.

(** ** Appending a message *)

Section Append.
Context `{RT : JSRuntime}.




Lemma stored_thread_tenant s userId threadId th :
  stored_thread s userId threadId = Some th →
  ∃ st, db s !! userId = Some st ∧ threads st !! threadId = Some th.
Proof.
  unfold stored_thread, store_of. destruct (db s !! userId) as [st|]; simpl.
  - intros Hth. by exists st.
  - by rewrite lookup_empty.
Qed.


(** The creating branch under ordinary names: status 201, the message goes
    to the end of the list, the thread record gets the preview and a save
    is scheduled. *)
Lemma postMessage_created clock0 clock uuid hdr threadId b s :
  let userId := userId_of hdr in
  let msg := build_message clock uuid b in
  ordinary s userId threadId →
  find_id (Message.id msg) (stored_messages s userId threadId) = None →
  ∃ st',
    postMessage clock0 clock uuid hdr threadId b s =
      ({| status := 201; body := Ack (Message.id msg) (toISOString clock) |},
       scheduleSave (set_store userId st' (getUser hdr s).2)) ∧
    db (postMessage clock0 clock uuid hdr threadId b s).2 = <[userId := st']> (db s) ∧
    threads_proto st' = None ∧
    messages st' !! threadId = Some (stored_messages s userId threadId ++ [msg]) ∧
    threads st' !! threadId =
      Some (preview msg (default (default_thread threadId (toISOString clock0))
                           (stored_thread s userId threadId))) ∧
    ∀ k, k ≠ threadId →
         threads st' !! k = threads (store_of userId s) !! k ∧
         messages st' !! k = messages (store_of userId s) !! k.
Proof.
  intros userId msg Hord Hfind.
  rewrite (postMessage_ordinary _ _ _ _ _ _ _ Hord). fold msg. fold userId. rewrite Hfind.
  eexists. split; [reflexivity|]. split_and!.
  - unfold snd. rewrite scheduleSave_db.
    destruct Hord as (Hu & _ & _ & Hpp).
    pose proof (getUser_lookup_plain hdr s Hpp Hu) as E.
    by apply getUser_lookup_Some in E as [_ ->].
  - done.
  - cbn [messages]. by rewrite lookup_insert_eq.
  - cbn [threads]. by rewrite lookup_alter_eq, vivified_thread.
  - intros k Hk. cbn [threads messages].
    by rewrite lookup_alter_ne, lookup_insert_ne, vivified_threads_ne, vivified_messages_ne.
Qed.






End Append.

(** * The properties of the specification *)

Section Idempotent_append.
Context `{RT : JSRuntime}.


End Idempotent_append.

Section Reads_and_validation.
Context `{RT : JSRuntime}.

Lemma getUser_timer hdr s :
  saveTimer (getUser hdr s).2 =
    (if tenant_known s (userId_of hdr) then saveTimer s else true).
Proof.
  rewrite getUser_snd. destruct (tenant_known _ _); [done|]. apply scheduleSave_armed.
Qed.

(** After [getUser] the store of every user holds what it held. *)
Lemma getUser_store_of hdr s userId :
  store_of userId (getUser hdr s).2 = store_of userId s.
Proof.
  destruct (decide (userId = userId_of hdr)) as [->|Hne]; [apply store_of_getUser|].
  unfold store_of. by rewrite getUser_lookup_ne.
Qed.

Lemma getMessages_state clock hdr threadId q s st0 :
  db (getUser hdr s).2 !! userId_of hdr = Some st0 →
  (getMessages clock hdr threadId q s).2 =
    set_store (userId_of hdr)
      (ensureThread clock (Object_prototype s) (store_of (userId_of hdr) s) threadId)
      (getUser hdr s).2.
Proof.
  unfold getMessages. name_getUser hdr s. intros Hst.
  change (db (getUser hdr s).2 !! userId_of hdr = Some st0) in Hst. rewrite Hst.
  apply getUser_lookup_Some in Hst as [-> _]. rewrite getUser_Object_prototype.
  by destruct (lookup_js _ _ _), (after_of q).
Qed.

(** The answer of the messages route for an ordinary user key and thread
    id: the stored list, filtered when there is a cursor. *)
Lemma getMessages_response clock hdr threadId q s :
  inherited (userId_of hdr) = false →
  inherited threadId = false →
  unpolluted (Object_prototype s) →
  (getMessages clock hdr threadId q s).1 =
    {| status := 200;
       body := Messages
         match after_of q with
         | Some d =>
             List.filter (λ m, date_gt (Date_parse (Message.at_ m)) d)
               (stored_messages s (userId_of hdr) threadId)
         | None => stored_messages s (userId_of hdr) threadId
         end |}.
Proof.
  intros Hu Hk Hpp. unfold getMessages. name_getUser hdr s.
  rewrite getUser_lookup_plain, getUser_Object_prototype by done.
  erewrite lookup_js_own.
  2:{ rewrite ensureThread_list, falsy_lookup_js_plain by done.
      instantiate (1 := stored_messages s (userId_of hdr) threadId). unfold stored_messages.
      case_bool_decide as E; [by rewrite E|].
      by destruct (messages (store_of (userId_of hdr) s) !! threadId). }
  by destruct (after_of q).
Qed.

(** Its answer for a thread id that names a member of [Object.prototype],
    when the tenant has no list of its own under that name: what is found
    is no list. *)
Lemma getMessages_response_inherited clock hdr threadId q s :
  inherited (userId_of hdr) = false →
  unpolluted (Object_prototype s) →
  inherited threadId = true →
  messages (store_of (userId_of hdr) s) !! threadId = None →
  (getMessages clock hdr threadId q s).1 =
    match after_of q with
    | Some _ => crash
    | None => {| status := 200; body := Other |}
    end.
Proof.
  intros Hu Hpp Hk Hl. unfold getMessages. name_getUser hdr s.
  rewrite getUser_lookup_plain, getUser_Object_prototype by done.
  rewrite ensureThread_inherited by done.
  rewrite lookup_js_inherited by done. by destruct (after_of q).
Qed.

(** C2, as the code has it. Reading the messages of a thread never
    touches the file, and it schedules a save exactly when [getUser] finds
    no tenant and creates one.  Under an ordinary user key and thread id
    the dataset afterwards is the dataset before with the tenant created
    when it was unknown, and in it the default thread and the empty list
    created when there was none: vivifying a thread of a known tenant
    schedules no save.  When the thread and its list exist, the state
    returned is the state given. *)
Theorem listMessages_effect clock hdr threadId q s :
  let userId := userId_of hdr in
  let s' := (getMessages clock hdr threadId q s).2 in
  file s' = file s ∧
  saveTimer s' = (if tenant_known s userId then saveTimer s else true) ∧
  (ordinary s userId threadId →
   tenant_known s userId = bool_decide (is_Some (db s !! userId)) ∧
   db s' = <[userId := vivified clock (store_of userId s) threadId]> (db s)) ∧
  (is_Some (stored_thread s userId threadId) →
   is_Some (messages (store_of userId s) !! threadId) →
   s' = s).
Proof.
  intros userId s'. unfold s'.
  destruct (db (getUser hdr s).2 !! userId_of hdr) as [st0|] eqn:E.
  - rewrite (getMessages_state _ _ _ _ _ _ E). split_and!.
    + simpl. apply getUser_file.
    + simpl. apply getUser_timer.
    + intros Hord. split; [destruct Hord as (? & _ & _ & ?); by apply tenant_known_plain|].
      rewrite (ensureThread_ordinary _ _ _ _ Hord).
      by apply getUser_lookup_Some in E as [_ ->].
    + intros [th Hth] [l Hl].
      destruct (stored_thread_tenant _ _ _ _ Hth) as (st & Hst & Hth').
      rewrite (getUser_known hdr s) by by eapply tenant_known_own.
      unfold userId in *. rewrite (store_of_lookup _ _ _ Hst) in *.
      rewrite (ensureThread_same _ _ _ _ _ _ Hth' Hl). by apply set_store_same.
  - rewrite (getMessages_no_tenant _ _ _ _ _ E).
    apply getUser_lookup_None in E as (_ & Hnone & Hk). fold userId in Hnone, Hk.
    rewrite Hk. split_and!; try done.
    intros (Hu & _ & _ & Hpp). rewrite tenant_known_plain in Hk by done.
    rewrite Hnone in Hk. by apply bool_decide_eq_true in Hk as [? ?].
Qed.

Lemma tenant_known_false s userId :
  db s !! userId = None → inherited userId = false → unpolluted (Object_prototype s) →
  tenant_known s userId = false.
Proof.
  intros Hnone Hu Hpp. rewrite tenant_known_plain, Hnone by done.
  apply bool_decide_eq_false_2. by intros [? ?].
Qed.

(** What [getUser] alone does to the state. *)
Lemma getUser_effect hdr s :
  let userId := userId_of hdr in
  let s' := (getUser hdr s).2 in
  db s' = (if tenant_known s userId then db s else <[userId := empty_store]> (db s)) ∧
  file s' = file s ∧
  saveTimer s' = (if tenant_known s userId then saveTimer s else true) ∧
  (tenant_known s userId = true → s' = s) ∧
  (is_Some (db s !! userId) → tenant_known s userId = true) ∧
  (db s !! userId = None → inherited userId = false → unpolluted (Object_prototype s) →
   tenant_known s userId = false) ∧
  (∀ u k, stored_thread s' u k = stored_thread s u k ∧
          stored_messages s' u k = stored_messages s u k).
Proof.
  intros userId s'. unfold s'. split_and!.
  - apply getUser_db.
  - apply getUser_file.
  - apply getUser_timer.
  - apply getUser_known.
  - intros [st Hst]. by eapply tenant_known_own.
  - apply tenant_known_false.
  - intros u k. unfold stored_thread, stored_messages. by rewrite getUser_store_of.
Qed.

(** C4, as the code has it. Listing threads always answers 200 and never
    creates or changes a thread or a message.  When [db[userId]] is
    truthy, as it is for a tenant that exists, the state returned is the
    state given.  Otherwise, as for an ordinary user key that [db] does
    not have, an empty tenant is added under the key and a save is
    scheduled. *)
Theorem listThreads_effect hdr s :
  let userId := userId_of hdr in
  let res := getThreads hdr s in
  status res.1 = 200 ∧
  db res.2 = (if tenant_known s userId then db s else <[userId := empty_store]> (db s)) ∧
  file res.2 = file s ∧
  saveTimer res.2 = (if tenant_known s userId then saveTimer s else true) ∧
  (tenant_known s userId = true → res.2 = s) ∧
  (is_Some (db s !! userId) → tenant_known s userId = true) ∧
  (db s !! userId = None → inherited userId = false → unpolluted (Object_prototype s) →
   tenant_known s userId = false) ∧
  (∀ u k, stored_thread res.2 u k = stored_thread s u k ∧
          stored_messages res.2 u k = stored_messages s u k).
Proof.
  intros userId res. unfold res, getThreads. name_getUser hdr s.
  split; [done|]. apply getUser_effect.
Qed.

(** C5, as the code has it. A thread descriptor whose id is falsy (missing,
    empty, null, 0 or false) is refused with status 400 and no thread or
    message is created or changed.  When [db[userId]] is truthy, as it is
    for a tenant that exists, the state returned is the state given.
    Otherwise, as for an ordinary user key that [db] does not have,
    [getUser], which runs before the check, adds an empty tenant under
    the key and schedules a save. *)
Theorem upsertThread_validation clock hdr t s :
  ToBoolean (ThreadBody.id t) = false →
  let userId := userId_of hdr in
  let res := postThread clock hdr t s in
  res.1 = {| status := 400; body := Error "thread.id required" |} ∧
  db res.2 = (if tenant_known s userId then db s else <[userId := empty_store]> (db s)) ∧
  file res.2 = file s ∧
  saveTimer res.2 = (if tenant_known s userId then saveTimer s else true) ∧
  (tenant_known s userId = true → res.2 = s) ∧
  (is_Some (db s !! userId) → tenant_known s userId = true) ∧
  (db s !! userId = None → inherited userId = false → unpolluted (Object_prototype s) →
   tenant_known s userId = false) ∧
  (∀ u k, stored_thread res.2 u k = stored_thread s u k ∧
          stored_messages res.2 u k = stored_messages s u k).
Proof.
  intros Hid userId res. unfold res, postThread. name_getUser hdr s.
  rewrite Hid. simpl negb. cbv iota. split; [done|]. apply getUser_effect.
Qed.

Lemma filter_later_than T l :
  List.filter (λ m, date_gt (Date_parse (Message.at_ m)) (Some T)) l =
  filter (later_than T) l.
Proof.
  induction l as [|m l IH]; [done|]. rewrite filter_cons. simpl. rewrite IH.
  destruct (decide (later_than T m)) as [Hm|Hm];
    unfold later_than, at_time in Hm; unfold date_gt;
    destruct (Date_parse (Message.at_ m)) as [t|]; try done.
  - by rewrite (proj2 (Z.ltb_lt T t) Hm).
  - by rewrite (proj2 (Z.ltb_ge T t)) by lia.
Qed.

(** C3. Let the user key be ordinary.  For an ordinary thread id the
    route does what the claim says: with [after] a time stamp [T] it
    answers with exactly the stored messages stamped strictly after [T],
    in stored order (the empty list when none is later, the whole list
    when all are), and without [after] with the whole list.  For a thread
    id that names a member of [Object.prototype] it does not: the value
    inherited under that name is taken for the list, so that with a cursor
    the route throws and the request is answered 500, and without one the
    answer is no list. *)
Theorem listMessages_after clock hdr threadId s :
  let userId := userId_of hdr in
  let msgs := stored_messages s userId threadId in
  inherited userId = false →
  unpolluted (Object_prototype s) →
  (inherited threadId = false →
   (∀ a T, a ≠ "" → Date_parse a = Some T →
      (getMessages clock hdr threadId (Some a) s).1 =
        {| status := 200; body := Messages (filter (later_than T) msgs) |} ∧
      filter (later_than T) msgs `sublist_of` msgs ∧
      (∀ m, m ∈ filter (later_than T) msgs ↔ m ∈ msgs ∧ later_than T m) ∧
      (Forall (λ m, ¬ later_than T m) msgs → filter (later_than T) msgs = []) ∧
      (Forall (later_than T) msgs → filter (later_than T) msgs = msgs)) ∧
   (getMessages clock hdr threadId None s).1 = {| status := 200; body := Messages msgs |}) ∧
  (inherited threadId = true →
   messages (store_of userId s) !! threadId = None →
   (∀ a T, a ≠ "" → Date_parse a = Some T →
      (getMessages clock hdr threadId (Some a) s).1 = {| status := 500; body := Uncaught |}) ∧
   (getMessages clock hdr threadId None s).1 = {| status := 200; body := Other |}).
Proof.
  intros userId msgs Hu Hpp. split.
  - intros Hk. split.
    + intros a T Ha HT. split_and!.
      * rewrite getMessages_response by done. unfold after_of.
        rewrite bool_decide_eq_false_2 by done. rewrite HT.
        by rewrite filter_later_than.
      * apply sublist_filter.
      * intros m. rewrite list_elem_of_filter. tauto.
      * intros Hall. induction Hall as [|m l Hm Hl IH]; [done|].
        by rewrite filter_cons_False.
      * intros Hall. induction Hall as [|m l Hm Hl IH]; [done|].
        rewrite filter_cons_True by done. by f_equal.
    + by rewrite getMessages_response.
  - intros Hk Hl. split.
    + intros a T Ha HT. rewrite getMessages_response_inherited by done.
      unfold after_of. by rewrite bool_decide_eq_false_2.
    + by rewrite getMessages_response_inherited.
Qed.

(** C10. Let the user key be ordinary.  For an ordinary thread id the
    route does what the claim says: a non-empty [after] that is not a
    valid date gives the empty list, whatever the thread holds, and an
    empty [after] counts as absent and gives the whole list.  For a thread
    id that names a member of [Object.prototype] it does not: with the
    invalid date the route throws and the request is answered 500, and
    with the empty [after] the answer is no list. *)
Theorem listMessages_invalid_after clock hdr threadId s :
  let userId := userId_of hdr in
  inherited userId = false →
  unpolluted (Object_prototype s) →
  (inherited threadId = false →
   (∀ a, a ≠ "" → Date_parse a = None →
      (getMessages clock hdr threadId (Some a) s).1 =
        {| status := 200; body := Messages [] |}) ∧
   (getMessages clock hdr threadId (Some "") s).1 =
     {| status := 200; body := Messages (stored_messages s userId threadId) |}) ∧
  (inherited threadId = true →
   messages (store_of userId s) !! threadId = None →
   (∀ a, a ≠ "" → Date_parse a = None →
      (getMessages clock hdr threadId (Some a) s).1 = {| status := 500; body := Uncaught |}) ∧
   (getMessages clock hdr threadId (Some "") s).1 = {| status := 200; body := Other |}).
Proof.
  intros userId Hu Hpp. split.
  - intros Hk. split.
    + intros a Ha Hbad. rewrite getMessages_response by done. unfold after_of.
      rewrite bool_decide_eq_false_2 by done. rewrite Hbad. do 2 f_equal.
      induction (stored_messages s (userId_of hdr) threadId) as [|m l IH]; [done|].
      simpl. unfold date_gt at 1. by destruct (Date_parse (Message.at_ m)).
    + by rewrite getMessages_response.
  - intros Hk Hl. split.
    + intros a Ha Hbad. rewrite getMessages_response_inherited by done.
      unfold after_of. by rewrite bool_decide_eq_false_2.
    + by rewrite getMessages_response_inherited.
Qed.

End Reads_and_validation.

Section Stamps.
Context `{RT : JSRuntime}.

Lemma StronglySorted_sublist {A} (R : relation A) (l1 l2 : list A) :
  l1 `sublist_of` l2 → StronglySorted R l2 → StronglySorted R l1.
Proof.
  induction 1 as [|x l1 l2 Hsub IH|x l1 l2 Hsub IH]; intros Hs.
  - constructor.
  - apply StronglySorted_inv in Hs as [Hs Hall]. constructor; [by apply IH|].
    rewrite Forall_forall in *. intros y Hy. apply Hall. by eapply elem_of_sublist.
  - apply StronglySorted_inv in Hs as [Hs _]. by apply IH.
Qed.

Lemma stamped_stored evs userId threadId :
  stamped_by (stamps evs) (stored_messages (run init evs) userId threadId).
Proof.
  unfold stored_messages, store_of.
  destruct (db (run init evs) !! userId) as [st|] eqn:E; simpl.
  - destruct (messages st !! threadId) as [l|] eqn:El; simpl.
    + by eapply run_stamped.
    + exists []. split; [done|]. apply sublist_nil_l.
  - rewrite lookup_empty. exists []. split; [done|]. apply sublist_nil_l.
Qed.

(** Under a clock that does not run backwards, and dates that parse back
    to what was printed, every stored list is in the order of its dates. *)
Lemma stored_sorted evs userId threadId :
  Sorted Z.le (stamps evs) →
  (∀ t, t ∈ stamps evs → Date_parse (toISOString t) = Some t) →
  ∃ ts, at_time <$> stored_messages (run init evs) userId threadId = Some <$> ts ∧
        Sorted Z.le ts.
Proof.
  intros Hsorted Hparse.
  destruct (stamped_stored evs userId threadId) as (cs & Hcs & Hsub).
  exists cs. split.
  - assert (∀ l : list Message.t, at_time <$> l = Date_parse <$> (Message.at_ <$> l))
      as -> by (intros l; by rewrite <- list_fmap_compose).
    rewrite Hcs, <- list_fmap_compose.
    apply list_fmap_ext. intros i t Ht. simpl. apply Hparse.
    eapply elem_of_sublist; [|done]. by eapply list_elem_of_lookup_2.
  - apply StronglySorted_Sorted. eapply StronglySorted_sublist; [done|].
    apply Sorted_StronglySorted; [apply _|done].
Qed.




End Stamps.

Section Pairing.
Context `{RT : JSRuntime}.

Lemma paired_empty_store : paired_store empty_store.
Proof. intros k. simpl. by rewrite !lookup_empty. Qed.

Lemma vivified_threads_is_Some clock st threadId k :
  is_Some (threads (vivified clock st threadId) !! k) ↔
  k = threadId ∨ is_Some (threads st !! k).
Proof.
  simpl. destruct (threads st !! threadId) eqn:E.
  - split; [by right|]. intros [->|?]; [by rewrite E|done].
  - rewrite lookup_insert_is_Some'. split; intros [?|?]; auto.
Qed.

Lemma vivified_messages_is_Some clock st threadId k :
  is_Some (messages (vivified clock st threadId) !! k) ↔
  k = threadId ∨ is_Some (messages st !! k).
Proof.
  simpl. destruct (messages st !! threadId) eqn:E.
  - split; [by right|]. intros [->|?]; [by rewrite E|done].
  - rewrite lookup_insert_is_Some'. split; intros [?|?]; auto.
Qed.

Lemma vivified_paired clock st threadId :
  paired_store st → paired_store (vivified clock st threadId).
Proof.
  intros Hp k.
  rewrite vivified_threads_is_Some, vivified_messages_is_Some, (Hp k). done.
Qed.

(** One request for an ordinary thread id keeps threads and lists
    paired in the store of its user. *)
Lemma handle_paired r s :
  plain r →
  threads_proto (store_of (user_of r) s) = None →
  unpolluted (Object_prototype s) →
  paired_store (store_of (user_of r) s) →
  paired_store (store_of (user_of r) (handle r s).2).
Proof.
  intros Hplain Hproto Hpp Hp.
  destruct r as [hdr|clock hdr t|clock hdr k q|clock hdr k|clock0 clock uuid hdr k b];
    simpl in *.
  - by rewrite getThreads_state, store_of_getUser.
  - destruct (db (getUser hdr s).2 !! userId_of hdr) as [st0|] eqn:E.
    2:{ by rewrite (postThread_no_tenant _ _ _ _ E). }
    destruct (ToBoolean (ThreadBody.id t)) eqn:Hid.
    2:{ unfold postThread. name_getUser hdr s. rewrite Hid. simpl.
        by rewrite store_of_getUser. }
    rewrite (postThread_tenant _ _ _ _ _ E Hid) by (try done; apply Hplain; simpl; by rewrite ?Hid).
    unfold snd. rewrite store_of_scheduleSave, store_of_set_store.
    intros k'. simpl. rewrite lookup_insert_is_Some'.
    destruct (messages (store_of (userId_of hdr) s) !! ToString (ThreadBody.id t)) eqn:El.
    + rewrite (Hp k'). split; [|by right]. intros [<-|?]; [by rewrite El|done].
    + rewrite lookup_insert_is_Some', (Hp k'). done.
  - destruct (db (getUser hdr s).2 !! userId_of hdr) as [st0|] eqn:E.
    2:{ by rewrite (getMessages_no_tenant _ _ _ _ _ E). }
    rewrite (getMessages_tenant _ _ _ _ _ _ E) by (try done; apply Hplain; simpl; by rewrite ?Hid).
    unfold snd. rewrite store_of_set_store. by apply vivified_paired.
  - destruct (db (getUser hdr s).2 !! userId_of hdr) as [st0|] eqn:E.
    2:{ by rewrite (postRead_no_tenant _ _ _ _ E). }
    rewrite (postRead_tenant _ _ _ _ _ E) by (try done; apply Hplain; simpl; by rewrite ?Hid).
    unfold snd. rewrite store_of_scheduleSave, store_of_set_store.
    intros k'. cbn [threads messages]. rewrite lookup_alter_is_Some.
    by apply vivified_paired.
  - destruct (db (getUser hdr s).2 !! userId_of hdr) as [st0|] eqn:E.
    2:{ by rewrite (postMessage_no_tenant _ _ _ _ _ _ _ E). }
    rewrite (postMessage_tenant _ _ _ _ _ _ _ _ E) by (try done; apply Hplain; simpl; by rewrite ?Hid).
    destruct (find_id _ _).
    + unfold snd. rewrite store_of_set_store. by apply vivified_paired.
    + unfold snd. rewrite store_of_scheduleSave, store_of_set_store.
      intros k'. cbn [threads messages].
      rewrite lookup_alter_is_Some, lookup_insert_is_Some'.
      rewrite vivified_threads_is_Some, vivified_messages_is_Some, (Hp k').
      split; [intros [?|?]; auto|]. intros [?|[?|?]]; auto.
Qed.

Lemma inherited_store_of_None s userId :
  (∀ u st, db s !! u = Some st → threads_proto st = None) →
  threads_proto (store_of userId s) = None.
Proof.
  intros Hs. unfold store_of. destruct (db s !! userId) eqn:E; simpl; [by eapply Hs|done].
Qed.

Lemma paired_store_of s userId : paired s → paired_store (store_of userId s).
Proof.
  intros Hs. unfold store_of. destruct (db s !! userId) eqn:E; simpl;
    [by eapply Hs|apply paired_empty_store].
Qed.

Lemma step_paired s e :
  plain_event e →
  paired s ∧ (∀ u st, db s !! u = Some st → threads_proto st = None) ∧
  unpolluted (Object_prototype s) →
  paired (step s e) ∧ (∀ u st, db (step s e) !! u = Some st → threads_proto st = None) ∧
  unpolluted (Object_prototype (step s e)).
Proof.
  intros He (Hp & Hproto & Hpp). destruct e as [r|w]; simpl in *.
  2:{ unfold paired. by rewrite timerFires_db, timerFires_Object_prototype. }
  destruct (handle_db r s) as (_ & _ & Hne & _ & Hsame & _).
  destruct Hsame as [Hproto' Hpp'].
  { intros E. apply He in E. done. }
  split_and!.
  - intros u st Hst. destruct (decide (u = user_of r)) as [->|Hu].
    + rewrite <- (store_of_lookup _ _ _ Hst).
      apply handle_paired; [done|by apply inherited_store_of_None|done|
                            by apply paired_store_of].
    + rewrite Hne in Hst by done. by eapply Hp.
  - intros u st Hst. destruct (decide (u = user_of r)) as [->|Hu].
    + rewrite <- (store_of_lookup _ _ _ Hst), Hproto'. by apply inherited_store_of_None.
    + rewrite Hne in Hst by done. by eapply Hproto.
  - by rewrite Hpp'.
Qed.

Lemma run_paired evs :
  Forall plain_event evs →
  paired (run init evs) ∧
  (∀ u st, db (run init evs) !! u = Some st → threads_proto st = None) ∧
  unpolluted (Object_prototype (run init evs)).
Proof.
  induction evs as [|e evs IH] using rev_ind; intros Hall.
  - split_and!.
    + intros u st. unfold run. simpl. by rewrite lookup_empty.
    + intros u st. unfold run. simpl. by rewrite lookup_empty.
    + reflexivity.
  - apply Forall_app in Hall as [Hall He]. rewrite Forall_singleton in He.
    rewrite run_snoc. apply step_paired; [done|by apply IH].
Qed.

(** A thread descriptor whose id names a member of [Object.prototype]
    other than [__proto__]: the record is stored and no list is made. *)
Lemma postThread_inherited_id clock hdr t s :
  let userId := userId_of hdr in
  let threadId := ToString (ThreadBody.id t) in
  ToBoolean (ThreadBody.id t) = true →
  inherited userId = false →
  unpolluted (Object_prototype s) →
  inherited threadId = true →
  threadId ≠ "__proto__" →
  messages (store_of userId s) !! threadId = None →
  let res := postThread clock hdr t s in
  status res.1 = 201 ∧
  stored_thread res.2 userId threadId = Some (normalized (toISOString clock) t) ∧
  messages (store_of userId res.2) !! threadId = None.
Proof.
  intros userId threadId Hid Hu Hpp Hk Hne Hl res. unfold res, postThread.
  name_getUser hdr s. rewrite Hid. simpl negb. cbv iota.
  rewrite getUser_lookup_plain, getUser_Object_prototype by done.
  rewrite build_thread_unpolluted by done.
  set (th := normalized (toISOString clock) t).
  assert (Thread.id th = threadId) as Hth by done. rewrite Hth.
  unfold threads_set. rewrite bool_decide_eq_false_2 by done. simpl andb. cbv iota.
  rewrite lookup_js_inherited by done. simpl falsy. cbv iota.
  unfold stored_thread. unfold snd, fst.
  rewrite store_of_scheduleSave, store_of_set_store. simpl.
  by rewrite lookup_insert_eq.
Qed.

(** C7. The invariant holds in every state reached from the empty dataset
    by requests whose thread ids are ordinary.  It does not hold in every
    reachable state: a thread descriptor whose id names a member of
    [Object.prototype], such as [constructor], is answered 201 and stored,
    and no message list is made for it, because the inherited value is
    taken for one. *)
Theorem thread_iff_message_list :
  (∀ evs userId threadId,
     Forall plain_event evs →
     is_Some (threads (store_of userId (run init evs)) !! threadId) ↔
     is_Some (messages (store_of userId (run init evs)) !! threadId)) ∧
  (∀ clock hdr t s,
     let userId := userId_of hdr in
     let threadId := ToString (ThreadBody.id t) in
     ToBoolean (ThreadBody.id t) = true →
     inherited userId = false →
     unpolluted (Object_prototype s) →
     inherited threadId = true →
     threadId ≠ "__proto__" →
     messages (store_of userId s) !! threadId = None →
     let res := postThread clock hdr t s in
     status res.1 = 201 ∧
     is_Some (threads (store_of userId res.2) !! threadId) ∧
     ¬ is_Some (messages (store_of userId res.2) !! threadId)).
Proof.
  split.
  - intros evs userId threadId Hall.
    destruct (run_paired evs Hall) as (Hp & _ & _). by apply paired_store_of.
  - intros clock hdr t s userId threadId Hid Hu Hpp Hk Hne Hl res.
    destruct (postThread_inherited_id clock hdr t s Hid Hu Hpp Hk Hne Hl)
      as (Hres & Hth & Hnone).
    fold res in Hres, Hth, Hnone. fold userId threadId in Hth, Hnone.
    unfold stored_thread in Hth.
    split_and!; [done|by rewrite Hth|]. rewrite Hnone. by intros [? ?].
Qed.

End Pairing.

Section Recency.
Context `{RT : JSRuntime}.

Lemma sort_insert_perm {A} (cmp : A → A → option Z) x l :
  sort_insert cmp x l ≡ₚ x :: l.
Proof.
  induction l as [|y l IH]; simpl; [done|].
  destruct (is_positive (cmp x y)); [|done].
  rewrite IH. apply Permutation_swap.
Qed.

Lemma Array_sort_perm {A} (cmp : A → A → option Z) l : Array_sort cmp l ≡ₚ l.
Proof.
  unfold Array_sort. induction l as [|x l IH]; simpl; [done|].
  by rewrite sort_insert_perm, IH.
Qed.

Lemma by_recency_total a b :
  is_Some (updated_time a) → is_Some (updated_time b) →
  is_positive (byUpdatedAt a b) = false → by_recency a b.
Proof.
  intros [ta Ha] [tb Hb]. unfold byUpdatedAt, by_recency.
  unfold updated_time in *. rewrite Ha, Hb. simpl.
  intros Hpos%Z.ltb_ge. exists ta, tb. split_and!; [done..|lia].
Qed.

Lemma by_recency_positive a b :
  is_positive (byUpdatedAt a b) = true → by_recency b a.
Proof.
  unfold byUpdatedAt, by_recency, updated_time.
  destruct (Date_parse (Thread.updatedAt b)) as [tb|]; [|done].
  destruct (Date_parse (Thread.updatedAt a)) as [ta|]; [|done]. simpl.
  intros Hpos%Z.ltb_lt. exists tb, ta. split_and!; [done..|lia].
Qed.

Lemma by_recency_trans a b c : by_recency a b → by_recency b c → by_recency a c.
Proof.
  intros (ta & tb & Ha & Hb & Hab) (tb' & tc & Hb' & Hc & Hbc).
  exists ta, tc. split_and!; [done..|]. rewrite Hb in Hb'. injection Hb' as <-. lia.
Qed.

Lemma sort_insert_sorted x l :
  is_Some (updated_time x) →
  Forall (λ th, is_Some (updated_time th)) l →
  StronglySorted by_recency l →
  StronglySorted by_recency (sort_insert byUpdatedAt x l).
Proof.
  intros Hx Hall Hsorted. induction Hsorted as [|y l Hsorted IH Hy]; simpl.
  - repeat constructor.
  - apply Forall_cons in Hall as [Hvy Hall].
    destruct (is_positive (byUpdatedAt x y)) eqn:Hpos.
    + apply by_recency_positive in Hpos. constructor; [by apply IH|].
      rewrite sort_insert_perm. constructor; [done|done].
    + apply by_recency_total in Hpos; [|done..].
      constructor; [by constructor|]. constructor; [done|].
      eapply Forall_impl; [exact Hy|]. intros z Hz. by eapply by_recency_trans.
Qed.

Lemma Array_sort_sorted l :
  Forall (λ th, is_Some (updated_time th)) l →
  StronglySorted by_recency (Array_sort byUpdatedAt l).
Proof.
  unfold Array_sort. induction l as [|x l IH]; intros Hall; simpl; [constructor|].
  apply Forall_cons in Hall as [Hx Hall]. apply sort_insert_sorted; [done| |by apply IH].
  fold (Array_sort byUpdatedAt l). by rewrite Array_sort_perm.
Qed.

Lemma elem_of_Object_values {A} (o : gmap string A) x :
  x ∈ Object_values o ↔ ∃ k, o !! k = Some x.
Proof.
  unfold Object_values. rewrite list_elem_of_fmap. split.
  - intros [[k y] [-> Hin]]. exists k. by apply elem_of_map_to_list.
  - intros [k Hk]. exists (k, x). split; [done|]. by apply elem_of_map_to_list.
Qed.

Lemma getThreads_response hdr s :
  (getThreads hdr s).1 =
    {| status := 200;
       body := Threads (Array_sort byUpdatedAt
                          (Object_values (threads (store_of (userId_of hdr) s)))) |}.
Proof.
  unfold getThreads. name_getUser hdr s.
  simpl. by rewrite store_of_getUser.
Qed.

(** C8, as the code has it. Listing threads answers with all the threads
    of the tenant, each once; when every [updatedAt] is a valid date the
    answer is ordered by [updatedAt] descending.  After an append that
    creates a message at the server's reading [clock], under an ordinary
    user key and thread id, the thread appended to is the first of the
    answer provided every other thread of the tenant was updated at a
    valid date strictly before [clock]. *)
Theorem listThreads_recency s hdr :
  let userId := userId_of hdr in
  (∃ l, (getThreads hdr s).1 = {| status := 200; body := Threads l |} ∧
        l ≡ₚ Object_values (threads (store_of userId s)) ∧
        (Forall (λ th, is_Some (updated_time th)) (Object_values (threads (store_of userId s))) →
         StronglySorted by_recency l)) ∧
  (∀ clock0 clock uuid threadId b,
     ordinary s userId threadId →
     find_id (Message.id (build_message clock uuid b)) (stored_messages s userId threadId) = None →
     Date_parse (toISOString clock) = Some clock →
     (∀ k th, k ≠ threadId → stored_thread s userId k = Some th →
              ∃ t, updated_time th = Some t ∧ (t < clock)%Z) →
     let s' := (postMessage clock0 clock uuid hdr threadId b s).2 in
     ∃ th rest,
       (getThreads hdr s').1 = {| status := 200; body := Threads (th :: rest) |} ∧
       stored_thread s' userId threadId = Some th).
Proof.
  intros userId. split.
  - eexists. split; [apply getThreads_response|]. split.
    + apply Array_sort_perm.
    + apply Array_sort_sorted.
  - intros clock0 clock uuid threadId b Hord Hfind Hparse Hothers s'.
    destruct (postMessage_created clock0 clock uuid hdr threadId b s Hord Hfind)
      as (st' & Hpost & Hdb & _ & _ & Hth & Hne).
    assert (store_of userId s' = st') as Hstore.
    { unfold s', store_of. by rewrite Hdb, lookup_insert_eq. }
    set (new := preview (build_message clock uuid b)
                  (default (default_thread threadId (toISOString clock0))
                     (stored_thread s (userId_of hdr) threadId))) in *.
    assert (updated_time new = Some clock) as Hnew by done.
    assert (∀ k th, threads st' !! k = Some th →
              th = new ∨ ∃ t, updated_time th = Some t ∧ (t < clock)%Z) as Hcases.
    { intros k th Hk. destruct (decide (k = threadId)) as [->|Hk'].
      - left. congruence.
      - right. apply (Hothers k); [done|]. unfold stored_thread, userId.
        by destruct (Hne k Hk') as [<- _]. }
    rewrite getThreads_response. fold userId. rewrite Hstore.
    set (l := Array_sort byUpdatedAt (Object_values (threads st'))).
    assert (l ≡ₚ Object_values (threads st')) as Hperm by apply Array_sort_perm.
    assert (StronglySorted by_recency l) as Hsorted.
    { apply Array_sort_sorted, Forall_forall. intros th [k Hk]%elem_of_Object_values.
      destruct (Hcases k th Hk) as [->|(t & -> & _)]; by rewrite ?Hnew. }
    assert (new ∈ l) as Hin.
    { rewrite Hperm. apply elem_of_Object_values. by exists threadId. }
    destruct l as [|h rest]; [by apply elem_of_nil in Hin|].
    exists h, rest. split; [done|]. unfold stored_thread. rewrite Hstore, Hth. f_equal.
    apply elem_of_cons in Hin as [->|Hin]; [done|].
    assert (h ∈ Object_values (threads st')) as [k Hk]%elem_of_Object_values
      by (rewrite <- Hperm; left).
    destruct (Hcases k h Hk) as [->|(t & Ht & Hlt)]; [done|].
    apply StronglySorted_cons in Hsorted as [Hall _].
    rewrite Forall_forall in Hall. destruct (Hall new Hin) as (ta & tb & Ha & Hb & Hle).
    rewrite Ht in Ha. rewrite Hnew in Hb. simplify_eq. lia.
Qed.

End Recency.

(** * Further properties of the code *)

Section Stores.
Context `{RT : JSRuntime}.

Lemma store_of_other userId s s' :
  db s' !! userId = db s !! userId → store_of userId s' = store_of userId s.
Proof. unfold store_of. by intros ->. Qed.

(** X1. A request reads and writes the store of its own user only, and in
    it the thread it is addressed to only: the store of every other user,
    and every other thread and message list of every user, are after the
    request what they were before. *)
Theorem request_frame r s :
  (∀ userId, userId ≠ user_of r → db (handle r s).2 !! userId = db s !! userId) ∧
  (∀ userId threadId,
     thread_of r ≠ Some threadId →
     stored_thread (handle r s).2 userId threadId = stored_thread s userId threadId ∧
     stored_messages (handle r s).2 userId threadId = stored_messages s userId threadId).
Proof.
  destruct (handle_db r s) as (_ & Hframe & Hne & _).
  split; [done|].
  intros userId threadId Hk. unfold stored_thread, stored_messages.
  destruct (decide (userId = user_of r)) as [->|Hu].
  - destruct (Hframe threadId Hk) as [-> ->]. done.
  - by rewrite (store_of_other userId s (handle r s).2 (Hne userId Hu)).
Qed.




End Stores.

Section Runs.
Context `{RT : JSRuntime}.

(** X3. Messages are append-only and threads are never removed: whatever
    requests and timer firings follow, the message list a thread had is a
    prefix of the list it has afterwards, and a thread that existed still
    exists. *)
Theorem messages_append_only s evs userId threadId :
  stored_messages s userId threadId `prefix_of` stored_messages (run s evs) userId threadId ∧
  (is_Some (stored_thread s userId threadId) →
   is_Some (stored_thread (run s evs) userId threadId)).
Proof.
  unfold stored_messages, stored_thread, store_of.
  destruct (db s !! userId) as [st|] eqn:Hst; simpl.
  - destruct (run_grows s evs _ _ Hst) as (st' & -> & Ht & Hm). simpl. split; [|apply Ht].
    destruct (messages st !! threadId) as [l|] eqn:Hl; simpl; [|apply prefix_nil].
    destruct (Hm _ _ Hl) as [l' ->]. simpl. by exists l'.
  - rewrite !lookup_empty. simpl. split; [apply prefix_nil|]. by intros [? ?].
Qed.

(** X4. In every state reached from the empty dataset, the messages of a
    thread carry pairwise different ids. *)
Theorem message_ids_unique evs userId threadId :
  NoDup (Message.id <$> stored_messages (run init evs) userId threadId).
Proof.
  unfold stored_messages, store_of.
  destruct (db (run init evs) !! userId) as [st|] eqn:Hst; simpl.
  - destruct (messages st !! threadId) as [l|] eqn:Hl; simpl; [|constructor].
    by eapply (run_unique init evs init_unique).
  - rewrite lookup_empty. constructor.
Qed.

Lemma run_keyed evs userId st :
  db (run init evs) !! userId = Some st → keyed_store st.
Proof.
  apply (run_lift keyed_store); eauto using keyed_empty_store, store_step_keyed.
  intros u st'. simpl. by rewrite lookup_empty.
Qed.

Lemma Object_values_ids (o : gmap string Thread.t) :
  (∀ k th, o !! k = Some th → Thread.id th = k) →
  Thread.id <$> Object_values o = (map_to_list o).*1.
Proof.
  intros Hk. unfold Object_values. rewrite <- list_fmap_compose.
  apply list_fmap_ext. intros i [k th] Hin. simpl.
  apply Hk. apply elem_of_map_to_list. by eapply list_elem_of_lookup_2.
Qed.

(** X5. In every state reached from the empty dataset a thread record is
    stored under its own id, so the list of threads a user is sent never
    names an id twice. *)
Theorem thread_ids_are_keys evs :
  (∀ userId threadId th,
     stored_thread (run init evs) userId threadId = Some th → Thread.id th = threadId) ∧
  (∀ hdr, ∃ l, (getThreads hdr (run init evs)).1 = {| status := 200; body := Threads l |} ∧
               NoDup (Thread.id <$> l)).
Proof.
  assert (∀ userId, keyed_store (store_of userId (run init evs))) as Hkeyed.
  { intros userId. unfold store_of.
    destruct (db (run init evs) !! userId) as [st|] eqn:Hst; simpl.
    - by eapply run_keyed.
    - intros k th. simpl. by rewrite lookup_empty. }
  split.
  - intros userId threadId th. apply Hkeyed.
  - intros hdr. eexists. split; [apply getThreads_response|].
    rewrite Array_sort_perm, Object_values_ids by apply Hkeyed.
    apply NoDup_fst_map_to_list.
Qed.

End Runs.

Section Routes.
Context `{RT : JSRuntime}.

(** Writing back the store a state holds, with the timer armed, is no change. *)
Lemma scheduleSave_set_store_same userId st s :
  db s !! userId = Some st → saveTimer s = true →
  scheduleSave (set_store userId st s) = s.
Proof.
  intros Hst Ht. rewrite set_store_same by done. unfold scheduleSave. by rewrite Ht.
Qed.

(** X6. Under an ordinary user key and thread id, marking a thread read
    answers 200 and schedules a save. The thread, created with the
    defaults of [ensureThread] when it was unknown, keeps every field but
    [unread], which becomes 0; its messages are left as they were. *)
Theorem markRead_effect clock hdr threadId s :
  let userId := userId_of hdr in
  let res := postRead clock hdr threadId s in
  ordinary s userId threadId →
  res.1 = {| status := 200; body := Ok |} ∧
  saveTimer res.2 = true ∧
  file res.2 = file s ∧
  stored_thread res.2 userId threadId =
    Some (mark_read (default (default_thread threadId (toISOString clock))
                       (stored_thread s userId threadId))) ∧
  stored_messages res.2 userId threadId = stored_messages s userId threadId.
Proof.
  intros userId res Hord.
  assert (file res.2 = file s) as Hfile by apply (handle_file (POST_read clock hdr threadId) s).
  unfold res in *. rewrite (postRead_ordinary _ _ _ _ Hord) in *. cbv zeta. split_and!.
  - done.
  - apply scheduleSave_armed.
  - done.
  - unfold stored_thread, snd. rewrite store_of_scheduleSave, store_of_set_store.
    cbn [threads]. by rewrite lookup_alter_eq, vivified_thread.
  - unfold stored_messages, snd. rewrite store_of_scheduleSave, store_of_set_store.
    cbn [messages]. by rewrite vivified_list.
Qed.

(** A second assignment of the same fields changes nothing more, and
    what [ensureThread] found truthy stays so. *)
Lemma assign_again f g k pp st pp' st' clock :
  (∀ th, f (f th) = f th) →
  (∀ pp, g (g pp) = g pp) →
  no_thread (threads_get pp st k) = false →
  falsy (lookup_js pp (messages st) k) = false →
  assign f g k pp st = Some (pp', st') →
  ensureThread clock pp' st' k = st' ∧ assign f g k pp' st' = Some (pp', st').
Proof.
  intros Hf Hg Hth Hl. unfold assign, threads_get in *.
  destruct (threads st !! k) as [th|] eqn:Hown.
  { intros [= <- <-]. split.
    - rewrite ensureThread_eq. cbn [threads messages threads_proto].
      unfold threads_get. cbn [threads]. rewrite lookup_alter_eq, Hown. simpl.
      by rewrite Hl.
    - cbn [threads]. rewrite lookup_alter_eq, Hown. simpl. do 3 f_equal.
      apply map_eq. intros k'. destruct (decide (k' = k)) as [->|Hne].
      + rewrite !lookup_alter_eq, Hown. simpl. by rewrite Hf.
      + by rewrite !lookup_alter_ne. }
  case_bool_decide as Hk.
  { subst k. assert (∀ pp0, falsy (lookup_js pp0 (messages st) "__proto__") = false) as Hl'.
    { intros pp0. unfold lookup_js in *. by destruct (messages st !! "__proto__"). }
    destruct (threads_proto st) as [p|] eqn:Hp; intros [= <- <-]; split.
    - rewrite ensureThread_eq. cbn [threads messages threads_proto].
      unfold threads_get. cbn [threads]. rewrite Hown. simpl. rewrite Hl'. by destruct st.
    - cbn [threads threads_proto]. rewrite Hown. by rewrite Hf.
    - rewrite ensureThread_eq. unfold threads_get. rewrite Hown. simpl.
      rewrite Hl'. by destruct st.
    - rewrite Hown, Hp. by rewrite Hg. }
  destruct (threads_proto st ≫= thread_field k) as [v|] eqn:Hv.
  { simpl in Hth. intros Hassign.
    assert (pp' = pp ∧ st' = st) as [-> ->] by (destruct v; by simplify_eq).
    split; [|by rewrite Hown, Hv].
    rewrite ensureThread_eq. unfold threads_get.
    rewrite Hown, bool_decide_eq_false_2, Hv by done. simpl. rewrite Hth, Hl.
    by destruct st. }
  destruct (inherited k) eqn:Hi.
  { intros [= <- <-]. split; [|by rewrite Hown, Hv].
    by apply ensureThread_inherited. }
  destruct (added pp k) as [v|] eqn:Hv'; [|done].
  simpl in Hth. intros Hassign.
  assert (pp' = pp ∧ st' = st) as [-> ->] by (destruct v; by simplify_eq).
  split; [|by rewrite Hown, Hv, Hv'].
  rewrite ensureThread_eq. unfold threads_get.
  rewrite Hown, bool_decide_eq_false_2, Hv, Hi, Hv' by done. simpl. rewrite Hth, Hl.
  by destruct st.
Qed.

Lemma add_unread_idem pp : add_unread (add_unread pp) = add_unread pp.
Proof. done. Qed.

(** The answer and the dataset of the read route depend on the dataset
    and on [Object.prototype] only, not on the timer or the file. *)
Lemma postRead_observe clock hdr threadId s s' :
  db s = db s' → Object_prototype s = Object_prototype s' →
  (postRead clock hdr threadId s).1 = (postRead clock hdr threadId s').1 ∧
  db (postRead clock hdr threadId s).2 = db (postRead clock hdr threadId s').2 ∧
  Object_prototype (postRead clock hdr threadId s).2 =
    Object_prototype (postRead clock hdr threadId s').2.
Proof.
  intros Hdb Hpp.
  assert (tenant_known s (userId_of hdr) = tenant_known s' (userId_of hdr)) as Hk.
  { unfold tenant_known. by rewrite Hdb, Hpp. }
  unfold postRead. name_getUser hdr s. name_getUser hdr s'.
  assert (db (getUser hdr s).2 = db (getUser hdr s').2) as Hdb1.
  { by rewrite !getUser_db, Hk, Hdb. }
  assert (Object_prototype (getUser hdr s).2 = Object_prototype (getUser hdr s').2) as Hpp1.
  { by rewrite !getUser_Object_prototype. }
  rewrite <- Hdb1, <- Hpp1.
  destruct (db (getUser hdr s).2 !! userId_of hdr) as [st0|]; [|done].
  destruct (assign _ _ _ _ _) as [[pp' st']|]; simpl; rewrite ?scheduleSave_db; simpl;
    rewrite ?scheduleSave_Object_prototype; simpl; by rewrite Hdb1.
Qed.

(** X7. Marking read is idempotent. A second call for the same user and
    thread, made when nothing has happened since the first, gives the same
    answer and returns the state the first one left.  When the save timer
    has fired in between, the second call gives the same answer and leaves
    the same dataset. *)
Theorem markRead_idempotent clock clock' hdr threadId s :
  let first := postRead clock hdr threadId s in
  postRead clock' hdr threadId first.2 = (first.1, first.2) ∧
  ∀ w, (postRead clock' hdr threadId (timerFires w first.2)).1 = first.1 ∧
       db (postRead clock' hdr threadId (timerFires w first.2)).2 = db first.2.
Proof.
  intros first.
  assert (postRead clock' hdr threadId first.2 = (first.1, first.2)) as Hagain.
  { unfold first. destruct (db (getUser hdr s).2 !! userId_of hdr) as [st0|] eqn:E.
    2:{ rewrite (postRead_no_tenant _ _ _ _ E). simpl.
        apply postRead_no_tenant. by rewrite E. }
    unfold postRead at 2 3 4. name_getUser hdr s.
    change (db (getUser hdr s).2 !! userId_of hdr = Some st0) in E. rewrite E.
    set (pp := Object_prototype (getUser hdr s).2).
    set (ens := ensureThread clock pp st0 threadId).
    destruct (assign_truthy mark_read add_unread threadId pp ens)
      as (pp' & st' & Hassign & _); [apply ensureThread_thread_truthy|].
    rewrite Hassign. simpl fst. simpl snd.
    set (s1 := scheduleSave (with_Object_prototype pp'
                               (set_store (userId_of hdr) st' (getUser hdr s).2))).
    assert (db s1 !! userId_of hdr = Some st') as Hdb.
    { unfold s1. rewrite scheduleSave_db. simpl. by rewrite lookup_insert_eq. }
    assert (Object_prototype s1 = pp') as Hpp'.
    { unfold s1. by rewrite scheduleSave_Object_prototype. }
    destruct (assign_again mark_read add_unread threadId pp ens pp' st' clock')
      as [Hens Hassign']; [done|done|apply ensureThread_thread_truthy|
                           apply ensureThread_list_truthy|done|].
    unfold postRead. name_getUser hdr s1.
    rewrite (getUser_known hdr s1) by by eapply tenant_known_own.
    rewrite Hdb, Hpp', Hens, Hassign'. f_equal.
    rewrite set_store_same by done.
    rewrite <- Hpp' at 1. rewrite with_Object_prototype_same.
    unfold s1. apply scheduleSave_idem. }
  split; [done|]. intros w.
  destruct (postRead_observe clock' hdr threadId (timerFires w first.2) first.2)
    as (-> & -> & _).
  - apply timerFires_db.
  - apply timerFires_Object_prototype.
  - by rewrite Hagain.
Qed.







Lemma coalesce_nullish v d : not_nullish v = false → coalesce v d = d.
Proof. by destruct v. Qed.

Lemma normalized_bare now t :
  bare t → normalized now t = default_thread (ToString (ThreadBody.id t)) now.
Proof.
  intros (Hn & Ha & Ho & Hl & Hu & Hd & Hm & Hr). unfold normalized, default_thread.
  by rewrite !coalesce_nullish.
Qed.

(** X10. Under an ordinary user key and thread id, creating a thread that
    does not exist from a descriptor that gives only an id is what reading
    its messages does, plus a scheduled save: both leave the default
    thread of [ensureThread] and an empty message list. *)
Theorem upsertThread_bare_is_vivify clock hdr t q s :
  let userId := userId_of hdr in
  let threadId := ToString (ThreadBody.id t) in
  ToBoolean (ThreadBody.id t) = true →
  bare t →
  ordinary s userId threadId →
  stored_thread s userId threadId = None →
  (postThread clock hdr t s).2 = scheduleSave (getMessages clock hdr threadId q s).2.
Proof.
  intros userId threadId Hid Hbare Hord Hnone.
  rewrite (getMessages_ordinary _ _ _ _ _ Hord).
  destruct Hord as (Hu & Hk & Hp & Hpp).
  rewrite (postThread_ordinary _ _ _ _ Hid Hu Hk Hpp). cbv zeta.
  rewrite (normalized_bare _ _ Hbare). simpl Thread.id. unfold snd.
  do 2 f_equal. unfold vivified. unfold stored_thread in Hnone.
  fold userId threadId. by rewrite Hnone, Hp.
Qed.


(** Reading the messages of a thread that exists with its list changes
    nothing. *)
Lemma getMessages_existing clock hdr threadId s st th l :
  db s !! userId_of hdr = Some st →
  threads st !! threadId = Some th →
  messages st !! threadId = Some l →
  getMessages clock hdr threadId None s = ({| status := 200; body := Messages l |}, s).
Proof.
  intros Hst Hth Hl. unfold getMessages. name_getUser hdr s.
  rewrite (getUser_known hdr s) by by eapply tenant_known_own.
  rewrite Hst, (ensureThread_same _ _ _ _ _ _ Hth Hl), (lookup_js_own _ _ _ _ Hl).
  simpl. by rewrite set_store_same.
Qed.

(** X12. A message that was appended is read back: under an ordinary user
    key and thread id, after an append that created a message, listing
    the thread without cursor, under any header that names the same user,
    answers with the former list followed by the new message, and changes
    nothing. *)
Theorem append_then_list clock0 clock uuid hdr threadId b clock' hdr' s :
  let userId := userId_of hdr in
  ordinary s userId threadId →
  find_id (Message.id (build_message clock uuid b))
    (stored_messages s userId threadId) = None →
  userId_of hdr' = userId →
  let s' := (postMessage clock0 clock uuid hdr threadId b s).2 in
  getMessages clock' hdr' threadId None s' =
    ({| status := 200;
        body := Messages (stored_messages s userId threadId
                            ++ [build_message clock uuid b]) |}, s').
Proof.
  intros userId Hord Hfind Hhdr s'.
  destruct (postMessage_created clock0 clock uuid hdr threadId b s Hord Hfind)
    as (st' & Hpost & Hdb & _ & Hl & Hth & _).
  assert (db s' !! userId_of hdr' = Some st') as Hst'.
  { unfold s'. rewrite Hdb, Hhdr. by rewrite lookup_insert_eq. }
  by eapply getMessages_existing.
Qed.

(** X13. Under an ordinary user key and thread id, an append that creates
    a message touches two fields of the thread, [lastMessage] and
    [updatedAt]: the record afterwards is the former one, or the default
    one when the thread was unknown, with those two set. The unread count,
    the name and the flags stay. *)
Theorem appendMessage_thread_record clock0 clock uuid hdr threadId b s :
  let userId := userId_of hdr in
  let res := postMessage clock0 clock uuid hdr threadId b s in
  ordinary s userId threadId →
  find_id (Message.id (build_message clock uuid b))
    (stored_messages s userId threadId) = None →
  stored_thread res.2 userId threadId =
    Some (preview (build_message clock uuid b)
            (default (default_thread threadId (toISOString clock0))
               (stored_thread s userId threadId))).
Proof.
  intros userId res Hord Hfind.
  destruct (postMessage_created clock0 clock uuid hdr threadId b s Hord Hfind)
    as (st' & Hpost & Hdb & _ & _ & Hth & _).
  unfold res, stored_thread at 1, store_of. rewrite Hdb. fold userId.
  rewrite lookup_insert_eq. simpl. by rewrite Hth.
Qed.

End Routes.

Section Persist.
Context `{RT : JSRuntime}.

Lemma thread_of_json_reload th : thread_of_json (thread_json th) = Some (reload_thread th).
Proof.
  destruct th as [i n a o lm u ua mu ar]. by destruct u as [| |b|[z| |neg| |x]|x].
Qed.

Lemma reload_thread_keeps th : keeps (Thread.unread th) → reload_thread th = th.
Proof.
  destruct th as [i n a o lm u ua mu ar]. simpl. by destruct u as [| |b|[z| |neg| |x]|x].
Qed.

Lemma message_of_json_inv m : message_of_json (message_json m) = Some m.
Proof. by destruct m. Qed.

Lemma messages_of_json_inv l : messages_of_json (JSarr (message_json <$> l)) = Some l.
Proof.
  simpl. apply mapM_Some. induction l as [|m l IH]; simpl; constructor; [|done].
  apply message_of_json_inv.
Qed.

(** Reading back a dictionary whose values read back as [h] of them. *)
Lemma object_of_json_fmap {A} (f : json → option A) (g : A → json) (h : A → A)
    (o : gmap string A) :
  (∀ v, f (g v) = Some (h v)) →
  object_of_json f (object_json g o) = Some (h <$> o).
Proof.
  intros Hinv. unfold object_of_json, object_json.
  assert (mapM (λ kv, v ← f kv.2; Some (kv.1, v)) (reverse (prod_map id g <$> map_to_list o))
          = Some (prod_map id h <$> reverse (map_to_list o))) as ->.
  { apply mapM_Some. rewrite <- fmap_reverse.
    induction (reverse (map_to_list o)) as [|[k v] l IH]; simpl; constructor; [|done].
    simpl. by rewrite Hinv. }
  simpl. f_equal. rewrite list_to_map_fmap. f_equal.
  rewrite <- (list_to_map_to_list o) at 2.
  symmetry. apply list_to_map_proper; [apply NoDup_fst_map_to_list|].
  by rewrite reverse_Permutation.
Qed.

Lemma store_of_json_reload st : store_of_json (store_json st) = Some (reload_store st).
Proof.
  destruct st as [ths proto msgs].
  assert (object_of_json thread_of_json (object_json thread_json ths)
          = Some (reload_thread <$> ths)) as Hths
    by (apply object_of_json_fmap, thread_of_json_reload).
  assert (object_of_json messages_of_json
            (object_json (λ l, JSarr (message_json <$> l)) msgs) = Some (id <$> msgs)) as Hmsgs
    by (apply object_of_json_fmap; intros l; apply messages_of_json_inv).
  rewrite map_fmap_id in Hmsgs.
  unfold store_of_json, store_json, take_member. cbn [threads messages].
  rewrite !bool_decide_eq_true_2 by done. cbn [mbind option_bind].
  rewrite Hths. cbn [mbind option_bind].
  rewrite bool_decide_eq_true_2 by done. cbn [mbind option_bind].
  by rewrite Hmsgs.
Qed.

Lemma db_of_json_reload d : db_of_json (JSON_stringify d) = Some (reload_db d).
Proof. apply object_of_json_fmap, store_of_json_reload. Qed.

Lemma reload_thread_idemp th : reload_thread (reload_thread th) = reload_thread th.
Proof. destruct th as [i n a o lm u ua mu ar]. by destruct u as [| |b|[z| |neg| |x]|x]. Qed.

Lemma reload_db_idemp d : reload_db (reload_db d) = reload_db d.
Proof.
  unfold reload_db. rewrite <- map_fmap_compose. apply map_fmap_ext. intros k st _.
  unfold reload_store. simpl. f_equal. rewrite <- map_fmap_compose.
  apply map_fmap_ext. intros j th _. apply reload_thread_idemp.
Qed.

Lemma reload_db_writable d : writable d → reload_db d = d.
Proof.
  intros Hw. unfold reload_db. rewrite <- (map_fmap_id d) at 2.
  apply map_fmap_ext. intros k st Hst. destruct (Hw _ _ Hst) as [Hp Hu].
  destruct st as [ths proto msgs]. unfold reload_store. simpl in *. subst proto. f_equal.
  rewrite <- (map_fmap_id ths) at 2. apply map_fmap_ext. intros j th Hth.
  apply reload_thread_keeps. by eapply Hu.
Qed.

(** Saving and loading gives the dataset back when every unread count is
    a number that JSON keeps and no prototype was replaced. *)
Lemma save_load_writable s :
  writable (db s) → loadDb (saveDbNow Written s) = Some (saveDbNow Written s).
Proof.
  intros Hw. unfold loadDb, saveDbNow. cbn [file writeFileSync].
  rewrite db_of_json_reload, reload_db_writable by done. done.
Qed.

End Persist.

Section Durability.
Context `{RT : JSRuntime}.

(** X14. When the write succeeds, writing the dataset and loading it
    never fails, whatever the dataset holds: what comes back is the
    dataset with every unread count that is NaN or infinite turned into
    [null], minus zero into 0 and every replaced prototype forgotten, and
    nothing else changed; writing and loading that once more gives it back
    as it is.  When the write fails and leaves the file empty or cut
    short, loading gives the empty dataset; when it leaves the file as it
    was, loading gives what it gave before. *)
Theorem save_load_normalises s :
  let s1 := with_db (reload_db (db s)) (saveDbNow Written s) in
  loadDb (saveDbNow Written s) = Some s1 ∧
  loadDb (saveDbNow Written s1) = Some (saveDbNow Written s1) ∧
  loadDb (saveDbNow Truncated s) = Some (with_db ∅ (saveDbNow Truncated s)) ∧
  loadDb (saveDbNow Partial s) = Some (with_db ∅ (saveDbNow Partial s)) ∧
  db <$> loadDb (saveDbNow Untouched s) = db <$> loadDb s.
Proof.
  intros s1. split_and!.
  - unfold loadDb, saveDbNow. cbn [file writeFileSync]. by rewrite db_of_json_reload.
  - unfold loadDb, saveDbNow. cbn [file db s1 with_db writeFileSync].
    by rewrite db_of_json_reload, reload_db_idemp.
  - done.
  - done.
  - unfold loadDb, saveDbNow. cbn [file writeFileSync].
    destruct (file s) as [[| |j]|]; try done. by destruct (db_of_json j).
Qed.

Lemma run_requests_file s rs : file (run s (Request <$> rs)) = file s.
Proof.
  induction rs as [|r rs IH] using rev_ind; [done|].
  rewrite fmap_app. change (Request <$> [r]) with [Request r].
  rewrite run_snoc. simpl. by rewrite handle_file.
Qed.

(** X15. Only the timer writes the file. However many requests were
    served since, a process started anew sees what it would have seen
    before them.  Once an armed timer has fired and the write succeeded, a
    process started anew has the dataset of that moment as it is read
    back, and no timer pending; when the write failed, it has the dataset
    it would have had before, if the file was left as it was, and the
    empty dataset if the file was left empty or cut short. *)
Theorem restart_sees_last_flush s rs :
  restart (run s (Request <$> rs)) = restart s ∧
  (saveTimer s = true →
   restart (timerFires Written s) =
     Some (started (reload_db (db s)) (Some (Doc (JSON_stringify (db s))))) ∧
   restart (timerFires Untouched s) = restart s ∧
   restart (timerFires Truncated s) = Some (started ∅ (Some EmptyText)) ∧
   restart (timerFires Partial s) = Some (started ∅ (Some Unparsable))).
Proof.
  split.
  - unfold restart. by rewrite run_requests_file.
  - intros Harmed. unfold restart, timerFires, loadDb. rewrite Harmed.
    cbn [file saveDbNow db writeFileSync]. by rewrite db_of_json_reload.
Qed.

Lemma lags_refl d : lags d d.
Proof. intros userId. destruct (d !! userId); [|done]. intros k. split; by left. Qed.

Lemma ensureThread_lags clock pp st0 st threadId :
  lags_store st0 st → lags_store st0 (ensureThread clock pp st threadId).
Proof.
  intros Hl k. destruct (decide (k = threadId)) as [->|Hne].
  2:{ rewrite ensureThread_threads_ne, ensureThread_messages_ne by done. apply Hl. }
  destruct (Hl threadId) as [Ht Hm]. split.
  - rewrite ensureThread_thread. destruct (no_thread _) eqn:E; [|done].
    apply no_thread_get in E as (E & _). right. rewrite E in Ht.
    destruct Ht as [->|[_ [now ?]]]; [|done]. eauto.
  - rewrite ensureThread_list. destruct (falsy _) eqn:E; [|done].
    apply falsy_lookup_js in E as (E & _). right. rewrite E in Hm.
    destruct Hm as [->|[_ ?]]; done.
Qed.

(** A request that leaves the timer unarmed found it unarmed, and did to
    the dataset at most what [ensureThread] does. *)
Lemma handle_unarmed r s :
  saveTimer (handle r s).2 = false →
  saveTimer s = false ∧
  (db (handle r s).2 = db s ∨
   ∃ st clock threadId,
     db s !! user_of r = Some st ∧
     db (handle r s).2 =
       <[user_of r := ensureThread clock (Object_prototype s) st threadId]> (db s)).
Proof.
  assert (∀ hdr, saveTimer (getUser hdr s).2 = false →
            saveTimer s = false ∧ (getUser hdr s).2 = s) as Hget.
  { intros hdr. rewrite getUser_timer.
    destruct (tenant_known s (userId_of hdr)) eqn:E; [|done].
    intros Ht. split; [done|]. by apply getUser_known. }
  assert (∀ hdr st0, db (getUser hdr s).2 !! userId_of hdr = Some st0 →
            (getUser hdr s).2 = s → db s !! userId_of hdr = Some st0) as Hown.
  { intros hdr st0 E Hs. by rewrite Hs in E. }
  destruct r as [hdr|clock hdr t|clock hdr k q|clock hdr k|clock0 clock uuid hdr k b].
  - simpl. rewrite getThreads_state. intros [Ht Hs]%Hget. split; [done|]. left.
    by rewrite Hs.
  - simpl. unfold postThread. name_getUser hdr s.
    destruct (negb _).
    { simpl. intros [Ht Hs]%Hget. split; [done|]. left. by rewrite Hs. }
    destruct (db (getUser hdr s).2 !! userId_of hdr).
    + simpl. by rewrite scheduleSave_armed.
    + simpl. intros [Ht Hs]%Hget. split; [done|]. left. by rewrite Hs.
  - simpl. destruct (db (getUser hdr s).2 !! userId_of hdr) as [st0|] eqn:E.
    + rewrite (getMessages_state _ _ _ _ _ _ E). simpl saveTimer.
      intros [Ht Hs]%Hget. split; [done|]. right.
      pose proof (Hown _ _ E Hs) as Hst.
      exists st0, clock, k. split; [done|]. simpl. rewrite Hs.
      by rewrite (store_of_lookup _ _ _ Hst).
    + rewrite (getMessages_no_tenant _ _ _ _ _ E). simpl. auto.
  - simpl. destruct (db (getUser hdr s).2 !! userId_of hdr) as [st0|] eqn:E.
    + unfold postRead. name_getUser hdr s.
      change (db (getUser hdr s).2 !! userId_of hdr = Some st0) in E. rewrite E.
      destruct (assign_truthy mark_read add_unread k (Object_prototype (getUser hdr s).2)
                  (ensureThread clock (Object_prototype (getUser hdr s).2) st0 k))
        as (pp' & st' & -> & _); [apply ensureThread_thread_truthy|].
      simpl. by rewrite scheduleSave_armed.
    + rewrite (postRead_no_tenant _ _ _ _ E). simpl. auto.
  - simpl. destruct (db (getUser hdr s).2 !! userId_of hdr) as [st0|] eqn:E.
    + unfold postMessage. name_getUser hdr s.
      change (db (getUser hdr s).2 !! userId_of hdr = Some st0) in E. rewrite E.
      set (pp := Object_prototype (getUser hdr s).2).
      set (ens := ensureThread clock0 pp st0 k).
      assert (saveTimer (set_store (userId_of hdr) ens (getUser hdr s).2) = false →
              saveTimer s = false ∧
              (db (set_store (userId_of hdr) ens (getUser hdr s).2) = db s ∨
               ∃ st clock1 threadId,
                 db s !! userId_of hdr = Some st ∧
                 db (set_store (userId_of hdr) ens (getUser hdr s).2) =
                   <[userId_of hdr := ensureThread clock1 (Object_prototype s) st threadId]>
                     (db s))) as Hquiet.
      { simpl saveTimer. intros [Ht Hs]%Hget. split; [done|]. right.
        pose proof (Hown _ _ E Hs) as Hst.
        exists st0, clock0, k. split; [done|]. simpl. unfold ens, pp. by rewrite Hs. }
      destruct (lookup_js pp (messages ens) k) as [l| |]; [|done..].
      destruct (find_id _ l); [done|].
      destruct (assign_truthy (preview (build_message clock uuid b))
                  (add_preview (build_message clock uuid b)) k pp
                  (messages_set k (l ++ [build_message clock uuid b]) ens))
        as (pp' & st' & -> & _).
      { unfold threads_get, messages_set. simpl.
        apply (ensureThread_thread_truthy clock0 pp st0 k). }
      simpl. by rewrite scheduleSave_armed.
    + rewrite (postMessage_no_tenant _ _ _ _ _ _ _ E). simpl. auto.
Qed.

Lemma run_flush_lag evs :
  writes_succeed evs →
  ∃ d0, on_disk (run init evs) d0 ∧
        (saveTimer (run init evs) = false → lags d0 (db (run init evs))).
Proof.
  induction evs as [|e evs IH] using rev_ind; intros Hw.
  - exists ∅. split; [by right|]. intros _. apply lags_refl.
  - apply Forall_app in Hw as [Hw He]. rewrite Forall_singleton in He.
    rewrite run_snoc. destruct (IH Hw) as (d0 & Hdisk & Hlag).
    set (s := run init evs) in *. destruct e as [r|w]; simpl.
    + exists d0. split.
      { unfold on_disk. by rewrite handle_file. }
      intros Hun. apply handle_unarmed in Hun as (Hs & [->|(st & clock & tid & Hst & ->)]);
        [by apply Hlag|].
      specialize (Hlag Hs). intros userId. specialize (Hlag userId).
      destruct (decide (userId = user_of r)) as [->|Hne].
      * rewrite lookup_insert_eq. rewrite Hst in Hlag.
        destruct (d0 !! user_of r) as [st0|]; [|done].
        by apply ensureThread_lags.
      * by rewrite lookup_insert_ne.
    + subst w. unfold timerFires. destruct (saveTimer s) eqn:Ht.
      * exists (db s). split; [by left|]. intros _. apply lags_refl.
      * exists d0. split; [done|]. intros _. by apply Hlag.
Qed.

(** X16. What is at stake when no save is pending and every write has
    succeeded. In every such state reached from the empty dataset, the
    file is the text of a dataset with the tenants of the one in memory,
    whose thread records and message lists are those in memory except for
    records that reads created, still as [ensureThread] made them, and
    lists that reads created, still empty. No message is missing from
    what was written once the timer is unarmed. *)
Theorem unarmed_file_lags evs :
  let s := run init evs in
  writes_succeed evs →
  saveTimer s = false →
  ∃ d0, on_disk s d0 ∧ lags d0 (db s) ∧
        ∀ userId threadId m,
          m ∈ stored_messages s userId threadId →
          ∃ st0 l, d0 !! userId = Some st0 ∧ messages st0 !! threadId = Some l ∧ m ∈ l.
Proof.
  intros s Hw Hun. destruct (run_flush_lag evs Hw) as (d0 & Hdisk & Hlag).
  specialize (Hlag Hun). exists d0. split_and!; [done..|].
  intros userId threadId m. unfold stored_messages, store_of. specialize (Hlag userId).
  fold s in Hlag. destruct (db s !! userId) as [st|]; simpl.
  - destruct (d0 !! userId) as [st0|]; [|done].
    destruct (Hlag threadId) as [_ [Hm|(_ & Hm)]].
    + rewrite <- Hm. destruct (messages st0 !! threadId) as [l|] eqn:E; simpl.
      * intros Hin. by exists st0, l.
      * by intros Hin%elem_of_nil.
    + rewrite Hm. simpl. by intros Hin%elem_of_nil.
  - rewrite lookup_empty. simpl. by intros Hin%elem_of_nil.
Qed.

End Durability.

Section Vivify.
Context `{RT : JSRuntime}.

(** X17. [ensureThread] settles a thread once: calling it again for the
    same id, at whatever later time, returns the store the first call
    left, so the date of the thread is not refreshed and nothing is
    created twice. *)
Theorem ensureThread_settles clock clock' pp st threadId :
  ensureThread clock' pp (ensureThread clock pp st threadId) threadId
  = ensureThread clock pp st threadId.
Proof. apply ensureThread_idem. Qed.

End Vivify.

Section Restart_and_cursor.
Context `{RT : JSRuntime}.

(** What the file can hold in a state reached from the empty dataset. *)
Lemma run_file evs :
  file (run init evs) = None ∨ file (run init evs) = Some EmptyText ∨
  file (run init evs) = Some Unparsable ∨
  ∃ evs0, evs0 `prefix_of` evs ∧
          file (run init evs) = Some (Doc (JSON_stringify (db (run init evs0)))).
Proof.
  induction evs as [|e evs IH] using rev_ind; [by left|].
  rewrite run_snoc.
  assert (file (run init evs) = None ∨ file (run init evs) = Some EmptyText ∨
          file (run init evs) = Some Unparsable ∨
          ∃ evs0, evs0 `prefix_of` evs ++ [e] ∧
                  file (run init evs) = Some (Doc (JSON_stringify (db (run init evs0)))))
    as IH'.
  { destruct IH as [?|[?|[?|(evs0 & Hpre & ?)]]]; auto.
    right; right; right. exists evs0. split; [by apply prefix_app_r|done]. }
  destruct e as [r|w]; simpl.
  - by rewrite handle_file.
  - unfold timerFires. destruct (saveTimer (run init evs)); [|done].
    destruct w; cbn [file saveDbNow writeFileSync db]; auto.
    right; right; right. exists evs. split; [by apply prefix_app_r|done].
Qed.

(** X19. Starting anew never fails on what the service left. In every
    state reached from the empty dataset a new process starts, with the
    empty dataset or with the dataset of an earlier moment as it is read
    back, whatever the writes of the timer came to. A file that is
    missing, empty or not JSON gives the empty dataset. *)
Theorem restart_never_fails evs :
  (∃ d0, restart (run init evs) = Some (started (reload_db d0) (file (run init evs))) ∧
         (d0 = ∅ ∨ ∃ evs0, evs0 `prefix_of` evs ∧ d0 = db (run init evs0))) ∧
  (∀ s, file s = None ∨ file s = Some EmptyText ∨ file s = Some Unparsable →
        restart s = Some (started ∅ (file s))).
Proof.
  split.
  - unfold restart, loadDb. cbn [file].
    destruct (run_file evs) as [->|[->|[->|(evs0 & Hpre & ->)]]].
    + exists ∅. split; [|by left]. unfold reload_db. by rewrite fmap_empty.
    + exists ∅. split; [|by left]. unfold reload_db. by rewrite fmap_empty.
    + exists ∅. split; [|by left]. unfold reload_db. by rewrite fmap_empty.
    + exists (db (run init evs0)). split; [|right; by exists evs0].
      by rewrite db_of_json_reload.
  - intros s Hfile. unfold restart, loadDb. cbn [file].
    by destruct Hfile as [->|[->| ->]].
Qed.

Lemma filter_later_than_all T (l : list Message.t) :
  Forall (later_than T) l → filter (later_than T) l = l.
Proof.
  induction 1 as [|m l Hm Hl IH]; [done|]. rewrite filter_cons_True by done. by f_equal.
Qed.

Lemma filter_later_than_suffix T (l : list Message.t) ts :
  at_time <$> l = Some <$> ts → StronglySorted Z.le ts →
  filter (later_than T) l `suffix_of` l.
Proof.
  revert ts. induction l as [|m l IH]; intros ts Hts Hsorted; [done|].
  destruct ts as [|t ts]; [done|]. rewrite !fmap_cons in Hts. injection Hts as Hm Hts.
  apply StronglySorted_cons in Hsorted as [Hall Hsorted].
  destruct (decide (later_than T m)) as [Hlater|Hnot].
  - assert (filter (later_than T) (m :: l) = m :: l) as ->; [|done].
    apply filter_later_than_all. constructor; [done|].
    unfold later_than in Hlater. rewrite Hm in Hlater.
    clear IH Hsorted. revert ts Hts Hall. induction l as [|m' l IHl]; intros ts Hts Hall.
    + constructor.
    + destruct ts as [|t' ts]; [done|]. rewrite !fmap_cons in Hts. injection Hts as Hm' Hts.
      apply Forall_cons in Hall as [Ht' Hall]. constructor; [|by eapply IHl].
      unfold later_than. rewrite Hm'. lia.
  - rewrite filter_cons_False by done. by apply suffix_cons_r, (IH ts).
Qed.

(** X20. A cursor never leaves a gap. Under an ordinary user key and
    thread id and a server clock that does not run backwards, the
    messages answered for [after = T] are a suffix of the stored list:
    every message stored behind an answered one is answered too. *)
Theorem listMessages_after_is_suffix evs clock hdr threadId a T :
  inherited (userId_of hdr) = false →
  inherited threadId = false →
  Sorted Z.le (stamps evs) →
  (∀ t, t ∈ stamps evs → Date_parse (toISOString t) = Some t) →
  a ≠ "" → Date_parse a = Some T →
  ∃ l, (getMessages clock hdr threadId (Some a) (run init evs)).1 =
         {| status := 200; body := Messages l |} ∧
       l `suffix_of` stored_messages (run init evs) (userId_of hdr) threadId.
Proof.
  intros Hu Hk Hsorted Hparse Ha HT.
  exists (filter (later_than T) (stored_messages (run init evs) (userId_of hdr) threadId)).
  split.
  - rewrite getMessages_response by (try done; apply run_clean). unfold after_of.
    rewrite bool_decide_eq_false_2 by done. by rewrite HT, filter_later_than.
  - destruct (stored_sorted evs (userId_of hdr) threadId Hsorted Hparse) as (ts & Hat & Hs).
    eapply filter_later_than_suffix; [done|].
    apply Sorted_StronglySorted; [apply _|done].
Qed.

End Restart_and_cursor.

Section Tmdb.

Lemma searchParams_set_fresh k v l :
  k ∉ l.*1 → searchParams_set k v l = l ++ [(k, v)].
Proof.
  induction l as [|[k' v'] l IH]; simpl; [done|]. intros Hk.
  rewrite bool_decide_eq_false_2 by (intros ->; apply Hk; left).
  rewrite IH; [done|]. intros Hin. apply Hk. by right.
Qed.

Lemma query_param_key kv p : query_param kv = Some p → p.1 = kv.1.
Proof. unfold query_param. destruct (not_nullish kv.2); [|done]. by intros [= <-]. Qed.

Lemma omap_query_param_keys l k :
  k ∈ (omap query_param l).*1 → k ∈ l.*1.
Proof.
  intros [p [-> Hp]]%list_elem_of_fmap. apply list_elem_of_omap in Hp as (kv & Hkv & Hq).
  rewrite (query_param_key _ _ Hq). by apply list_elem_of_fmap_2.
Qed.

(** The address [tmdbGet] builds entry by entry. *)
Lemma build_url l url :
  NoDup l.*1 →
  (∀ k, k ∈ l.*1 → k ∉ (searchParams url).*1) →
  foldl (λ url kv,
           if not_nullish kv.2 then
             {| href := href url;
                searchParams := searchParams_set kv.1 (ToString kv.2) (searchParams url) |}
           else url) url l
  = {| href := href url; searchParams := searchParams url ++ omap query_param l |}.
Proof.
  revert url. induction l as [|[k v] l IH]; intros url Hnd Hfresh; simpl.
  - rewrite app_nil_r. by destruct url.
  - rewrite fmap_cons in Hnd. apply NoDup_cons in Hnd as [Hk Hnd].
    unfold query_param at 1. simpl. destruct (not_nullish v) eqn:Hv.
    + rewrite IH; simpl; [|done|].
      * rewrite searchParams_set_fresh by (apply Hfresh; left).
        by rewrite <- app_assoc.
      * intros k' Hk'. rewrite searchParams_set_fresh by (apply Hfresh; left).
        rewrite fmap_app. intros [Hin|Hin%list_elem_of_singleton]%elem_of_app.
        -- by apply (Hfresh k'); [right|].
        -- simpl in Hin. by subst k'.
    + apply IH; [done|]. intros k' Hk'. apply Hfresh. by right.
Qed.

Lemma NoDup_omap_query_param l : NoDup l.*1 → NoDup (omap query_param l).*1.
Proof.
  induction l as [|[k v] l IH]; simpl; [constructor|].
  intros [Hk Hnd]%NoDup_cons. unfold query_param at 1. simpl.
  destruct (not_nullish v); simpl; [|by apply IH].
  apply NoDup_cons. split; [|by apply IH].
  intros Hin. by apply Hk, omap_query_param_keys.
Qed.

(** X18. Without [TMDB_BEARER], or with an empty one, a TMDB route
    answers 500 with the error [TMDB_BEARER missing in .env], whatever the
    network would have answered. With a token, it asks the address
    [TMDB_BASE] plus the path, with one parameter for each entry of the
    query that is neither [null] nor [undefined] and no other, under the
    header [Bearer] plus the token, and passes on the status and the text it
    gets; an error thrown on the way is answered 500 with its message. *)
Theorem tmdb_route_answer fetch pathPart query :
  (∀ TMDB_BEARER,
     TMDB_BEARER = None ∨ TMDB_BEARER = Some "" →
     tmdb_route fetch TMDB_BEARER pathPart query =
       Json500 "TMDB_BEARER missing in .env" "Error" JUndefined None) ∧
  (∀ token,
     token ≠ "" →
     ∃ url,
       href url = TMDB_BASE +:+ pathPart ∧
       NoDup (searchParams url).*1 ∧
       (∀ k v, (k, v) ∈ searchParams url ↔
               ∃ jv, query !! k = Some jv ∧ not_nullish jv = true ∧ v = ToString jv) ∧
       tmdb_route fetch (Some token) pathPart query =
         match fetch url {| Authorization := "Bearer " +:+ token;
                            accept := "application/json" |} with
         | Returned status text => Sent status text
         | Thrown e =>
             Json500 (if bool_decide (e_message e = "") then e_name e else e_message e)
                     (e_name e) (e_code e) (e_cause e)
         end).
Proof.
  split.
  - by intros TMDB_BEARER [->| ->].
  - intros token Htoken.
    exists {| href := TMDB_BASE +:+ pathPart; searchParams := omap query_param (map_to_list query) |}.
    split_and!; simpl.
    + done.
    + apply NoDup_omap_query_param, NoDup_fst_map_to_list.
    + intros k v. rewrite list_elem_of_omap. split.
      * intros ([k' jv] & Hin%elem_of_map_to_list & Hq). unfold query_param in Hq. simpl in Hq.
        destruct (not_nullish jv) eqn:Hjv; [|done]. injection Hq as <- <-. by exists jv.
      * intros (jv & Hjv & Hnn & ->). exists (k, jv). split; [by apply elem_of_map_to_list|].
        unfold query_param. simpl. by rewrite Hnn.
    + unfold tmdb_route, tmdbGet, tmdbHeaders.
      rewrite bool_decide_eq_false_2 by done.
      rewrite build_url; simpl; [|apply NoDup_fst_map_to_list|set_solver].
      by destruct (fetch _ _).
Qed.

End Tmdb.

(** * Concrete runs on the reference runtime *)

#[local] Existing Instance ref_runtime.



(** C2 is not what the code does: for a known tenant whose thread "t1" is
    unknown, reading the messages creates the thread in the dataset and the
    save timer stays unarmed. *)
Lemma listMessages_vivifies_without_save :
  let s := run init [Request (GET_threads u1); TimerFires Written] in
  let s' := (getMessages jan1 u1 "t1" None s).2 in
  stored_thread s "u1" "t1" = None ∧
  stored_thread s' "u1" "t1" = Some (default_thread "t1" "2024-01-01T00:00:00.000Z") ∧
  stored_messages s' "u1" "t1" = [] ∧
  saveTimer s = false ∧
  saveTimer s' = false.
Proof. vm_compute. done. Qed.

(** A run of C2: reading an unknown thread of a known tenant vivifies it,
    and reading it again gives the state back. *)
Lemma listMessages_effect_witness :
  let s := run init [Request (GET_threads u1)] in
  let s' := (getMessages jan1 u1 "t1" None s).2 in
  (ordinary s (userId_of u1) "t1" ∧
   is_Some (stored_thread s' (userId_of u1) "t1") ∧
   is_Some (messages (store_of (userId_of u1) s') !! "t1")) ∧
  db s' = <[userId_of u1 := vivified jan1 (store_of (userId_of u1) s) "t1"]> (db s) ∧
  (getMessages (jan1 + 1000) u1 "t1" None s').2 = s'.
Proof.
  intros s s'.
  assert (ordinary s (userId_of u1) "t1") as H0 by (repeat split).
  assert (is_Some (stored_thread s' (userId_of u1) "t1")) as H1 by (vm_compute; eauto).
  assert (is_Some (messages (store_of (userId_of u1) s') !! "t1")) as H2
    by (vm_compute; eauto).
  split; [exact (conj H0 (conj H1 H2))|]. split.
  - exact (proj2 (proj1 (proj2 (proj2 (listMessages_effect jan1 u1 "t1" None s))) H0)).
  - exact (proj2 (proj2 (proj2 (listMessages_effect (jan1 + 1000)%Z u1 "t1" None s'))) H1 H2).
Defined.

(** C4 is not what the code does: listing the threads of an unknown user
    adds a tenant to the dataset and arms the save timer. *)
Lemma listThreads_creates_tenant :
  let res := getThreads u1 init in
  db init !! "u1" = None ∧
  db res.2 !! "u1" = Some empty_store ∧
  saveTimer init = false ∧
  saveTimer res.2 = true.
Proof. vm_compute. done. Qed.

(** A run of C4: listing the threads of a known user gives the state back;
    the user u1 is unknown to the empty dataset. *)
Lemma listThreads_effect_witness :
  let s := run init [Request (POST_read jan1 u1 "t1")] in
  (tenant_known s (userId_of u1) = true ∧
   db init !! userId_of u1 = None ∧ inherited (userId_of u1) = false ∧
   unpolluted (Object_prototype init)) ∧
  (getThreads u1 s).2 = s ∧
  tenant_known init (userId_of u1) = false.
Proof.
  intros s.
  assert (tenant_known s (userId_of u1) = true) as H1 by (vm_compute; reflexivity).
  assert (db init !! userId_of u1 = None) as H2 by reflexivity.
  assert (inherited (userId_of u1) = false) as H3 by reflexivity.
  assert (unpolluted (Object_prototype init)) as H4 by reflexivity.
  split; [exact (conj H1 (conj H2 (conj H3 H4)))|]. split.
  - exact (proj1 (proj2 (proj2 (proj2 (proj2 (listThreads_effect u1 s))))) H1).
  - exact (proj1 (proj2 (proj2 (proj2 (proj2 (proj2 (proj2 (listThreads_effect u1 init)))))))
             H2 H3 H4).
Defined.

(** C5 is not what the code does: a descriptor without id sent by an unknown
    user is refused with 400, yet a tenant is added to the dataset and the
    save timer is armed. *)
Lemma upsertThread_refusal_creates_tenant :
  let res := postThread jan1 u1 (descriptor JUndefined JUndefined JUndefined) init in
  res.1 = {| status := 400; body := Error "thread.id required" |} ∧
  db init !! "u1" = None ∧
  db res.2 !! "u1" = Some empty_store ∧
  saveTimer init = false ∧
  saveTimer res.2 = true.
Proof. vm_compute. done. Qed.

(** A run of C5: a known user sends a descriptor with the empty id. *)
Lemma upsertThread_validation_witness :
  let s := run init [Request (POST_read jan1 u1 "t1")] in
  let res := postThread jan1 u1 (descriptor (JString "") JUndefined JUndefined) s in
  (ToBoolean (ThreadBody.id (descriptor (JString "") JUndefined JUndefined)) = false ∧
   tenant_known s (userId_of u1) = true) ∧
  res.1 = {| status := 400; body := Error "thread.id required" |} ∧
  res.2 = s.
Proof.
  intros s res.
  assert (ToBoolean (ThreadBody.id (descriptor (JString "") JUndefined JUndefined)) = false)
    as H1 by reflexivity.
  assert (tenant_known s (userId_of u1) = true) as H2 by (vm_compute; reflexivity).
  pose proof (upsertThread_validation jan1 u1 _ s H1) as (Hres & _ & _ & _ & Hsame & _).
  exact (conj (conj H1 H2) (conj Hres (Hsame H2))).
Defined.

(** A run of C3: of two messages a second apart, the cursor set at the first
    stamp leaves the second; the same cursor on the thread id
    [constructor] is answered 500. *)
Lemma listMessages_after_witness :
  let s := run init [Request (POST_messages jan1 jan1 "uuid-1" u1 "t1" body_hi);
                     Request (POST_messages jan1 (jan1 + 1000) "uuid-2" u1 "t1" body_bye)] in
  let msgs := stored_messages s (userId_of u1) "t1" in
  (inherited (userId_of u1) = false ∧ unpolluted (Object_prototype s) ∧
   inherited "t1" = false ∧
   "2024-01-01T00:00:00.000Z" ≠ "" ∧ Date_parse "2024-01-01T00:00:00.000Z" = Some jan1 ∧
   inherited "constructor" = true ∧
   messages (store_of (userId_of u1) s) !! "constructor" = None) ∧
  (getMessages (jan1 + 2000) u1 "t1" (Some "2024-01-01T00:00:00.000Z") s).1 =
    {| status := 200; body := Messages (filter (later_than jan1) msgs) |} ∧
  filter (later_than jan1) msgs =
    [{| Message.id := "m2"; Message.fromMe := false; Message.text := "bye";
        Message.at_ := "2024-01-01T00:00:01.000Z" |}] ∧
  (getMessages (jan1 + 2000) u1 "constructor" (Some "2024-01-01T00:00:00.000Z") s).1 =
    {| status := 500; body := Uncaught |}.
Proof.
  intros s msgs.
  assert (inherited (userId_of u1) = false) as Hu by reflexivity.
  assert (unpolluted (Object_prototype s)) as Hp by (vm_compute; reflexivity).
  assert (inherited "t1" = false) as Hk by reflexivity.
  assert ("2024-01-01T00:00:00.000Z" ≠ "") as H1 by discriminate.
  assert (Date_parse "2024-01-01T00:00:00.000Z" = Some jan1) as H2 by (vm_compute; reflexivity).
  assert (inherited "constructor" = true) as Hc by reflexivity.
  assert (messages (store_of (userId_of u1) s) !! "constructor" = None) as Hn
    by (vm_compute; reflexivity).
  split; [exact (conj Hu (conj Hp (conj Hk (conj H1 (conj H2 (conj Hc Hn))))))|].
  split; [|split].
  - exact (proj1 (proj1 (proj1 (listMessages_after (jan1 + 2000)%Z u1 "t1" s Hu Hp) Hk)
                    _ _ H1 H2)).
  - vm_compute. reflexivity.
  - exact (proj1 (proj2 (listMessages_after (jan1 + 2000)%Z u1 "constructor" s Hu Hp) Hc Hn)
             _ _ H1 H2).
Defined.

(** A run of C10: the cursor [yesterday] is no date; on thread t1 it gives
    the empty list, on the thread id [constructor] the answer 500. *)
Lemma listMessages_invalid_after_witness :
  let s := run init [Request (POST_messages jan1 jan1 "uuid-1" u1 "t1" body_hi)] in
  (inherited (userId_of u1) = false ∧ unpolluted (Object_prototype s) ∧
   inherited "t1" = false ∧
   "yesterday" ≠ "" ∧ Date_parse "yesterday" = None ∧
   inherited "constructor" = true ∧
   messages (store_of (userId_of u1) s) !! "constructor" = None) ∧
  (getMessages (jan1 + 2000) u1 "t1" (Some "yesterday") s).1 =
    {| status := 200; body := Messages [] |} ∧
  (getMessages (jan1 + 2000) u1 "constructor" (Some "yesterday") s).1 =
    {| status := 500; body := Uncaught |}.
Proof.
  intros s.
  assert (inherited (userId_of u1) = false) as Hu by reflexivity.
  assert (unpolluted (Object_prototype s)) as Hp by (vm_compute; reflexivity).
  assert (inherited "t1" = false) as Hk by reflexivity.
  assert ("yesterday" ≠ "") as H1 by discriminate.
  assert (Date_parse "yesterday" = None) as H2 by (vm_compute; reflexivity).
  assert (inherited "constructor" = true) as Hc by reflexivity.
  assert (messages (store_of (userId_of u1) s) !! "constructor" = None) as Hn
    by (vm_compute; reflexivity).
  split; [exact (conj Hu (conj Hp (conj Hk (conj H1 (conj H2 (conj Hc Hn))))))|].
  split.
  - exact (proj1 (proj1 (listMessages_invalid_after (jan1 + 2000)%Z u1 "t1" s Hu Hp) Hk)
             _ H1 H2).
  - exact (proj1 (proj2 (listMessages_invalid_after (jan1 + 2000)%Z u1 "constructor" s Hu Hp)
                    Hc Hn) _ H1 H2).
Defined.



(** A run of C7: after a read mark on thread t1 the thread and its list
    are both there; after the descriptor [{ "id": "constructor" }] sent to
    the empty dataset the thread is there and its list is not. *)
Lemma thread_iff_message_list_witness :
  let evs := [Request (POST_read jan1 u1 "t1")] in
  let t := descriptor (JString "constructor") JUndefined JUndefined in
  let res := postThread jan1 u1 t init in
  (Forall plain_event evs ∧
   ToBoolean (ThreadBody.id t) = true ∧
   inherited (userId_of u1) = false ∧
   unpolluted (Object_prototype init) ∧
   inherited (ToString (ThreadBody.id t)) = true ∧
   ToString (ThreadBody.id t) ≠ "__proto__" ∧
   messages (store_of (userId_of u1) init) !! ToString (ThreadBody.id t) = None) ∧
  (is_Some (threads (store_of "u1" (run init evs)) !! "t1") ↔
   is_Some (messages (store_of "u1" (run init evs)) !! "t1")) ∧
  status res.1 = 201 ∧
  is_Some (threads (store_of (userId_of u1) res.2) !! "constructor") ∧
  ¬ is_Some (messages (store_of (userId_of u1) res.2) !! "constructor").
Proof.
  intros evs t res.
  assert (Forall plain_event evs) as H1.
  { repeat constructor. intros k [= <-]. reflexivity. }
  assert (ToBoolean (ThreadBody.id t) = true) as H2 by reflexivity.
  assert (inherited (userId_of u1) = false) as H3 by reflexivity.
  assert (unpolluted (Object_prototype init)) as H4 by reflexivity.
  assert (inherited (ToString (ThreadBody.id t)) = true) as H5 by reflexivity.
  assert (ToString (ThreadBody.id t) ≠ "__proto__") as H6 by discriminate.
  assert (messages (store_of (userId_of u1) init) !! ToString (ThreadBody.id t) = None) as H7
    by reflexivity.
  split; [exact (conj H1 (conj H2 (conj H3 (conj H4 (conj H5 (conj H6 H7))))))|].
  split.
  - exact (proj1 thread_iff_message_list evs "u1" "t1" H1).
  - exact (proj2 thread_iff_message_list jan1 u1 t init H2 H3 H4 H5 H6 H7).
Defined.

(** C8 is not what the code does: thread "b" was created with a date in the
    year 3000; a message appended to thread "a" in 2024 is created, and the
    list of threads still starts with "b". *)
Lemma listThreads_append_not_first :
  let s := run init [Request (POST_threads jan1 u1
                       (descriptor (JString "b") JUndefined (JString "3000-01-01T00:00:00.000Z")))] in
  let res := postMessage jan1 jan1 "uuid-1" u1 "a" body_hi s in
  res.1 = {| status := 201; body := Ack "m1" "2024-01-01T00:00:00.000Z" |} ∧
  (getThreads u1 res.2).1 =
    {| status := 200;
       body := Threads
         [ {| Thread.id := "b"; Thread.name := "b"; Thread.avatarUrl := "";
              Thread.online := false; Thread.lastMessage := "";
              Thread.unread := JNumber (Num 0);
              Thread.updatedAt := "3000-01-01T00:00:00.000Z";
              Thread.muted := false; Thread.archived := false |};
           {| Thread.id := "a"; Thread.name := "a"; Thread.avatarUrl := "";
              Thread.online := false; Thread.lastMessage := "hi";
              Thread.unread := JNumber (Num 0);
              Thread.updatedAt := "2024-01-01T00:00:00.000Z";
              Thread.muted := false; Thread.archived := false |} ] |}.
Proof. vm_compute. done. Qed.

(** A run of C8: thread b dates from 2024-01-01T00:00:00.000Z, the append to
    thread a comes a second later and puts a first. *)
Lemma listThreads_recency_witness :
  let s := run init [Request (POST_threads jan1 u1 (descriptor (JString "b") JUndefined JUndefined))] in
  let s' := (postMessage (jan1 + 1000) (jan1 + 1000) "uuid-1" u1 "a" body_hi s).2 in
  (ordinary s (userId_of u1) "a" ∧
   find_id (Message.id (build_message (jan1 + 1000) "uuid-1" body_hi))
     (stored_messages s (userId_of u1) "a") = None ∧
   Date_parse (toISOString (jan1 + 1000)) = Some (jan1 + 1000)%Z ∧
   ∀ k th, k ≠ "a" → stored_thread s (userId_of u1) k = Some th →
           ∃ t, updated_time th = Some t ∧ (t < jan1 + 1000)%Z) ∧
  ∃ th rest,
    (getThreads u1 s').1 = {| status := 200; body := Threads (th :: rest) |} ∧
    stored_thread s' (userId_of u1) "a" = Some th.
Proof.
  intros s s'.
  assert (ordinary s (userId_of u1) "a") as H0 by (repeat split).
  assert (find_id (Message.id (build_message (jan1 + 1000) "uuid-1" body_hi))
            (stored_messages s (userId_of u1) "a") = None) as H1 by (vm_compute; reflexivity).
  assert (Date_parse (toISOString (jan1 + 1000)) = Some (jan1 + 1000)%Z) as H2
    by (vm_compute; reflexivity).
  assert (∀ k th, k ≠ "a" → stored_thread s (userId_of u1) k = Some th →
                  ∃ t, updated_time th = Some t ∧ (t < jan1 + 1000)%Z) as H3.
  { intros k th _ Hth. unfold stored_thread in Hth.
    assert (threads (store_of (userId_of u1) s) =
            {[ "b" := default_thread "b" "2024-01-01T00:00:00.000Z" ]}) as Hmap
      by (vm_compute; reflexivity).
    rewrite Hmap in Hth. apply lookup_singleton_Some in Hth as [_ <-].
    exists jan1. split; [vm_compute; reflexivity|]. unfold jan1. lia. }
  split; [exact (conj H0 (conj H1 (conj H2 H3)))|].
  exact (proj2 (listThreads_recency s u1) (jan1 + 1000)%Z (jan1 + 1000)%Z "uuid-1" "a" body_hi
           H0 H1 H2 H3).
Defined.

(** C9 fails on the code: a thread created with the unread count "abc" is
    stored with NaN; the file holds null in its place, and the dataset
    loaded back differs from the one saved. *)
Lemma save_load_loses_NaN :
  let s := run init [Request (POST_threads jan1 u1
                       (descriptor (JString "t1") (JString "abc") JUndefined))] in
  Thread.unread <$> stored_thread s "u1" "t1" = Some (JNumber NaN) ∧
  ∃ s', loadDb (saveDbNow Written s) = Some s' ∧
        Thread.unread <$> stored_thread s' "u1" "t1" = Some JNull ∧
        db s' ≠ db s.
Proof.
  intros s. split; [vm_compute; reflexivity|].
  eexists. split; [vm_compute; reflexivity|]. split; [vm_compute; reflexivity|].
  intros Heq.
  apply (f_equal (λ d, st ← d !! "u1"; th ← threads st !! "t1"; Some (Thread.unread th))) in Heq.
  vm_compute in Heq. discriminate.
Qed.

(** The scenario of the specification: user u1 has no threads; an append
    creates thread t1 with [lastMessage] "hi"; the same id sent again is a
    duplicate with the same stamp; the unread count is untouched by the
    append and zero after a read; the thread lists its one message. *)
Example scenario_u1 :
  let first := postMessage jan1 jan1 "uuid-1" u1 "t1" body_hi init in
  let second := postMessage (jan1 + 5) (jan1 + 5) "uuid-2" u1 "t1" body_hi first.2 in
  let read := postRead (jan1 + 9) u1 "t1" second.2 in
  first.1 = {| status := 201; body := Ack "m1" "2024-01-01T00:00:00.000Z" |} ∧
  second.1 = {| status := 200; body := Ack "m1" "2024-01-01T00:00:00.000Z" |} ∧
  (getThreads u1 second.2).1 =
    {| status := 200;
       body := Threads
         [ {| Thread.id := "t1"; Thread.name := "t1"; Thread.avatarUrl := "";
              Thread.online := false; Thread.lastMessage := "hi";
              Thread.unread := JNumber (Num 0);
              Thread.updatedAt := "2024-01-01T00:00:00.000Z";
              Thread.muted := false; Thread.archived := false |} ] |} ∧
  Thread.unread <$> stored_thread read.2 "u1" "t1" = Some (JNumber (Num 0)) ∧
  (getMessages (jan1 + 9) u1 "t1" None read.2).1 =
    {| status := 200;
       body := Messages
         [ {| Message.id := "m1"; Message.fromMe := true; Message.text := "hi";
              Message.at_ := "2024-01-01T00:00:00.000Z" |} ] |}.
Proof. vm_compute. done. Qed.

(** Thread ids that name members of [Object.prototype], as the code treats
    them: an append to [constructor] is answered 500 and stores nothing; a
    read mark on it stores nothing either; the descriptor
    [{ "id": "__proto__" }] is answered 201 and stores no record, after
    which reading the messages of thread [name] makes a list without a
    thread record. *)
Example inherited_thread_ids :
  let append := postMessage jan1 jan1 "uuid-1" u1 "constructor" body_hi init in
  let read := postRead jan1 u1 "constructor" init in
  let proto := postThread jan1 u1 (descriptor (JString "__proto__") JUndefined JUndefined) init in
  let listed := getMessages jan1 u1 "name" None proto.2 in
  append.1 = crash ∧
  store_of "u1" append.2 = empty_store ∧
  read.1 = {| status := 200; body := Ok |} ∧
  store_of "u1" read.2 = empty_store ∧
  proto.1 = {| status := 201; body := Ok |} ∧
  threads (store_of "u1" proto.2) = ∅ ∧
  listed.1 = {| status := 200; body := Messages [] |} ∧
  stored_thread listed.2 "u1" "name" = None ∧
  messages (store_of "u1" listed.2) !! "name" = Some [].
Proof. vm_compute. done. Qed.

(** A run of X1: an append by u1 to t1 leaves user u2 and thread t2 alone. *)
Lemma request_frame_witness :
  let s := run init [Request (POST_read jan1 (Some "u2") "t9");
                     Request (POST_read jan1 u1 "t2")] in
  let r := POST_messages jan1 jan1 "uuid-1" u1 "t1" body_hi in
  ("u2" ≠ user_of r ∧ thread_of r ≠ Some "t2") ∧
  db (handle r s).2 !! "u2" = db s !! "u2" ∧
  stored_thread (handle r s).2 "u1" "t2" = stored_thread s "u1" "t2" ∧
  stored_messages (handle r s).2 "u1" "t2" = stored_messages s "u1" "t2".
Proof.
  intros s r.
  assert ("u2" ≠ user_of r) as H1 by discriminate.
  assert (thread_of r ≠ Some "t2") as H2 by discriminate.
  exact (conj (conj H1 H2)
           (conj (proj1 (request_frame r s) "u2" H1) (proj2 (request_frame r s) "u1" "t2" H2))).
Defined.


(** A run of X3: thread t1 of u1 outlives a further append and a flush. *)
Lemma messages_append_only_witness :
  let s := run init [Request (POST_messages jan1 jan1 "uuid-1" u1 "t1" body_hi)] in
  let evs := [Request (POST_messages jan1 (jan1 + 1000) "uuid-2" u1 "t1" body_bye);
              TimerFires Written] in
  is_Some (stored_thread s "u1" "t1") ∧ is_Some (stored_thread (run s evs) "u1" "t1").
Proof.
  intros s evs.
  assert (is_Some (stored_thread s "u1" "t1")) as H1 by (vm_compute; eauto).
  exact (conj H1 (proj2 (messages_append_only s evs "u1" "t1") H1)).
Defined.

(** A run of X5: the descriptor with the numeric id 5 is stored under "5". *)
Lemma thread_ids_are_keys_witness :
  let evs := [Request (POST_threads jan1 u1 (descriptor (JNumber (Num 5)) JUndefined JUndefined))] in
  stored_thread (run init evs) "u1" "5" = Some (default_thread "5" "2024-01-01T00:00:00.000Z") ∧
  Thread.id (default_thread "5" "2024-01-01T00:00:00.000Z") = "5".
Proof.
  intros evs.
  assert (stored_thread (run init evs) "u1" "5"
          = Some (default_thread "5" "2024-01-01T00:00:00.000Z")) as H1
    by (vm_compute; reflexivity).
  exact (conj H1 (proj1 (thread_ids_are_keys evs) "u1" "5" _ H1)).
Defined.

(** A run of X6: a read mark on a thread whose unread count is 7. *)
Lemma markRead_effect_witness :
  let s := run init [Request (POST_threads jan1 u1 (descriptor (JString "b") (JString "7") JUndefined))] in
  let res := postRead (jan1 + 1000) u1 "b" s in
  ordinary s (userId_of u1) "b" ∧
  Thread.unread <$> stored_thread s "u1" "b" = Some (JNumber (Num 7)) ∧
  res.1 = {| status := 200; body := Ok |} ∧
  stored_thread res.2 (userId_of u1) "b" =
    Some (mark_read (default (default_thread "b" (toISOString (jan1 + 1000)))
                       (stored_thread s (userId_of u1) "b"))).
Proof.
  intros s res.
  assert (ordinary s (userId_of u1) "b") as H0 by (repeat split).
  assert (Thread.unread <$> stored_thread s "u1" "b" = Some (JNumber (Num 7))) as H1
    by (vm_compute; reflexivity).
  pose proof (markRead_effect (jan1 + 1000)%Z u1 "b" s H0) as (H2 & _ & _ & H3 & _).
  exact (conj H0 (conj H1 (conj H2 H3))).
Defined.



(** A run of X10: the descriptor [{ "id": "t1" }] on the empty dataset. *)
Lemma upsertThread_bare_is_vivify_witness :
  let t := descriptor (JString "t1") JUndefined JUndefined in
  (ToBoolean (ThreadBody.id t) = true ∧ bare t ∧
   ordinary init (userId_of u1) (ToString (ThreadBody.id t)) ∧
   stored_thread init (userId_of u1) (ToString (ThreadBody.id t)) = None) ∧
  (postThread jan1 u1 t init).2 =
    scheduleSave (getMessages jan1 u1 (ToString (ThreadBody.id t)) None init).2.
Proof.
  intros t.
  assert (ToBoolean (ThreadBody.id t) = true) as H1 by reflexivity.
  assert (bare t) as H2 by (repeat split).
  assert (ordinary init (userId_of u1) (ToString (ThreadBody.id t))) as H0 by (repeat split).
  assert (stored_thread init (userId_of u1) (ToString (ThreadBody.id t)) = None) as H3
    by reflexivity.
  exact (conj (conj H1 (conj H2 (conj H0 H3)))
           (upsertThread_bare_is_vivify jan1 u1 t None init H1 H2 H0 H3)).
Defined.


(** A run of X12: a message sent without user header is read back under
    the header [demo]. *)
Lemma append_then_list_witness :
  let s' := (postMessage jan1 jan1 "uuid-1" None "t1" body_hi init).2 in
  (ordinary init (userId_of None) "t1" ∧
   find_id (Message.id (build_message jan1 "uuid-1" body_hi))
     (stored_messages init (userId_of None) "t1") = None ∧
   userId_of (Some "demo") = userId_of None) ∧
  getMessages (jan1 + 1000) (Some "demo") "t1" None s' =
    ({| status := 200;
        body := Messages (stored_messages init (userId_of None) "t1"
                            ++ [build_message jan1 "uuid-1" body_hi]) |}, s').
Proof.
  intros s'.
  assert (ordinary init (userId_of None) "t1") as H0 by (repeat split).
  assert (find_id (Message.id (build_message jan1 "uuid-1" body_hi))
            (stored_messages init (userId_of None) "t1") = None) as H1 by reflexivity.
  assert (userId_of (Some "demo") = userId_of None) as H2 by reflexivity.
  exact (conj (conj H0 (conj H1 H2))
           (append_then_list jan1 jan1 "uuid-1" None "t1" body_hi (jan1 + 1000)%Z
              (Some "demo") init H0 H1 H2)).
Defined.

(** A run of X13: an append to a thread whose unread count is 7. *)
Lemma appendMessage_thread_record_witness :
  let s := run init [Request (POST_threads jan1 u1 (descriptor (JString "b") (JString "7") JUndefined))] in
  let res := postMessage (jan1 + 1000) (jan1 + 1000) "uuid-1" u1 "b" body_hi s in
  (ordinary s (userId_of u1) "b" ∧
   find_id (Message.id (build_message (jan1 + 1000) "uuid-1" body_hi))
     (stored_messages s (userId_of u1) "b") = None) ∧
  stored_thread res.2 (userId_of u1) "b" =
    Some (preview (build_message (jan1 + 1000) "uuid-1" body_hi)
            (default (default_thread "b" (toISOString (jan1 + 1000)))
               (stored_thread s (userId_of u1) "b"))) ∧
  Thread.unread <$> stored_thread res.2 "u1" "b" = Some (JNumber (Num 7)).
Proof.
  intros s res.
  assert (ordinary s (userId_of u1) "b") as H0 by (repeat split).
  assert (find_id (Message.id (build_message (jan1 + 1000) "uuid-1" body_hi))
            (stored_messages s (userId_of u1) "b") = None) as H1 by (vm_compute; reflexivity).
  assert (Thread.unread <$> stored_thread res.2 "u1" "b" = Some (JNumber (Num 7))) as H2
    by (vm_compute; reflexivity).
  exact (conj (conj H0 H1)
           (conj (appendMessage_thread_record (jan1 + 1000)%Z (jan1 + 1000)%Z "uuid-1"
                    u1 "b" body_hi s H0 H1) H2)).
Defined.

(** A run of X14: an unread count sent as "Infinity" is read back as
    [null]. *)
Example save_load_normalises_Infinity :
  let s := run init [Request (POST_threads jan1 u1
                       (descriptor (JString "t1") (JString "Infinity") JUndefined))] in
  Thread.unread <$> stored_thread s "u1" "t1" = Some (JNumber (Infinity false)) ∧
  (λ s', Thread.unread <$> stored_thread s' "u1" "t1") <$> loadDb (saveDbNow Written s)
    = Some (Some JNull).
Proof. vm_compute. done. Qed.

(** A run of X15: the timer armed by a read mark fires, and the process
    starts anew. *)
Lemma restart_sees_last_flush_witness :
  let s := run init [Request (POST_read jan1 u1 "t1")] in
  saveTimer s = true ∧
  restart (timerFires Written s) =
    Some (started (reload_db (db s)) (Some (Doc (JSON_stringify (db s))))) ∧
  restart (timerFires Partial s) = Some (started ∅ (Some Unparsable)).
Proof.
  intros s.
  assert (saveTimer s = true) as H1 by (vm_compute; reflexivity).
  pose proof (proj2 (restart_sees_last_flush s []) H1) as (H2 & _ & _ & H3).
  exact (conj H1 (conj H2 H3)).
Defined.

(** A run of X16: after a flush, u1 reads the unknown thread t2. *)
Lemma unarmed_file_lags_witness :
  let evs := [Request (POST_messages jan1 jan1 "uuid-1" u1 "t1" body_hi); TimerFires Written;
              Request (GET_messages (jan1 + 1000) u1 "t2" None)] in
  (writes_succeed evs ∧ saveTimer (run init evs) = false) ∧
  ∃ d0, on_disk (run init evs) d0 ∧ lags d0 (db (run init evs)).
Proof.
  intros evs.
  assert (writes_succeed evs) as H0 by (repeat constructor).
  assert (saveTimer (run init evs) = false) as H1 by (vm_compute; reflexivity).
  destruct (unarmed_file_lags evs H0 H1) as (d0 & H2 & H3 & _).
  exact (conj (conj H0 H1) (ex_intro _ d0 (conj H2 H3))).
Defined.

(** A run of X18: the popular route without token, on a network that
    would answer. *)
Lemma tmdb_route_answer_witness :
  let fetch := λ (_ : URL) (_ : Headers), Returned 200 "{}" in
  let query : gmap string jsval := {[ "page" := JString "2" ]} in
  ((@None string = None ∨ @None string = Some "") ∧ "abc" ≠ "") ∧
  tmdb_popular fetch None query =
    Json500 "TMDB_BEARER missing in .env" "Error" JUndefined None ∧
  tmdb_popular fetch (Some "abc") query = Sent 200 "{}".
Proof.
  intros fetch query.
  assert (@None string = None ∨ @None string = Some "") as H1 by (by left).
  assert ("abc" ≠ "") as H2 by done.
  destruct (proj2 (tmdb_route_answer fetch "/movie/popular" query) "abc" H2)
    as (url & _ & _ & _ & H3).
  exact (conj (conj H1 H2)
           (conj (proj1 (tmdb_route_answer fetch "/movie/popular" query) None H1) H3)).
Defined.

(** A run of X19: a file that is not JSON. *)
Lemma restart_never_fails_witness :
  let s := started ∅ (Some Unparsable) in
  (file s = None ∨ file s = Some EmptyText ∨ file s = Some Unparsable) ∧
  restart s = Some (started ∅ (file s)).
Proof.
  intros s.
  assert (file s = None ∨ file s = Some EmptyText ∨ file s = Some Unparsable) as H1
    by (right; by right).
  exact (conj H1 (proj2 (restart_never_fails []) s H1)).
Defined.

(** A run of X20: two appends a second apart, and the cursor at the first. *)
Lemma listMessages_after_is_suffix_witness :
  let evs := [Request (POST_messages jan1 jan1 "uuid-1" u1 "t1" body_hi);
              Request (POST_messages jan1 (jan1 + 1000) "uuid-2" u1 "t1" body_bye)] in
  (inherited (userId_of u1) = false ∧
   inherited "t1" = false ∧
   Sorted Z.le (stamps evs) ∧
   (∀ t, t ∈ stamps evs → Date_parse (toISOString t) = Some t) ∧
   "2024-01-01T00:00:00.000Z" ≠ "" ∧
   Date_parse "2024-01-01T00:00:00.000Z" = Some jan1) ∧
  ∃ l, (getMessages (jan1 + 2000) u1 "t1" (Some "2024-01-01T00:00:00.000Z") (run init evs)).1 =
         {| status := 200; body := Messages l |} ∧
       l `suffix_of` stored_messages (run init evs) (userId_of u1) "t1".
Proof.
  intros evs.
  assert (inherited (userId_of u1) = false) as Hu by reflexivity.
  assert (inherited "t1" = false) as Hk by reflexivity.
  assert (Sorted Z.le (stamps evs)) as H1.
  { vm_compute. repeat constructor; by intros ?. }
  assert (∀ t, t ∈ stamps evs → Date_parse (toISOString t) = Some t) as H2.
  { intros t Ht. change (stamps evs) with [jan1; (jan1 + 1000)%Z] in Ht.
    apply elem_of_cons in Ht as [->|Ht]; [vm_compute; reflexivity|].
    apply list_elem_of_singleton in Ht as ->. vm_compute. reflexivity. }
  assert ("2024-01-01T00:00:00.000Z" ≠ "") as H3 by discriminate.
  assert (Date_parse "2024-01-01T00:00:00.000Z" = Some jan1) as H4 by (vm_compute; reflexivity).
  exact (conj (conj Hu (conj Hk (conj H1 (conj H2 (conj H3 H4)))))
           (listMessages_after_is_suffix evs (jan1 + 2000)%Z u1 "t1" _ jan1 Hu Hk H1 H2 H3 H4)).
Defined.
